(** * Object locks and attribute reporting of the OpenSL ES / OpenMAX AL
      object model (wilhelm, [src/locks.c])

    A shallow embedding of [locks.c]: the C functions become functions of a
    small state-and-abort monad over a world made of the locked object, the
    engine it reports to, what the pthread primitives return, and the trace
    of the primitive calls made so far.

    - [unsigned] and [SLuint32] values are [N], with the 32-bit wrap-around
      written out ([u32], [unot], [usub]); [int] and [pthread_t] are [Z].
    - [assert] is the C macro with assertions compiled in: a failed
      assertion stops the run ([Fatal]).
    - The pthread primitives are calls to the environment: each takes its
      return code, and what other threads did to the object meanwhile, from
      the world's [env].  [pthread_mutex_lock] waits for the mutex, and the
      environment may have it wait for ever ([Blocked]). *)

From Stdlib Require Import ZArith NArith List Sorted String Bool Lia.
From Equations Require Import Equations.
Import ListNotations.

Local Open Scope N_scope.

(** ** Machine integers *)

Definition unsigned := N.
Definition pthread_t := Z.

(** Conversion to a 32-bit [unsigned]. *)
Definition u32 (x : N) : unsigned := x mod 2 ^ 32.

(** [~x] on a 32-bit [unsigned]. *)
Definition unot (x : unsigned) : unsigned := N.lnot (u32 x) 32.

(** [a - b] on 32-bit [unsigned] operands, wrapping below zero. *)
Definition usub (a b : unsigned) : unsigned :=
  Z.to_N ((Z.of_N a - Z.of_N b) mod 2 ^ 32).

Fixpoint ctz_pos (p : positive) : N :=
  match p with
  | xO q => N.succ (ctz_pos q)
  | _ => 0
  end.

(** Modelled from the spec: [ctz], the count-trailing-zeros scan of the
    dispatch loop (a macro of [sles_allinclusive.h], absent here).  The
    result at [0], which the loop never asks for, is the width. *)
Definition ctz (x : unsigned) : unsigned :=
  match x with
  | N0 => 32
  | Npos p => ctz_pos p
  end.

(** ** Data model *)

(** The fields of [IObject] that [locks.c] touches.  [mObjectID] is what
    [IObjectToObjectID(thiz)] reads; [mFile] is a C string pointer, [None]
    for [NULL]; a zeroed [mOwner] is [0]. *)
Record IObject := mkIObject {
  mObjectID : unsigned;
  mOwner : pthread_t;
  mFile : option string;
  mLine : Z;
  mAttributesMask : unsigned;
  mInstanceID : unsigned
}.

(** [thiz->mEngine->mEngine] *)
Record IEngine := mkIEngine {
  mChangedMask : unsigned
}.

(** The C type [AttributeHandler]: a function from a pointer to the object
    to [unsigned].  The handler may write to the object it is given, and
    returns a mask. *)
Definition AttributeHandler := IObject -> unsigned * IObject.

(** The constants and the table of the headers that [locks.c] includes. *)
Record Config := mkConfig {
  XA_OBJECTID_ENGINE : unsigned;
  XA_OBJECTID_CAMERADEVICE : unsigned;
  SL_OBJECTID_ENGINE : unsigned;
  SL_OBJECTID_METADATAEXTRACTOR : unsigned;
  ATTR_INDEX_MAX : unsigned;
  MAX_INSTANCE : unsigned;
  handlerTable : unsigned -> unsigned -> option AttributeHandler
}.

(** Modelled from the spec: [ATTR_NONE], the empty attribute mask
    ("asynchronous := none"); the code tests it both as [ATTR_NONE] and
    as C falsity. *)
Definition ATTR_NONE : unsigned := 0.

Definition set_debug (o : IObject) (owner : pthread_t) (file : option string)
    (line : Z) : IObject :=
  {| mObjectID := mObjectID o; mOwner := owner; mFile := file; mLine := line;
     mAttributesMask := mAttributesMask o; mInstanceID := mInstanceID o |}.

Definition set_mAttributesMask (o : IObject) (m : unsigned) : IObject :=
  {| mObjectID := mObjectID o; mOwner := mOwner o; mFile := mFile o;
     mLine := mLine o; mAttributesMask := m; mInstanceID := mInstanceID o |}.

(** ** The world *)

(** What one call of a pthread primitive yields: its return code, and what
    the other threads did to the object while the call lasted.  [returns]
    is read by [pthread_mutex_lock]: it is [false] when the call never
    comes back, as on a mutex of the default type that the caller holds
    itself, or that its holder never releases.  [locks.c] does not set the
    type of the mutex. *)
Record EnvStep := mkEnvStep {
  ret_code : Z;
  interfere : IObject -> IObject;
  returns : bool
}.

(** The three messages of [object_lock_exclusive_], with their arguments:
    the call site, then the owner and the site recorded in the object. *)
Inductive LogMsg :=
| was_locked_by (file : option string) (line : Z)
    (owner : pthread_t) (ofile : option string) (oline : Z)
| was_recursively_locked_by (file : option string) (line : Z)
    (owner : pthread_t) (ofile : option string) (oline : Z)
| was_left_unlocked_in_unexpected_state_by (file : option string) (line : Z)
    (owner : pthread_t) (ofile : option string) (oline : Z).

Inductive Event :=
| EvUsleep (us : Z)
| EvMutexTrylock (r : Z)
| EvMutexLock (r : Z)
| EvMutexLockBlocked
| EvMutexUnlock (r : Z)
| EvCondWait (suspended : IObject) (r : Z)
| EvCondSignal (r : Z)
| EvCondBroadcast (r : Z)
| EvLogW (m : LogMsg)
| EvLogE (m : LogMsg)
| EvScan (objectID bit : unsigned)
| EvHandler (objectID bit result : unsigned)
| EvEngineLock
| EvEngineChanged (bits : unsigned)
| EvEngineUnlock.

Record World := mkWorld {
  object : IObject;
  engine : IEngine;
  env : list EnvStep;
  trace : list Event
}.

Definition set_object (w : World) (o : IObject) : World :=
  {| object := o; engine := engine w; env := env w; trace := trace w |}.

Definition set_engine (w : World) (e : IEngine) : World :=
  {| object := object w; engine := e; env := env w; trace := trace w |}.

Definition set_env (w : World) (l : list EnvStep) : World :=
  {| object := object w; engine := engine w; env := l; trace := trace w |}.

Definition add_event (w : World) (e : Event) : World :=
  {| object := object w; engine := engine w; env := env w;
     trace := trace w ++ [e] |}.

(** ** The monad: state, and abort on a failed assertion *)

(** A call returns ([Ok]), stops at a failed assertion ([Fatal]), or stays
    for ever in a primitive that does not return ([Blocked]). *)
Inductive Result (A : Type) :=
| Ok (a : A) (w : World)
| Fatal (w : World)
| Blocked (w : World).
Arguments Ok {A} a w.
Arguments Fatal {A} w.
Arguments Blocked {A} w.

Definition M (A : Type) := World -> Result A.

Definition ret {A} (a : A) : M A := fun w => Ok a w.

Definition bind {A B} (m : M A) (k : A -> M B) : M B :=
  fun w => match m w with
           | Ok a w' => k a w'
           | Fatal w' => Fatal w'
           | Blocked w' => Blocked w'
           end.

Notation "x <- m ;; k" := (bind m (fun x => k))
  (at level 61, m at next level, right associativity).
Notation "m ;; k" := (bind m (fun _ => k))
  (at level 61, right associativity).

Definition world_of {A} (r : Result A) : World :=
  match r with
  | Ok _ w => w
  | Fatal w => w
  | Blocked w => w
  end.

Definition get_object : M IObject := fun w => Ok (object w) w.
Definition put_object (o : IObject) : M unit := fun w => Ok tt (set_object w o).
Definition get_engine : M IEngine := fun w => Ok (engine w) w.
Definition put_engine (e : IEngine) : M unit := fun w => Ok tt (set_engine w e).
Definition emit (e : Event) : M unit := fun w => Ok tt (add_event w e).

(** [assert(b)] *)
Definition assert (b : bool) : M unit :=
  fun w => if b then Ok tt w else Fatal w.

(** One call into the environment.  When [env] is used up the primitives
    succeed and nobody else touches the object. *)
Definition environment : M Z :=
  fun w => match env w with
           | [] => Ok 0%Z w
           | s :: rest =>
               Ok (ret_code s) (set_env (set_object w (interfere s (object w))) rest)
           end.

(** ** The primitives [locks.c] calls *)

Definition usleep (us : Z) : M unit := emit (EvUsleep us).

Definition pthread_mutex_trylock : M Z :=
  r <- environment ;; emit (EvMutexTrylock r) ;; ret r.

(** The wait of [pthread_mutex_lock] for the mutex: the thread goes on
    when the call comes back, and stays in the call otherwise. *)
Definition wait_for_mutex : M unit :=
  fun w => match env w with
           | [] => Ok tt w
           | s :: _ => if returns s then Ok tt w
                       else Blocked (add_event w EvMutexLockBlocked)
           end.

Definition pthread_mutex_lock : M Z :=
  wait_for_mutex ;; r <- environment ;; emit (EvMutexLock r) ;; ret r.

Definition pthread_mutex_unlock : M Z :=
  r <- environment ;; emit (EvMutexUnlock r) ;; ret r.

(** The event keeps the object as the call found it: what the other threads
    see while this one is suspended. *)
Definition pthread_cond_wait : M Z :=
  o <- get_object ;; r <- environment ;; emit (EvCondWait o r) ;; ret r.

Definition pthread_cond_signal : M Z :=
  r <- environment ;; emit (EvCondSignal r) ;; ret r.

Definition pthread_cond_broadcast : M Z :=
  r <- environment ;; emit (EvCondBroadcast r) ;; ret r.

Definition pthread_equal (a b : pthread_t) : bool := (a =? b)%Z.

Definition SL_LOGW (m : LogMsg) : M unit := emit (EvLogW m).
Definition SL_LOGE (m : LogMsg) : M unit := emit (EvLogE m).

(** Modelled from the spec: [interface_lock_exclusive] and
    [interface_unlock_exclusive] on the engine (macros of
    [sles_allinclusive.h], absent here): "acquire the Aggregator's own
    lock", "release the Aggregator's lock". *)
Definition interface_lock_exclusive : M unit := emit EvEngineLock.
Definition interface_unlock_exclusive : M unit := emit EvEngineUnlock.

Definition is_NULL (p : option string) : bool :=
  match p with
  | None => true
  | Some _ => false
  end.

(** ** [object_lock_exclusive] *)

Definition backoffs : list Z := [1; 10000; 20000; 30000; 40000]%Z.

(** The [for (;;)] loop of the debug build, entered with the backoffs from
    [backoffs[i]] on; [++i >= sizeof(backoffs)/sizeof(backoffs[0])] holds
    when none is left. *)
Fixpoint lock_backoff (bs : list Z) (file : option string) (line : Z) : M unit :=
  match bs with
  | [] => ret tt
  | b :: rest =>
      usleep b ;;
      ok <- pthread_mutex_trylock ;;
      if (0 =? ok)%Z then ret tt
      else
        match rest with
        | [] =>
            o <- get_object ;;
            SL_LOGW (was_locked_by file line (mOwner o) (mFile o) (mLine o)) ;;
            ok <- pthread_mutex_lock ;;
            assert (0 =? ok)%Z
        | _ :: _ => lock_backoff rest file line
        end
  end.

(** [object_lock_exclusive_] (USE_DEBUG), called by thread [self]. *)
Definition object_lock_exclusive_ (self : pthread_t) (file : option string)
    (line : Z) : M unit :=
  ok <- pthread_mutex_trylock ;;
  (if negb (0 =? ok)%Z then lock_backoff backoffs file line else ret tt) ;;
  o <- get_object ;;
  (if negb (0 =? mOwner o)%Z then
     (if pthread_equal self (mOwner o) then
        SL_LOGE (was_recursively_locked_by file line (mOwner o) (mFile o) (mLine o))
      else
        SL_LOGE (was_left_unlocked_in_unexpected_state_by file line
                   (mOwner o) (mFile o) (mLine o))) ;;
     assert false
   else ret tt) ;;
  o <- get_object ;;
  put_object (set_debug o self file line).

(** [object_lock_exclusive] (no USE_DEBUG) *)
Definition object_lock_exclusive : M unit :=
  ok <- pthread_mutex_lock ;;
  assert (0 =? ok)%Z.

(** ** [object_unlock_exclusive] *)

(** The three assertions that open the debug variants. *)
Definition assert_owned (self : pthread_t) : M unit :=
  o <- get_object ;;
  assert (pthread_equal self (mOwner o)) ;;
  assert (negb (is_NULL (mFile o))) ;;
  assert (negb (0 =? mLine o)%Z).

(** [memset(&thiz->mOwner, 0, ...); thiz->mFile = file; thiz->mLine = line;] *)
Definition clear_owner (file : option string) (line : Z) : M unit :=
  o <- get_object ;;
  put_object (set_debug o 0%Z file line).

(** [object_unlock_exclusive_] (USE_DEBUG) *)
Definition object_unlock_exclusive_ (self : pthread_t) (file : option string)
    (line : Z) : M unit :=
  assert_owned self ;;
  clear_owner file line ;;
  ok <- pthread_mutex_unlock ;;
  assert (0 =? ok)%Z.

(** [object_unlock_exclusive] (no USE_DEBUG) *)
Definition object_unlock_exclusive : M unit :=
  ok <- pthread_mutex_unlock ;;
  assert (0 =? ok)%Z.

(** ** [object_unlock_exclusive_attributes] *)

Section Attributes.

Variable cfg : Config.

(** Lines 117-126: "make SL object IDs be contiguous with XA object IDs". *)
Definition contiguous_objectID (objectID : unsigned) : M unsigned :=
  if (XA_OBJECTID_ENGINE cfg <=? objectID) && (objectID <=? XA_OBJECTID_CAMERADEVICE cfg)
  then ret objectID
  else if (SL_OBJECTID_ENGINE cfg <=? objectID)
          && (objectID <=? SL_OBJECTID_METADATAEXTRACTOR cfg)
  then ret (usub objectID
              (usub (usub (SL_OBJECTID_ENGINE cfg) (XA_OBJECTID_CAMERADEVICE cfg)) 1))
  else assert false ;; ret 0.

(** The call of [handler] on [thiz], with its place and result in the
    trace. *)
Definition call_handler (objectID bit : unsigned) (handler : AttributeHandler)
    : M unsigned :=
  o <- get_object ;;
  put_object (snd (handler o)) ;;
  emit (EvHandler objectID bit (fst (handler o))) ;;
  ret (fst (handler o)).

(** The body of the [while (attributes)] loop up to the handler call; it
    yields the new value of [asynchronous]. *)
Definition handle_bit (objectID bit asynchronous : unsigned) : M unsigned :=
  emit (EvScan objectID bit) ;;
  assert (bit <? ATTR_INDEX_MAX cfg) ;;
  match handlerTable cfg objectID bit with
  | Some handler =>
      r <- call_handler objectID bit handler ;;
      ret (N.land asynchronous (unot r))
  | None => ret asynchronous
  end.

(** [attributes &= ~(1 << bit)] *)
Definition clear_bit (attributes bit : unsigned) : unsigned :=
  N.land attributes (unot (N.shiftl 1 bit)).

(** Lines 131-142: the [while (attributes)] loop; it yields the final
    value of [asynchronous]. *)
Equations? dispatch_attributes (objectID attributes asynchronous : unsigned)
  : M unsigned by wf (N.to_nat attributes) lt :=
dispatch_attributes objectID N0 asynchronous := ret asynchronous;
dispatch_attributes objectID (Npos p) asynchronous :=
  asynchronous' <- handle_bit objectID (ctz (Npos p)) asynchronous ;;
  dispatch_attributes objectID (clear_bit (Npos p) (ctz (Npos p))) asynchronous'.
Proof.
  change (N.to_nat (clear_bit (Npos p) (ctz (Npos p))) < N.to_nat (Npos p))%nat.
  assert (Hset : forall q, N.testbit (Npos q) (ctz_pos q) = true).
  { induction q as [q IH | q IH |]; cbn [ctz_pos]; try reflexivity.
    change (N.pos q~0) with (2 * N.pos q). now rewrite N.testbit_even_succ'. }
  assert (Hclr : N.testbit (clear_bit (Npos p) (ctz_pos p)) (ctz_pos p) = false).
  { unfold clear_bit, unot, u32. rewrite N.land_spec, N.shiftl_1_l.
    destruct (N.ltb_spec (ctz_pos p) 32) as [Hlt | Hge].
    - rewrite N.lnot_spec_low, N.mod_pow2_bits_low, N.pow2_bits_true by exact Hlt.
      apply andb_false_r.
    - rewrite N.lnot_spec_high, N.mod_pow2_bits_high by exact Hge.
      apply andb_false_r. }
  assert (Hle : clear_bit (Npos p) (ctz_pos p) <= Npos p) by apply N.land_le_l.
  assert (Hne : clear_bit (Npos p) (ctz_pos p) <> Npos p).
  { intro E. rewrite E, Hset in Hclr. discriminate. }
  cbn [ctz]. lia.
Qed.

(** Lines 144-151: "any remaining attributes are handled asynchronously in
    the sync thread"; it yields the new value of [asynchronous]. *)
Definition merge_asynchronous (asynchronous : unsigned) : M unsigned :=
  if negb (asynchronous =? 0) then
    o <- get_object ;;
    let oldAttributesMask := mAttributesMask o in
    put_object (set_mAttributesMask o (N.lor oldAttributesMask asynchronous)) ;;
    if negb (oldAttributesMask =? 0) then ret ATTR_NONE else ret asynchronous
  else ret asynchronous.

(** Lines 161-173: "first update to this interface since previous sync". *)
Definition report_to_engine (asynchronous : unsigned) : M unit :=
  if negb (ATTR_NONE =? asynchronous) then
    o <- get_object ;;
    let id := mInstanceID o in
    if negb (0 =? id) then
      let id := usub id 1 in
      assert (id <? MAX_INSTANCE cfg) ;;
      interface_lock_exclusive ;;
      e <- get_engine ;;
      put_engine (mkIEngine (N.lor (mChangedMask e) (u32 (N.shiftl 1 id)))) ;;
      emit (EvEngineChanged (u32 (N.shiftl 1 id))) ;;
      interface_unlock_exclusive
    else ret tt
  else ret tt.

(** The one body of [object_unlock_exclusive_attributes_] and
    [object_unlock_exclusive_attributes]; [USE_DEBUG] selects the lines under
    [#ifdef USE_DEBUG]. *)
Definition unlock_exclusive_attributes_body (USE_DEBUG : bool) (self : pthread_t)
    (attributes : unsigned) (file : option string) (line : Z) : M unit :=
  (if USE_DEBUG then assert_owned self else ret tt) ;;
  o <- get_object ;;
  objectID <- contiguous_objectID (mObjectID o) ;;
  asynchronous <- dispatch_attributes objectID attributes attributes ;;
  asynchronous <- merge_asynchronous asynchronous ;;
  (if USE_DEBUG then clear_owner file line else ret tt) ;;
  ok <- pthread_mutex_unlock ;;
  assert (0 =? ok)%Z ;;
  report_to_engine asynchronous.

(** [object_unlock_exclusive_attributes_] (USE_DEBUG) *)
Definition object_unlock_exclusive_attributes_ (self : pthread_t)
    (attributes : unsigned) (file : option string) (line : Z) : M unit :=
  unlock_exclusive_attributes_body true self attributes file line.

(** [object_unlock_exclusive_attributes] (no USE_DEBUG) *)
Definition object_unlock_exclusive_attributes (attributes : unsigned) : M unit :=
  unlock_exclusive_attributes_body false 0%Z attributes None 0%Z.

End Attributes.

(** ** The condition variable *)

(** [object_cond_wait_] (USE_DEBUG) *)
Definition object_cond_wait_ (self : pthread_t) (file : option string)
    (line : Z) : M unit :=
  assert_owned self ;;
  clear_owner file line ;;
  ok <- pthread_cond_wait ;;
  assert (0 =? ok)%Z ;;
  o <- get_object ;;
  put_object (set_debug o self file line).

(** [object_cond_wait] (no USE_DEBUG) *)
Definition object_cond_wait : M unit :=
  ok <- pthread_cond_wait ;;
  assert (0 =? ok)%Z.

Definition object_cond_signal : M unit :=
  ok <- pthread_cond_signal ;;
  assert (0 =? ok)%Z.

Definition object_cond_broadcast : M unit :=
  ok <- pthread_cond_broadcast ;;
  assert (0 =? ok)%Z.

(** ** Every entry point of [locks.c] *)

Inductive Call :=
| lock_exclusive_ (self : pthread_t) (file : option string) (line : Z)
| lock_exclusive
| unlock_exclusive_ (self : pthread_t) (file : option string) (line : Z)
| unlock_exclusive
| unlock_exclusive_attributes_ (self : pthread_t) (attributes : unsigned)
    (file : option string) (line : Z)
| unlock_exclusive_attributes (attributes : unsigned)
| cond_wait_ (self : pthread_t) (file : option string) (line : Z)
| cond_wait
| cond_signal
| cond_broadcast.

Definition run (cfg : Config) (c : Call) : M unit :=
  match c with
  | lock_exclusive_ self file line => object_lock_exclusive_ self file line
  | lock_exclusive => object_lock_exclusive
  | unlock_exclusive_ self file line => object_unlock_exclusive_ self file line
  | unlock_exclusive => object_unlock_exclusive
  | unlock_exclusive_attributes_ self attributes file line =>
      object_unlock_exclusive_attributes_ cfg self attributes file line
  | unlock_exclusive_attributes attributes =>
      object_unlock_exclusive_attributes cfg attributes
  | cond_wait_ self file line => object_cond_wait_ self file line
  | cond_wait => object_cond_wait
  | cond_signal => object_cond_signal
  | cond_broadcast => object_cond_broadcast
  end.

(** ** Vocabulary of the statements *)

(** Range A: [XA_OBJECTID_ENGINE .. XA_OBJECTID_CAMERADEVICE]. *)
Definition in_range_A (cfg : Config) (objectID : unsigned) : bool :=
  (XA_OBJECTID_ENGINE cfg <=? objectID) && (objectID <=? XA_OBJECTID_CAMERADEVICE cfg).

(** Range B: [SL_OBJECTID_ENGINE .. SL_OBJECTID_METADATAEXTRACTOR]. *)
Definition in_range_B (cfg : Config) (objectID : unsigned) : bool :=
  (SL_OBJECTID_ENGINE cfg <=? objectID)
  && (objectID <=? SL_OBJECTID_METADATAEXTRACTOR cfg).

Definition valid_category (cfg : Config) (objectID : unsigned) : bool :=
  in_range_A cfg objectID || in_range_B cfg objectID.

(** What the headers promise about their constants: the two ranges are
    non-empty, Range A lies below Range B, object IDs are 32-bit, and both
    attribute indices and instance numbers are bit positions of an
    [unsigned]. *)
Definition headers_ok (cfg : Config) : Prop :=
  XA_OBJECTID_ENGINE cfg <= XA_OBJECTID_CAMERADEVICE cfg
  /\ XA_OBJECTID_CAMERADEVICE cfg < SL_OBJECTID_ENGINE cfg
  /\ SL_OBJECTID_ENGINE cfg <= SL_OBJECTID_METADATAEXTRACTOR cfg
  /\ SL_OBJECTID_METADATAEXTRACTOR cfg < 2 ^ 32
  /\ ATTR_INDEX_MAX cfg <= 32
  /\ MAX_INSTANCE cfg <= 32.

(** The debug record of an object locked by [self]: what the three opening
    assertions of the debug variants check. *)
Definition owned_by (self : pthread_t) (o : IObject) : Prop :=
  mOwner o = self /\ mFile o <> None /\ mLine o <> 0%Z.

(** The primitives all succeed (they return, with code 0) and no other
    thread writes to the object. *)
Definition calm (l : list EnvStep) : Prop :=
  Forall (fun s => ret_code s = 0%Z /\ (forall o, interfere s o = o)
                   /\ returns s = true) l.

(** No other thread changes what [f] reads of the object. *)
Definition env_keeps {T : Type} (f : IObject -> T) (l : list EnvStep) : Prop :=
  Forall (fun s => forall o, f (interfere s o) = f o) l.

(** No handler of the table changes what [f] reads of the object. *)
Definition handlers_keep {T : Type} (cfg : Config) (f : IObject -> T) : Prop :=
  forall objectID bit handler o,
    handlerTable cfg objectID bit = Some handler -> f (snd (handler o)) = f o.

(** The set bits of a 32-bit mask, lowest first, and their number. *)
Definition set_bits (m : unsigned) : list N :=
  filter (N.testbit m) (map N.of_nat (seq 0 32)).

Definition popcount (m : unsigned) : nat := List.length (set_bits m).

(** What a run appended to the trace. *)
Definition new_events (before after : World) : list Event :=
  skipn (List.length (trace before)) (trace after).

(** The bits the loop body ran for, in order. *)
Fixpoint scanned (t : list Event) : list N :=
  match t with
  | [] => []
  | EvScan _ bit :: t' => bit :: scanned t'
  | _ :: t' => scanned t'
  end.

(** The table cells whose handler was called, in order. *)
Fixpoint handler_calls (t : list Event) : list (N * N) :=
  match t with
  | [] => []
  | EvHandler objectID bit _ :: t' => (objectID, bit) :: handler_calls t'
  | _ :: t' => handler_calls t'
  end.

(** The union of the masks the handlers returned. *)
Fixpoint handled (t : list Event) : unsigned :=
  match t with
  | [] => 0
  | EvHandler _ _ r :: t' => N.lor r (handled t')
  | _ :: t' => handled t'
  end.

(** The bits OR'd into the engine's [mChangedMask], one entry per store. *)
Fixpoint notifications (t : list Event) : list N :=
  match t with
  | [] => []
  | EvEngineChanged bits :: t' => bits :: notifications t'
  | _ :: t' => notifications t'
  end.

(** No bit of [old] is missing from [new]. *)
Definition grows (old new : unsigned) : Prop :=
  forall k, N.testbit old k = true -> N.testbit new k = true.

(** The table has a handler in this cell. *)
Definition has_handler (cfg : Config) (objectID bit : unsigned) : bool :=
  match handlerTable cfg objectID bit with
  | Some _ => true
  | None => false
  end.

(** The events of the dispatch loop. *)
Definition loop_event (e : Event) : bool :=
  match e with
  | EvScan _ _ | EvHandler _ _ _ => true
  | _ => false
  end.

(** [object_lock_exclusive] of either build. *)
Definition lock_of (USE_DEBUG : bool) (self : pthread_t) (file : option string)
    (line : Z) : M unit :=
  if USE_DEBUG then object_lock_exclusive_ self file line else object_lock_exclusive.

(** [object_unlock_exclusive] of either build. *)
Definition unlock_of (USE_DEBUG : bool) (self : pthread_t) (file : option string)
    (line : Z) : M unit :=
  if USE_DEBUG then object_unlock_exclusive_ self file line
  else object_unlock_exclusive.

(** Lines 144-173 of [object_unlock_exclusive_attributes]: what follows the
    loop, as a function of the loop's result. *)
Definition after_dispatch (cfg : Config) (USE_DEBUG : bool) (file : option string)
    (line : Z) (asynchronous : unsigned) : M unit :=
  asynchronous <- merge_asynchronous asynchronous ;;
  (if USE_DEBUG then clear_owner file line else ret tt) ;;
  ok <- pthread_mutex_unlock ;;
  assert (0 =? ok)%Z ;;
  report_to_engine cfg asynchronous.

(** The residual mask [A] is not empty and nothing was pending in [o]. *)
Definition first_update (o : IObject) (A : unsigned) : bool :=
  negb (A =? 0) && (mAttributesMask o =? 0).

(** ... and [o] has an instance slot. *)
Definition notified (o : IObject) (A : unsigned) : bool :=
  first_update o A && negb (mInstanceID o =? 0).

(** [1 << (instanceSlot - 1)] *)
Definition instance_bit (o : IObject) : unsigned :=
  N.shiftl 1 (mInstanceID o - 1).

(** The object that a report with residual mask [A] leaves behind. *)
Definition reported_object (USE_DEBUG : bool) (file : option string) (line : Z)
    (o : IObject) (A : unsigned) : IObject :=
  let o' := set_mAttributesMask o (N.lor (mAttributesMask o) A) in
  if USE_DEBUG then set_debug o' 0%Z file line else o'.

(** A call of [object_unlock_exclusive_attributes] that meets the
    assertions on its way: by the thread that holds the lock (what the debug
    build can check of it), on an object of a known class and an instance
    slot within [MAX_INSTANCE], with a mask of attribute bits, while the
    primitives succeed undisturbed. *)
Definition reportable (cfg : Config) (USE_DEBUG : bool) (self : pthread_t)
    (attributes : unsigned) (w : World) : Prop :=
  (USE_DEBUG = true -> owned_by self (object w))
  /\ valid_category cfg (mObjectID (object w)) = true
  /\ attributes < 2 ^ ATTR_INDEX_MAX cfg
  /\ mInstanceID (object w) <= MAX_INSTANCE cfg
  /\ calm (env w).

(** The handlers leave the class, the pending mask and the instance slot of
    the object alone. *)
Definition tame_handlers (cfg : Config) : Prop :=
  handlers_keep cfg mObjectID
  /\ handlers_keep cfg mAttributesMask
  /\ handlers_keep cfg mInstanceID.

(** The events after the loop: the unlock, then the three of a report to
    the engine, if any. *)
Definition closing_events (report : bool) (bit : unsigned) : list Event :=
  EvMutexUnlock 0
  :: (if report then [EvEngineLock; EvEngineChanged bit; EvEngineUnlock] else []).

(** A computation that clears no bit of the object's [mAttributesMask] nor
    of the engine's [mChangedMask], as long as the other threads clear none
    of the former. *)
Definition steady {A : Type} (m : M A) : Prop :=
  forall w, env_keeps mAttributesMask (env w) ->
    grows (mAttributesMask (object w)) (mAttributesMask (object (world_of (m w))))
    /\ grows (mChangedMask (engine w)) (mChangedMask (engine (world_of (m w))))
    /\ env_keeps mAttributesMask (env (world_of (m w))).

(** ** Sample data *)

(** The Khronos object IDs, eight attribute bits and thirty-two instances;
    the audio player (row 13 after [contiguous_objectID]) handles bit 2
    itself. *)
Definition sample_table (objectID bit : unsigned) : option AttributeHandler :=
  if (objectID =? 13) && (bit =? 2) then Some (fun o => (4, o)) else None.

Definition sample_config : Config :=
  mkConfig 1 9 4097 4106 8 32 sample_table.

(** As [sample_config], but the handler of bit 0 returns bits 0 and 1. *)
Definition wide_table (objectID bit : unsigned) : option AttributeHandler :=
  if (objectID =? 13) && (bit =? 0) then Some (fun o => (3, o)) else None.

Definition wide_config : Config :=
  mkConfig 1 9 4097 4106 8 32 wide_table.

(** An audio player in instance slot 3, locked by thread 7 at "play.c":42,
    nothing pending. *)
Definition sample_object : IObject :=
  mkIObject 4100 7%Z (Some "play.c"%string) 42%Z 0 3.

Definition sample_world : World :=
  mkWorld sample_object (mkIEngine 0) [] [].

(** The same object with a class ID outside both ranges. *)
Definition stray_world : World :=
  mkWorld (mkIObject 0 7%Z (Some "play.c"%string) 42%Z 0 3) (mkIEngine 0) [] [].

(** A world in which the lock is contended throughout: every [trylock]
    returns [EBUSY] and the final [pthread_mutex_lock] succeeds. *)
Definition busy : EnvStep := mkEnvStep 16%Z (fun o => o) true.
Definition granted : EnvStep := mkEnvStep 0%Z (fun o => o) true.

Definition contended_world : World :=
  mkWorld sample_object (mkIEngine 0)
    [busy; busy; busy; busy; busy; busy; granted] [].

(** A world in which another thread takes and releases the object while
    this one waits on the condition variable. *)
Definition woken : EnvStep :=
  mkEnvStep 0%Z
    (fun o => set_debug (set_mAttributesMask o 0) 0%Z (Some "sync.c"%string) 9%Z) true.

Definition waiting_world : World :=
  mkWorld sample_object (mkIEngine 0) [woken] [].

(** ** Further vocabulary *)

(** No other thread writes to the object (the primitives may still fail). *)
Definition undisturbed (l : list EnvStep) : Prop :=
  Forall (fun s => forall o, interfere s o = o) l.

Definition is_Ok {A : Type} (r : Result A) : bool :=
  match r with
  | Ok _ _ => true
  | Fatal _ => false
  | Blocked _ => false
  end.

(** Two worlds that differ at most in the debug record of the object. *)
Definition same_but_debug (a b : World) : Prop :=
  mObjectID (object a) = mObjectID (object b)
  /\ mAttributesMask (object a) = mAttributesMask (object b)
  /\ mInstanceID (object a) = mInstanceID (object b)
  /\ engine a = engine b
  /\ env a = env b
  /\ trace a = trace b.

(** An object with attributes pending and an instance slot has its bit set
    in the engine's [mChangedMask]. *)
Definition flagged (w : World) : Prop :=
  mAttributesMask (object w) <> 0 ->
  mInstanceID (object w) <> 0 ->
  N.testbit (mChangedMask (engine w)) (mInstanceID (object w) - 1) = true.

(** The microseconds slept, and the numbers of [pthread_mutex_trylock]
    calls, of [pthread_mutex_lock] calls, of warnings and of errors. *)
Fixpoint slept (t : list Event) : Z :=
  match t with
  | [] => 0
  | EvUsleep us :: t' => us + slept t'
  | _ :: t' => slept t'
  end.

Fixpoint trylocks (t : list Event) : nat :=
  match t with
  | [] => 0
  | EvMutexTrylock _ :: t' => S (trylocks t')
  | _ :: t' => trylocks t'
  end.

Fixpoint blocking_locks (t : list Event) : nat :=
  match t with
  | [] => 0
  | EvMutexLock _ :: t' | EvMutexLockBlocked :: t' => S (blocking_locks t')
  | _ :: t' => blocking_locks t'
  end.

Fixpoint warnings (t : list Event) : nat :=
  match t with
  | [] => 0
  | EvLogW _ :: t' => S (warnings t')
  | _ :: t' => warnings t'
  end.

Fixpoint unlocks (t : list Event) : nat :=
  match t with
  | [] => 0
  | EvMutexUnlock _ :: t' => S (unlocks t')
  | _ :: t' => unlocks t'
  end.

(** What the object looks like after the other threads of [l] have run. *)
Definition interfered (l : list EnvStep) (o : IObject) : IObject :=
  fold_left (fun o' s => interfere s o') l o.

(** The audio player of the samples, unlocked. *)
Definition free_world : World :=
  mkWorld (mkIObject 4100 0%Z None 0%Z 0 3) (mkIEngine 0) [] [].

(** Thread 8 holds the object; it lets go of it while thread 7 is in its
    second backoff. *)
Definition released : EnvStep :=
  mkEnvStep 0%Z (fun o => set_debug o 0%Z (Some "sync.c"%string) 9%Z) true.

Definition held_world : World :=
  mkWorld (mkIObject 4100 8%Z (Some "sync.c"%string) 5%Z 0 3) (mkIEngine 0)
    [busy; busy; released] [].

(** The audio player in an instance slot beyond [MAX_INSTANCE]. *)
Definition crowded_world : World :=
  mkWorld (mkIObject 4100 7%Z (Some "play.c"%string) 42%Z 0 40) (mkIEngine 0) [] [].

(** The return codes that [locks.c] asserts to be zero are those of every
    primitive but [pthread_mutex_trylock]: an event of one of them with
    another code is a failure. *)
Definition failure (e : Event) : bool :=
  match e with
  | EvMutexLock r | EvMutexUnlock r | EvCondWait _ r | EvCondSignal r
  | EvCondBroadcast r => negb (0 =? r)%Z
  | _ => false
  end.

Definition failures (t : list Event) : nat := List.length (filter failure t).

(** A computation that stops at the first failure: what it appends to the
    trace holds no failure, or it ends with the only one and the computation
    did not return. *)
Definition stops_at_failure {A : Type} (m : M A) : Prop :=
  forall w, exists t,
    trace (world_of (m w)) = trace w ++ t
    /\ (failures t = 0%nat
        \/ (is_Ok (m w) = false
            /\ exists pre e, t = pre ++ [e] /\ failures pre = 0%nat /\ failure e = true)).

(** A primitive: it returns its code and leaves one event, a failure when
    the code is not zero; or it does not return, which is no failure. *)
Definition reports_its_code (p : M Z) : Prop :=
  forall w,
    (exists r w1 e,
        p w = Ok r w1 /\ trace w1 = trace w ++ [e] /\ failure e = negb (0 =? r)%Z)
    \/ (exists w1 e,
           p w = Blocked w1 /\ trace w1 = trace w ++ [e] /\ failure e = false).

(** Lines 46-60 of [object_lock_exclusive_]: what follows the acquisition
    of the mutex. *)
Definition after_acquisition (self : pthread_t) (file : option string)
    (line : Z) : M unit :=
  o <- get_object ;;
  (if negb (0 =? mOwner o)%Z then
     (if pthread_equal self (mOwner o) then
        SL_LOGE (was_recursively_locked_by file line (mOwner o) (mFile o) (mLine o))
      else
        SL_LOGE (was_left_unlocked_in_unexpected_state_by file line
                   (mOwner o) (mFile o) (mLine o))) ;;
     assert false
   else ret tt) ;;
  o <- get_object ;;
  put_object (set_debug o self file line).

(** The attempts of the debug lock on the mutex, as its trace shows them,
    from the codes that its [pthread_mutex_trylock] calls returned: the
    first call at once, each further one after the next sleep, of 1, 10000,
    20000, 30000 and 40000 microseconds. *)
Fixpoint retries (sleeps codes : list Z) {struct codes} : list Event :=
  match codes, sleeps with
  | c :: codes', us :: sleeps' =>
      EvUsleep us :: EvMutexTrylock c :: retries sleeps' codes'
  | _, _ => []
  end.

Definition attempts (codes : list Z) : list Event :=
  match codes with
  | [] => []
  | c :: codes' => EvMutexTrylock c :: retries [1; 10000; 20000; 30000; 40000]%Z codes'
  end.

(** The error that names the owner recorded in [o]: "recursively locked"
    when it is the thread [self], "left unlocked in unexpected state" when
    it is another. *)
Definition misuse (self : pthread_t) (file : option string) (line : Z)
    (o : IObject) : LogMsg :=
  if (self =? mOwner o)%Z
  then was_recursively_locked_by file line (mOwner o) (mFile o) (mLine o)
  else was_left_unlocked_in_unexpected_state_by file line
         (mOwner o) (mFile o) (mLine o).

Fixpoint errors (t : list Event) : nat :=
  match t with
  | [] => 0
  | EvLogE _ :: t' => S (errors t')
  | _ :: t' => errors t'
  end.

(** From [w] the run has come to [w']: it has used up the steps [used] of
    the environment and appended [t] to the trace; the object is as the
    other threads of [used] left it, and the engine is untouched. *)
Definition reached (w : World) (used : list EnvStep) (t : list Event)
    (w' : World) : Prop :=
  env w = used ++ env w'
  /\ object w' = interfered used (object w)
  /\ engine w' = engine w
  /\ trace w' = trace w ++ t.

(** The three ways in which the call of [pthread_mutex_lock] that follows
    the warning can end, with its event [e] in the trace and the result [r]
    of the computation: the mutex is granted and the computation goes on
    to [go_on]; the call returns an error and the assertion stops it; the
    call does not return. *)
Definition lock_ends {A : Type} (e : Event) (r go_on : Result A) (w' : World) : Prop :=
  (e = EvMutexLock 0 /\ r = go_on)
  \/ (exists c, c <> 0%Z /\ e = EvMutexLock c /\ r = Fatal w')
  \/ (e = EvMutexLockBlocked /\ r = Blocked w').

(** The mutex is of the default type and thread 7 holds it: every
    [trylock] returns [EBUSY] and [pthread_mutex_lock] does not return. *)
Definition stuck : EnvStep := mkEnvStep 0%Z (fun o => o) false.

Definition deadlocked_world : World :=
  mkWorld sample_object (mkIEngine 0)
    [busy; busy; busy; busy; busy; busy; stuck] [].

(** * Proofs *)

(** ** Bits *)

Lemma unot_spec (x k : N) :
  N.testbit (unot x) k = (k <? 32) && negb (N.testbit x k).
Proof.
  unfold unot, u32. destruct (N.ltb_spec k 32) as [Hlt | Hge].
  - now rewrite N.lnot_spec_low, N.mod_pow2_bits_low.
  - now rewrite N.lnot_spec_high, N.mod_pow2_bits_high.
Qed.

Lemma testbit_above (a n k : N) : a < 2 ^ n -> n <= k -> N.testbit a k = false.
Proof.
  intros Ha Hk. rewrite <- (N.mod_small a (2 ^ n)) by exact Ha.
  now apply N.mod_pow2_bits_high.
Qed.

Lemma u32_small (x : N) : x < 2 ^ 32 -> u32 x = x.
Proof. intros H. unfold u32. now apply N.mod_small. Qed.

Lemma land_unot_lt (a x : N) : N.land a (unot x) < 2 ^ 32.
Proof.
  eapply N.le_lt_trans; [apply N.land_le_r |].
  unfold unot, u32.
  destruct (N.eq_dec (N.lnot (x mod 2 ^ 32) 32) 0) as [E | E]; [rewrite E; reflexivity |].
  apply N.log2_lt_pow2; [lia |].
  destruct (N.lt_ge_cases (N.log2 (N.lnot (x mod 2 ^ 32) 32)) 32) as [H | H]; [exact H |].
  exfalso. pose proof (N.bit_log2 _ E) as Hb.
  rewrite N.lnot_spec_high, N.mod_pow2_bits_high in Hb by exact H. discriminate.
Qed.

Lemma ctz_pos_set (p : positive) : N.testbit (Npos p) (ctz_pos p) = true.
Proof.
  induction p as [p IH | p IH |]; cbn [ctz_pos]; try reflexivity.
  change (N.pos p~0) with (2 * N.pos p). now rewrite N.testbit_even_succ'.
Qed.

Lemma ctz_pos_lowest (p : positive) (k : N) :
  k < ctz_pos p -> N.testbit (Npos p) k = false.
Proof.
  revert k. induction p as [p IH | p IH |]; cbn [ctz_pos]; intros k Hk; try lia.
  destruct (N.eq_dec k 0) as [-> | Hk0]; [reflexivity |].
  replace k with (N.succ (N.pred k)) by lia.
  change (N.pos p~0) with (2 * N.pos p). rewrite N.testbit_even_succ'.
  apply IH. lia.
Qed.

Lemma ctz_pos_lt (p : positive) (n : N) : Npos p < 2 ^ n -> ctz_pos p < n.
Proof.
  intros H. destruct (N.lt_ge_cases (ctz_pos p) n) as [Hlt | Hge]; [exact Hlt |].
  pose proof (testbit_above _ _ _ H Hge) as Hb. rewrite ctz_pos_set in Hb. discriminate.
Qed.

Lemma clear_bit_spec (a b k : N) :
  a < 2 ^ 32 -> N.testbit (clear_bit a b) k = N.testbit a k && negb (k =? b).
Proof.
  intros Ha. unfold clear_bit. rewrite N.land_spec, unot_spec, N.shiftl_1_l, N.pow2_bits_eqb.
  destruct (N.ltb_spec k 32) as [Hlt | Hge].
  - cbn [andb]. now rewrite (N.eqb_sym b k).
  - now rewrite (testbit_above a 32 k Ha Hge).
Qed.

Lemma clear_bit_le (a b : N) : clear_bit a b <= a.
Proof. apply N.land_le_l. Qed.

Lemma filter_none {A : Type} (f : A -> bool) (l : list A) :
  (forall x, In x l -> f x = false) -> filter f l = [].
Proof.
  induction l as [| x l IH]; intros H; [reflexivity |].
  cbn [filter]. rewrite (H x (or_introl eq_refl)). apply IH.
  intros y Hy. apply H. now right.
Qed.

Lemma filter_head {A : Type} (f : A -> bool) (x : A) (l : list A) :
  filter f (x :: l) = if f x then x :: filter f l else filter f l.
Proof. reflexivity. Qed.

Lemma seq_split (n m : nat) :
  (n < m)%nat -> seq 0 m = seq 0 n ++ n :: seq (S n) (m - S n).
Proof.
  intros H. replace m with (n + S (m - S n))%nat at 1 by lia.
  rewrite seq_app. reflexivity.
Qed.

(** The lowest set bit heads the list; the rest is the list of the mask
    with that bit cleared. *)
Lemma set_bits_step (p : positive) :
  Npos p < 2 ^ 32 ->
  set_bits (Npos p) = ctz_pos p :: set_bits (clear_bit (Npos p) (ctz_pos p)).
Proof.
  intros Ha. pose proof (ctz_pos_lt p 32 Ha) as Hc.
  set (c := ctz_pos p) in *. set (a := Npos p) in *.
  assert (Hn : (N.to_nat c < 32)%nat) by lia.
  unfold set_bits. rewrite (seq_split _ _ Hn), !map_app, !filter_app.
  cbn [map filter]. rewrite N2Nat.id.
  rewrite (clear_bit_spec a c c Ha), N.eqb_refl, andb_false_r.
  unfold a at 2, c at 2. rewrite ctz_pos_set. fold a c.
  set (low := map N.of_nat (seq 0 (N.to_nat c))).
  assert (Hlow : forall k, In k low -> k < c).
  { intros k Hk. apply in_map_iff in Hk as (i & <- & Hi). apply in_seq in Hi. lia. }
  rewrite (filter_none (N.testbit a) low), (filter_none (N.testbit (clear_bit a c)) low).
  - cbn [app]. f_equal. apply filter_ext_in. intros k Hk.
    apply in_map_iff in Hk as (i & <- & Hi). apply in_seq in Hi.
    rewrite (clear_bit_spec a c _ Ha).
    replace (N.of_nat i =? c) with false; [now rewrite andb_true_r |].
    symmetry. apply N.eqb_neq. lia.
  - intros k Hk. rewrite (clear_bit_spec a c _ Ha).
    unfold a, c. rewrite ctz_pos_lowest; [reflexivity | now apply Hlow].
  - intros k Hk. unfold a, c. apply ctz_pos_lowest. now apply Hlow.
Qed.

Lemma set_bits_0 : set_bits 0 = [].
Proof. reflexivity. Qed.

(** ** Running the monad *)

Lemma bind_Ok {A B} (m : M A) (k : A -> M B) (w w' : World) (a : A) :
  m w = Ok a w' -> bind m k w = k a w'.
Proof. intros H. unfold bind. now rewrite H. Qed.

Lemma bind_Fatal {A B} (m : M A) (k : A -> M B) (w w' : World) :
  m w = Fatal w' -> bind m k w = Fatal w'.
Proof. intros H. unfold bind. now rewrite H. Qed.

Lemma bind_Blocked {A B} (m : M A) (k : A -> M B) (w w' : World) :
  m w = Blocked w' -> bind m k w = Blocked w'.
Proof. intros H. unfold bind. now rewrite H. Qed.

Lemma calm_tail (s : EnvStep) (l : list EnvStep) : calm (s :: l) -> calm l.
Proof. intros H. now inversion H. Qed.

Lemma environment_calm (w : World) :
  calm (env w) -> environment w = Ok 0%Z (set_env w (tl (env w))).
Proof.
  unfold environment. destruct w as [o e l t]. cbn. intros H.
  destruct l as [| s l]; [reflexivity |].
  inversion H as [| ? ? (Hr & Hi & _) _]; subst. now rewrite Hr, Hi.
Qed.

Lemma wait_calm (w : World) : calm (env w) -> wait_for_mutex w = Ok tt w.
Proof.
  unfold wait_for_mutex. intros H. destruct (env w) as [| s l]; [reflexivity |].
  inversion H as [| ? ? (_ & _ & Hb) _]; subst. now rewrite Hb.
Qed.

Lemma assert_owned_ok (self : pthread_t) (w : World) :
  owned_by self (object w) -> assert_owned self w = Ok tt w.
Proof.
  intros (Ho & Hf & Hl). unfold assert_owned, bind, get_object, assert, pthread_equal.
  rewrite Ho, Z.eqb_refl. destruct (mFile (object w)); [| congruence].
  destruct (Z.eqb_spec 0 (mLine (object w))) as [E | E]; [congruence | reflexivity].
Qed.

Lemma assert_owned_result (self : pthread_t) (w : World) :
  assert_owned self w = Ok tt w \/ assert_owned self w = Fatal w.
Proof.
  unfold assert_owned, bind, get_object, assert.
  destruct (pthread_equal self (mOwner (object w))); [| now right].
  destruct (negb (is_NULL (mFile (object w)))); [| now right].
  destruct (negb (0 =? mLine (object w))%Z); [now left | now right].
Qed.

(** ** The dispatch loop *)

Lemma land_unot_0 (a : N) : a < 2 ^ 32 -> N.land a (unot 0) = a.
Proof.
  intros Ha. apply N.bits_inj. intros k.
  rewrite N.land_spec, unot_spec, N.bits_0.
  destruct (N.ltb_spec k 32) as [Hlt | Hge]; cbn [negb andb].
  - apply andb_true_r.
  - rewrite andb_false_r. symmetry. now apply (testbit_above a 32).
Qed.

Lemma land_unot_lor (a r s : N) :
  N.land (N.land a (unot r)) (unot s) = N.land a (unot (N.lor r s)).
Proof.
  apply N.bits_inj. intros k.
  rewrite !N.land_spec, !unot_spec, N.lor_spec.
  destruct (N.testbit a k), (k <? 32), (N.testbit r k), (N.testbit s k); reflexivity.
Qed.

Lemma clear_bit_ctz_lt (p : positive) :
  clear_bit (Npos p) (ctz_pos p) < Npos p.
Proof.
  pose proof (clear_bit_le (Npos p) (ctz_pos p)) as Hle.
  assert (Hne : clear_bit (Npos p) (ctz_pos p) <> Npos p); [| lia].
  intros E. pose proof (ctz_pos_set p) as Hs. rewrite <- E in Hs at 1.
  unfold clear_bit in Hs.
  rewrite N.land_spec, unot_spec, N.shiftl_1_l, N.pow2_bits_true in Hs.
  rewrite andb_false_r, andb_false_r in Hs. discriminate.
Qed.

Lemma scanned_scan i b t : scanned (EvScan i b :: t) = b :: scanned t.
Proof. reflexivity. Qed.
Lemma scanned_handler i b r t : scanned (EvHandler i b r :: t) = scanned t.
Proof. reflexivity. Qed.
Lemma handled_scan i b t : handled (EvScan i b :: t) = handled t.
Proof. reflexivity. Qed.
Lemma handled_handler i b r t : handled (EvHandler i b r :: t) = N.lor r (handled t).
Proof. reflexivity. Qed.
Lemma handler_calls_scan i b t : handler_calls (EvScan i b :: t) = handler_calls t.
Proof. reflexivity. Qed.
Lemma handler_calls_handler i b r t :
  handler_calls (EvHandler i b r :: t) = (i, b) :: handler_calls t.
Proof. reflexivity. Qed.

Lemma world_eta_app (o o' : IObject) (e : IEngine) (l : list EnvStep)
    (t t1 t2 : list Event) :
  mkWorld o' (engine (mkWorld o e l (t ++ t1))) (env (mkWorld o e l (t ++ t1)))
    (trace (mkWorld o e l (t ++ t1)) ++ t2)
  = mkWorld o' e l (t ++ t1 ++ t2).
Proof. cbn. now rewrite <- app_assoc. Qed.

Section Loop.

Variable cfg : Config.

(** One pass through the loop body, for a bit that is an attribute index. *)
Lemma handle_bit_run (objectID bit a : unsigned) (w : World) :
  bit < ATTR_INDEX_MAX cfg ->
  handle_bit cfg objectID bit a w =
  match handlerTable cfg objectID bit with
  | Some h =>
      Ok (N.land a (unot (fst (h (object w)))))
         (mkWorld (snd (h (object w))) (engine w) (env w)
            (trace w ++ [EvScan objectID bit;
                         EvHandler objectID bit (fst (h (object w)))]))
  | None =>
      Ok a (mkWorld (object w) (engine w) (env w) (trace w ++ [EvScan objectID bit]))
  end.
Proof.
  intros Hb. unfold handle_bit, bind, emit, assert.
  apply N.ltb_lt in Hb. rewrite Hb.
  destruct (handlerTable cfg objectID bit) as [h |]; [| reflexivity].
  unfold call_handler, bind, get_object, put_object, emit, ret, add_event, set_object.
  cbn. now rewrite <- app_assoc.
Qed.

(** The loop as a whole, for a mask whose set bits are all attribute
    indices: it ends, having run its body once for each set bit, lowest
    first; [asynchronous] has lost every bit some handler returned; the
    handlers called are those of the cells of the set bits. *)
Lemma dispatch_ok (objectID : unsigned) :
  ATTR_INDEX_MAX cfg <= 32 ->
  forall attributes, attributes < 2 ^ ATTR_INDEX_MAX cfg ->
  forall a w, a < 2 ^ 32 ->
  exists A o t,
    dispatch_attributes cfg objectID attributes a w
    = Ok A (mkWorld o (engine w) (env w) (trace w ++ t))
    /\ scanned t = set_bits attributes
    /\ A = N.land a (unot (handled t))
    /\ handler_calls t
       = map (pair objectID) (filter (has_handler cfg objectID) (set_bits attributes))
    /\ forallb loop_event t = true
    /\ (forall (T : Type) (f : IObject -> T), handlers_keep cfg f -> f o = f (object w)).
Proof.
  intros Hmax attributes.
  induction attributes as [attributes IH] using (well_founded_induction N.lt_wf_0).
  intros Hattr a w Ha.
  assert (H32 : attributes < 2 ^ 32).
  { eapply N.lt_le_trans; [exact Hattr |]. apply N.pow_le_mono_r; lia. }
  destruct attributes as [| p].
  - exists a, (object w), []. rewrite dispatch_attributes_equation_1.
    unfold ret. rewrite app_nil_r. destruct w; cbn [object engine env trace].
    split; [reflexivity |]. split; [reflexivity |].
    split; [symmetry; now apply land_unot_0 |].
    split; [reflexivity |]. split; reflexivity.
  - rewrite dispatch_attributes_equation_2. cbn [ctz].
    pose proof (ctz_pos_lt p _ Hattr) as Hc.
    pose proof (clear_bit_ctz_lt p) as Hlt.
    unfold bind. rewrite (handle_bit_run _ _ _ _ Hc).
    rewrite (set_bits_step p H32), filter_head. unfold has_handler at 1.
    destruct (handlerTable cfg objectID (ctz_pos p)) as [h |] eqn:Eh.
    + set (r := fst (h (object w))). set (o1 := snd (h (object w))).
      destruct (IH _ Hlt (N.lt_trans _ _ _ Hlt Hattr) (N.land a (unot r))
                  (mkWorld o1 (engine w) (env w)
                     (trace w ++ [EvScan objectID (ctz_pos p);
                                  EvHandler objectID (ctz_pos p) r]))
                  (land_unot_lt a r))
        as (A & o & t & Hrun & Hscan & HA & Hcalls & Hev & Hkeep).
      rewrite world_eta_app in Hrun.
      exists A, o, (EvScan objectID (ctz_pos p) :: EvHandler objectID (ctz_pos p) r :: t).
      split; [exact Hrun |].
      rewrite scanned_scan, scanned_handler, handled_scan, handled_handler,
        handler_calls_scan, handler_calls_handler, map_cons, Hscan, Hcalls, HA, land_unot_lor.
      do 3 (split; [reflexivity |]). split; [exact Hev |].
      intros T f Hf. rewrite (Hkeep T f Hf). unfold o1. now apply (Hf objectID (ctz_pos p)).
    + destruct (IH _ Hlt (N.lt_trans _ _ _ Hlt Hattr) a
                  (mkWorld (object w) (engine w) (env w)
                     (trace w ++ [EvScan objectID (ctz_pos p)])) Ha)
        as (A & o & t & Hrun & Hscan & HA & Hcalls & Hev & Hkeep).
      rewrite world_eta_app in Hrun.
      exists A, o, (EvScan objectID (ctz_pos p) :: t).
      split; [exact Hrun |].
      rewrite scanned_scan, handled_scan, handler_calls_scan, Hscan, Hcalls.
      split; [reflexivity |]. split; [exact HA |].
      split; [reflexivity |]. split; [exact Hev |]. exact Hkeep.
Qed.
End Loop.

(** ** After the loop *)

Lemma usub_1 (id : N) : 0 < id -> id <= 32 -> usub id 1 = id - 1.
Proof.
  intros H0 H32. unfold usub. change (2 ^ 32)%Z with 4294967296%Z.
  rewrite Z.mod_small by lia. lia.
Qed.

Lemma u32_shiftl_1 (k : N) : k < 32 -> u32 (N.shiftl 1 k) = N.shiftl 1 k.
Proof.
  intros H. apply u32_small. rewrite N.shiftl_1_l. apply N.pow_lt_mono_r; lia.
Qed.

Lemma set_mAttributesMask_same (o : IObject) :
  set_mAttributesMask o (mAttributesMask o) = o.
Proof. now destruct o. Qed.

Lemma set_object_same (w : World) : set_object w (object w) = w.
Proof. now destruct w. Qed.

Lemma merge_run (A : unsigned) (w : World) :
  merge_asynchronous A w
  = Ok (if first_update (object w) A then A else 0)
       (set_object w (set_mAttributesMask (object w)
                        (N.lor (mAttributesMask (object w)) A))).
Proof.
  unfold merge_asynchronous, first_update.
  destruct (N.eqb_spec A 0) as [-> | HA]; cbn [negb andb].
  - rewrite N.lor_0_r, set_mAttributesMask_same, set_object_same. reflexivity.
  - unfold bind, get_object, put_object, ret, ATTR_NONE.
    destruct (mAttributesMask (object w) =? 0); reflexivity.
Qed.

Lemma unlock_calm (w : World) :
  calm (env w) ->
  pthread_mutex_unlock w
  = Ok 0%Z (mkWorld (object w) (engine w) (tl (env w)) (trace w ++ [EvMutexUnlock 0])).
Proof.
  intros H. unfold pthread_mutex_unlock.
  rewrite (bind_Ok _ _ _ _ _ (environment_calm w H)). reflexivity.
Qed.

Section Report.

Variable cfg : Config.

Lemma report_run (R : unsigned) (w : World) :
  mInstanceID (object w) <= MAX_INSTANCE cfg -> MAX_INSTANCE cfg <= 32 ->
  report_to_engine cfg R w
  = Ok tt
      (if negb (R =? 0) && negb (mInstanceID (object w) =? 0)
       then mkWorld (object w)
              (mkIEngine (N.lor (mChangedMask (engine w)) (instance_bit (object w))))
              (env w)
              (trace w ++ [EvEngineLock; EvEngineChanged (instance_bit (object w));
                           EvEngineUnlock])
       else w).
Proof.
  intros Hid Hmax. unfold report_to_engine, ATTR_NONE, instance_bit.
  rewrite (N.eqb_sym 0 R).
  destruct (N.eqb_spec R 0) as [-> | HR]; cbn [negb andb]; [reflexivity |].
  unfold bind at 1. unfold get_object.
  rewrite (N.eqb_sym 0 (mInstanceID (object w))).
  destruct (N.eqb_spec (mInstanceID (object w)) 0) as [E | E]; cbn [negb]; [reflexivity |].
  rewrite usub_1, u32_shiftl_1 by lia.
  unfold bind, assert. replace (mInstanceID (object w) - 1 <? MAX_INSTANCE cfg) with true
    by (symmetry; apply N.ltb_lt; lia).
  unfold interface_lock_exclusive, interface_unlock_exclusive, get_engine, put_engine,
    emit, add_event, set_engine.
  cbn [object engine env trace]. now rewrite <- !app_assoc.
Qed.

(** What follows the loop, when the primitives succeed undisturbed. *)
Lemma after_dispatch_calm (dbg : bool) (file : option string) (line : Z)
    (A : unsigned) (w : World) :
  calm (env w) ->
  mInstanceID (object w) <= MAX_INSTANCE cfg -> MAX_INSTANCE cfg <= 32 ->
  after_dispatch cfg dbg file line A w
  = Ok tt
      (mkWorld (reported_object dbg file line (object w) A)
         (if notified (object w) A
          then mkIEngine (N.lor (mChangedMask (engine w)) (instance_bit (object w)))
          else engine w)
         (tl (env w))
         (trace w ++ EvMutexUnlock 0
            :: (if notified (object w) A
                then [EvEngineLock; EvEngineChanged (instance_bit (object w));
                      EvEngineUnlock]
                else []))).
Proof.
  intros Hcalm Hid Hmax. unfold after_dispatch.
  rewrite (bind_Ok _ _ _ _ _ (merge_run A w)).
  set (o2 := set_mAttributesMask _ _).
  set (R := if first_update (object w) A then A else 0).
  assert (HR : negb (R =? 0) = first_update (object w) A).
  { unfold R, first_update.
    destruct (N.eqb_spec A 0) as [-> | HA]; cbn [negb andb]; [reflexivity |].
    destruct (mAttributesMask (object w) =? 0); cbn;
      [now apply N.eqb_neq in HA; rewrite HA | reflexivity]. }
  assert (Hstep : forall o3,
    (ok <- pthread_mutex_unlock ;; assert (0 =? ok)%Z ;; report_to_engine cfg R)
      (set_object w o3)
    = report_to_engine cfg R
        (mkWorld o3 (engine w) (tl (env w)) (trace w ++ [EvMutexUnlock 0]))).
  { intros o3. rewrite (bind_Ok _ _ _ _ _ (unlock_calm (set_object w o3) Hcalm)).
    reflexivity. }
  assert (Hfin : forall o3, mInstanceID o3 = mInstanceID (object w) ->
    report_to_engine cfg R
      (mkWorld o3 (engine w) (tl (env w)) (trace w ++ [EvMutexUnlock 0]))
    = Ok tt
        (mkWorld o3
           (if notified (object w) A
            then mkIEngine (N.lor (mChangedMask (engine w)) (instance_bit (object w)))
            else engine w)
           (tl (env w))
           (trace w ++ EvMutexUnlock 0
              :: (if notified (object w) A
                  then [EvEngineLock; EvEngineChanged (instance_bit (object w));
                        EvEngineUnlock]
                  else [])))).
  { intros o3 E3. rewrite report_run; cbn [object engine env trace]; [| now rewrite E3 | exact Hmax].
    unfold notified, instance_bit. rewrite HR, E3.
    destruct (first_update (object w) A && negb (mInstanceID (object w) =? 0)).
    - now rewrite <- app_assoc.
    - reflexivity. }
  unfold reported_object. fold o2. destruct dbg.
  - rewrite (bind_Ok (clear_owner file line) _ (set_object w o2)
               (set_object w (set_debug o2 0%Z file line)) tt eq_refl).
    rewrite Hstep. apply Hfin. reflexivity.
  - rewrite (bind_Ok (ret tt) _ (set_object w o2) (set_object w o2) tt eq_refl).
    rewrite Hstep. apply Hfin. reflexivity.
Qed.

End Report.

(** ** The whole report *)

Section Whole.

Variable cfg : Config.

Lemma contiguous_result (objectID : unsigned) (w : World) :
  contiguous_objectID cfg objectID w
  = if in_range_A cfg objectID then Ok objectID w
    else if in_range_B cfg objectID
         then Ok (usub objectID
                    (usub (usub (SL_OBJECTID_ENGINE cfg) (XA_OBJECTID_CAMERADEVICE cfg)) 1)) w
         else Fatal w.
Proof.
  unfold contiguous_objectID, in_range_A, in_range_B.
  destruct (_ && _); [reflexivity |]. destruct (_ && _); reflexivity.
Qed.

Lemma contiguous_valid (objectID : unsigned) :
  valid_category cfg objectID = true ->
  exists row, forall w, contiguous_objectID cfg objectID w = Ok row w.
Proof.
  unfold valid_category. intros H.
  destruct (in_range_A cfg objectID) eqn:EA.
  - exists objectID. intros w. now rewrite contiguous_result, EA.
  - cbn in H. eexists. intros w. rewrite contiguous_result, EA, H. reflexivity.
Qed.

Lemma body_after_dispatch (dbg : bool) (self : pthread_t) (M : unsigned)
    (file : option string) (line : Z) :
  unlock_exclusive_attributes_body cfg dbg self M file line
  = ((if dbg then assert_owned self else ret tt) ;;
     o <- get_object ;;
     objectID <- contiguous_objectID cfg (mObjectID o) ;;
     asynchronous <- dispatch_attributes cfg objectID M M ;;
     after_dispatch cfg dbg file line asynchronous).
Proof. reflexivity. Qed.

(** The report of a well-formed call in a calm world, in closed form. *)
Lemma report_spec (dbg : bool) (self : pthread_t) (M : unsigned)
    (file : option string) (line : Z) (w : World) :
  ATTR_INDEX_MAX cfg <= 32 -> MAX_INSTANCE cfg <= 32 ->
  (dbg = true -> owned_by self (object w)) ->
  valid_category cfg (mObjectID (object w)) = true ->
  M < 2 ^ ATTR_INDEX_MAX cfg ->
  calm (env w) ->
  handlers_keep cfg mInstanceID ->
  mInstanceID (object w) <= MAX_INSTANCE cfg ->
  exists row A o1 t,
    (forall w0, contiguous_objectID cfg (mObjectID (object w)) w0 = Ok row w0)
    /\ scanned t = set_bits M
    /\ A = N.land M (unot (handled t))
    /\ handler_calls t = map (pair row) (filter (has_handler cfg row) (set_bits M))
    /\ forallb loop_event t = true
    /\ (forall (T : Type) (f : IObject -> T), handlers_keep cfg f -> f o1 = f (object w))
    /\ unlock_exclusive_attributes_body cfg dbg self M file line w
       = Ok tt
           (mkWorld (reported_object dbg file line o1 A)
              (if notified o1 A
               then mkIEngine (N.lor (mChangedMask (engine w)) (instance_bit o1))
               else engine w)
              (tl (env w))
              (trace w ++ t ++ EvMutexUnlock 0
                 :: (if notified o1 A
                     then [EvEngineLock; EvEngineChanged (instance_bit o1); EvEngineUnlock]
                     else []))).
Proof.
  intros Hattr Hinst Hown Hcat HM Hcalm Hkid Hid.
  destruct (contiguous_valid _ Hcat) as (row & Hrow).
  assert (H32 : M < 2 ^ 32).
  { eapply N.lt_le_trans; [exact HM |]. apply N.pow_le_mono_r; lia. }
  destruct (dispatch_ok cfg row Hattr M HM M w H32)
    as (A & o1 & t & Hrun & Hscan & HA & Hcalls & Hev & Hkeep).
  exists row, A, o1, t.
  do 6 (split; [assumption |]).
  rewrite body_after_dispatch.
  assert (Hpre : (if dbg then assert_owned self else ret tt) w = Ok tt w).
  { destruct dbg; [apply assert_owned_ok; now apply Hown | reflexivity]. }
  rewrite (bind_Ok _ _ _ _ _ Hpre).
  rewrite (bind_Ok get_object _ w w (object w) eq_refl).
  rewrite (bind_Ok _ _ _ _ _ (Hrow w)).
  rewrite (bind_Ok _ _ _ _ _ Hrun).
  rewrite after_dispatch_calm; cbn [object engine env trace].
  - now rewrite <- app_assoc.
  - exact Hcalm.
  - now rewrite (Hkeep _ mInstanceID Hkid).
  - exact Hinst.
Qed.

End Whole.

(** ** Reading the trace *)

Lemma new_events_app (w w' : World) (t : list Event) :
  trace w' = trace w ++ t -> new_events w w' = t.
Proof.
  intros E. unfold new_events. rewrite E, skipn_app, skipn_all, Nat.sub_diag.
  reflexivity.
Qed.

Lemma handled_app (t1 t2 : list Event) :
  handled (t1 ++ t2) = N.lor (handled t1) (handled t2).
Proof.
  induction t1 as [| e t1 IH]; [reflexivity |].
  destruct e; cbn [app handled]; try exact IH.
  now rewrite IH, N.lor_assoc.
Qed.

Lemma scanned_app (t1 t2 : list Event) :
  scanned (t1 ++ t2) = scanned t1 ++ scanned t2.
Proof.
  induction t1 as [| e t1 IH]; [reflexivity |].
  destruct e; cbn [app scanned]; try exact IH. now rewrite IH.
Qed.

Lemma handler_calls_app (t1 t2 : list Event) :
  handler_calls (t1 ++ t2) = handler_calls t1 ++ handler_calls t2.
Proof.
  induction t1 as [| e t1 IH]; [reflexivity |].
  destruct e; cbn [app handler_calls]; try exact IH. now rewrite IH.
Qed.

Lemma notifications_app (t1 t2 : list Event) :
  notifications (t1 ++ t2) = notifications t1 ++ notifications t2.
Proof.
  induction t1 as [| e t1 IH]; [reflexivity |].
  destruct e; cbn [app notifications]; try exact IH. now rewrite IH.
Qed.

Lemma notifications_loop (t : list Event) :
  forallb loop_event t = true -> notifications t = [].
Proof.
  induction t as [| e t IH]; [reflexivity |].
  cbn [forallb]. intros H. apply andb_true_iff in H as [He Ht].
  destruct e; try discriminate; cbn [notifications]; now apply IH.
Qed.

Lemma closing_events_read (report : bool) (bit : unsigned) :
  handled (closing_events report bit) = 0
  /\ scanned (closing_events report bit) = []
  /\ handler_calls (closing_events report bit) = []
  /\ notifications (closing_events report bit) = if report then [bit] else [].
Proof. destruct report; repeat split. Qed.

(** ** The set bits of a mask *)

Lemma positions_sorted (a n : nat) :
  StronglySorted N.lt (map N.of_nat (seq a n)).
Proof.
  revert a. induction n as [| n IH]; intros a; cbn [seq map]; constructor.
  - apply IH.
  - apply Forall_forall. intros k Hk.
    apply in_map_iff in Hk as (i & <- & Hi). apply in_seq in Hi. lia.
Qed.

Lemma filter_sorted (f : N -> bool) (l : list N) :
  StronglySorted N.lt l -> StronglySorted N.lt (filter f l).
Proof.
  induction 1 as [| x l Hl IH Hx]; cbn [filter]; [constructor |].
  destruct (f x); [| exact IH]. constructor; [exact IH |].
  apply Forall_forall. intros y Hy. apply filter_In in Hy as [Hy _].
  revert y Hy. now apply Forall_forall.
Qed.

Lemma set_bits_sorted (m : unsigned) : StronglySorted N.lt (set_bits m).
Proof. apply filter_sorted, positions_sorted. Qed.

Lemma set_bits_In (m : unsigned) (k : N) :
  m < 2 ^ 32 -> (In k (set_bits m) <-> N.testbit m k = true).
Proof.
  intros Hm. unfold set_bits. rewrite filter_In, in_map_iff. split.
  - now intros [_ H].
  - intros H. split; [| exact H].
    exists (N.to_nat k). split; [apply N2Nat.id |]. apply in_seq.
    destruct (N.lt_ge_cases k 32) as [Hlt | Hge]; [lia |].
    rewrite (testbit_above m 32 k Hm Hge) in H. discriminate.
Qed.

Lemma sorted_NoDup (l : list N) : StronglySorted N.lt l -> NoDup l.
Proof.
  induction 1 as [| x l Hl IH Hx]; constructor; [| exact IH].
  intros Hin. rewrite Forall_forall in Hx. specialize (Hx x Hin). lia.
Qed.

Lemma handler_cells_NoDup (f : N -> bool) (row m : unsigned) :
  NoDup (map (pair row) (filter f (set_bits m))).
Proof.
  apply NoDup_map_NoDup_ForallPairs.
  - intros x y _ _ E. now inversion E.
  - apply NoDup_filter, sorted_NoDup, set_bits_sorted.
Qed.

(** ** The outcome of a report *)

Lemma report_outcome (cfg : Config) (dbg : bool) (self : pthread_t) (M : unsigned)
    (file : option string) (line : Z) (w : World) :
  headers_ok cfg -> tame_handlers cfg -> reportable cfg dbg self M w ->
  exists row t w',
    unlock_exclusive_attributes_body cfg dbg self M file line w = Ok tt w'
    /\ (forall w0, contiguous_objectID cfg (mObjectID (object w)) w0 = Ok row w0)
    /\ new_events w w'
       = t ++ closing_events (notified (object w) (N.land M (unot (handled t))))
                (instance_bit (object w))
    /\ trace w' = trace w ++ new_events w w'
    /\ scanned t = set_bits M
    /\ handler_calls t = map (pair row) (filter (has_handler cfg row) (set_bits M))
    /\ forallb loop_event t = true
    /\ mAttributesMask (object w')
       = N.lor (mAttributesMask (object w)) (N.land M (unot (handled t)))
    /\ mObjectID (object w') = mObjectID (object w)
    /\ mInstanceID (object w') = mInstanceID (object w)
    /\ (dbg = true ->
        mOwner (object w') = 0%Z /\ mFile (object w') = file /\ mLine (object w') = line)
    /\ engine w'
       = (if notified (object w) (N.land M (unot (handled t)))
          then mkIEngine (N.lor (mChangedMask (engine w)) (instance_bit (object w)))
          else engine w)
    /\ env w' = tl (env w).
Proof.
  intros (_ & _ & _ & _ & Hattr & Hinst) (Hkobj & Hkmask & Hkid)
    (Hown & Hcat & HM & Hid & Hcalm).
  destruct (report_spec cfg dbg self M file line w Hattr Hinst Hown Hcat HM Hcalm Hkid Hid)
    as (row & A & o1 & t & Hrow & Hscan & HA & Hcalls & Hev & Hkeep & Hrun).
  assert (Hn : notified o1 A = notified (object w) A).
  { unfold notified, first_update.
    now rewrite (Hkeep _ mAttributesMask Hkmask), (Hkeep _ mInstanceID Hkid). }
  assert (Hb : instance_bit o1 = instance_bit (object w)).
  { unfold instance_bit. now rewrite (Hkeep _ mInstanceID Hkid). }
  rewrite Hn, Hb in Hrun. subst A.
  eexists row, t, _. split; [exact Hrun |]. cbn [object engine env trace].
  fold (closing_events (notified (object w) (N.land M (unot (handled t))))
          (instance_bit (object w))).
  assert (Hnew : new_events w
            (mkWorld (reported_object dbg file line o1 (N.land M (unot (handled t))))
               (if notified (object w) (N.land M (unot (handled t)))
                then mkIEngine (N.lor (mChangedMask (engine w)) (instance_bit (object w)))
                else engine w)
               (tl (env w))
               (trace w ++ t ++ closing_events
                  (notified (object w) (N.land M (unot (handled t))))
                  (instance_bit (object w))))
          = t ++ closing_events (notified (object w) (N.land M (unot (handled t))))
                   (instance_bit (object w))).
  { now apply new_events_app. }
  rewrite Hnew.
  split; [exact Hrow |]. split; [reflexivity |]. split; [reflexivity |].
  split; [exact Hscan |]. split; [exact Hcalls |]. split; [exact Hev |].
  split; [| split; [| split; [| split; [| split; reflexivity]]]].
  - rewrite <- (Hkeep _ mAttributesMask Hkmask). now destruct dbg.
  - rewrite <- (Hkeep _ mObjectID Hkobj). now destruct dbg.
  - rewrite <- (Hkeep _ mInstanceID Hkid). now destruct dbg.
  - intros ->. repeat split.
Qed.

Lemma lor_land_unot (M H : N) :
  M < 2 ^ 32 -> N.lor (N.land M H) (N.land M (unot H)) = M.
Proof.
  intros HM. apply N.bits_inj. intros k.
  rewrite N.lor_spec, !N.land_spec, unot_spec.
  destruct (N.ltb_spec k 32) as [Hlt | Hge].
  - destruct (N.testbit M k), (N.testbit H k); reflexivity.
  - rewrite (testbit_above M 32 k HM Hge). reflexivity.
Qed.

Lemma land_land_unot (M H : N) : N.land (N.land M H) (N.land M (unot H)) = 0.
Proof.
  apply N.bits_inj. intros k.
  rewrite !N.land_spec, unot_spec, N.bits_0.
  destruct (N.testbit M k), (N.testbit H k), (k <? 32); reflexivity.
Qed.

Lemma attribute_mask_32 (cfg : Config) (M : unsigned) :
  headers_ok cfg -> M < 2 ^ ATTR_INDEX_MAX cfg -> M < 2 ^ 32.
Proof.
  intros (_ & _ & _ & _ & Hattr & _) HM.
  eapply N.lt_le_trans; [exact HM |]. apply N.pow_le_mono_r; lia.
Qed.

(** C1: for every attribute mask [M] reported by the thread that holds the
    lock, the report ends; with [H] the union of the masks the handlers
    returned, the bits it merged into [mAttributesMask] are [M & ~H], the
    bits the handlers cleared from the working mask are [M & H], and the
    two make up [M] exactly, sharing no bit. *)
Theorem report_partitions_mask (cfg : Config) (dbg : bool) (self : pthread_t)
    (M : unsigned) (file : option string) (line : Z) (w : World) :
  headers_ok cfg -> tame_handlers cfg -> reportable cfg dbg self M w ->
  exists w',
    unlock_exclusive_attributes_body cfg dbg self M file line w = Ok tt w'
    /\ let H := handled (new_events w w') in
       let synchronous := N.land M H in
       let asynchronous := N.land M (unot H) in
       mAttributesMask (object w') = N.lor (mAttributesMask (object w)) asynchronous
       /\ N.lor synchronous asynchronous = M
       /\ N.land synchronous asynchronous = 0.
Proof.
  intros Hcfg Htame Hcall.
  destruct (report_outcome cfg dbg self M file line w Hcfg Htame Hcall)
    as (row & t & w' & Hrun & _ & Hnew & _ & _ & _ & _ & Hmask & _).
  exists w'. split; [exact Hrun |]. cbn zeta.
  assert (HH : handled (new_events w w') = handled t).
  { rewrite Hnew, handled_app.
    destruct (closing_events_read (notified (object w) (N.land M (unot (handled t))))
                (instance_bit (object w))) as (-> & _).
    apply N.lor_0_r. }
  rewrite HH. split; [exact Hmask |]. split.
  - apply lor_land_unot. destruct Hcall as (_ & _ & HM & _).
    now apply (attribute_mask_32 cfg).
  - apply land_land_unot.
Qed.

(** C4: once the object's mutex is unlocked, if the residual mask [A] is
    not empty, nothing was pending before and the instance slot is not
    zero, the report locks the engine, ORs the single bit
    [1 << (mInstanceID - 1)] into [mChangedMask] and unlocks the engine,
    and does nothing else; in every other case the unlock is its last
    action and the engine is as it was. *)
Theorem engine_told_after_unlock (cfg : Config) (dbg : bool) (self : pthread_t)
    (M : unsigned) (file : option string) (line : Z) (w : World) :
  headers_ok cfg -> tame_handlers cfg -> reportable cfg dbg self M w ->
  exists t w',
    unlock_exclusive_attributes_body cfg dbg self M file line w = Ok tt w'
    /\ forallb loop_event t = true
    /\ let A := N.land M (unot (handled t)) in
       let bit := N.shiftl 1 (mInstanceID (object w) - 1) in
       if negb (A =? 0) && (mAttributesMask (object w) =? 0)
          && negb (mInstanceID (object w) =? 0)
       then new_events w w'
            = t ++ [EvMutexUnlock 0; EvEngineLock; EvEngineChanged bit; EvEngineUnlock]
            /\ mChangedMask (engine w') = N.lor (mChangedMask (engine w)) bit
            /\ (forall k, N.testbit bit k = (k =? mInstanceID (object w) - 1))
       else new_events w w' = t ++ [EvMutexUnlock 0]
            /\ engine w' = engine w.
Proof.
  intros Hcfg Htame Hcall.
  destruct (report_outcome cfg dbg self M file line w Hcfg Htame Hcall)
    as (row & t & w' & Hrun & _ & Hnew & _ & _ & _ & Hev & _ & _ & _ & _ & Heng & _).
  exists t, w'. split; [exact Hrun |]. split; [exact Hev |]. cbn zeta.
  unfold notified, first_update, closing_events, instance_bit in Hnew, Heng.
  destruct (negb (N.land M (unot (handled t)) =? 0) && (mAttributesMask (object w) =? 0)
            && negb (mInstanceID (object w) =? 0)).
  - split; [exact Hnew |]. split; [now rewrite Heng |].
    intros k. rewrite N.shiftl_1_l, N.pow2_bits_eqb. apply N.eqb_sym.
  - split; assumption.
Qed.

(** C5: for every mask of attribute bits the loop ends, and its body has
    run exactly once for each set bit of the mask, lowest bit first: the
    bits it ran for are the set bits in ascending order, as many as the
    mask has set bits, none twice; the handlers called are those of the
    cells of these bits, none twice. *)
Theorem dispatch_runs_once_per_set_bit (cfg : Config) (objectID M : unsigned)
    (w : World) :
  ATTR_INDEX_MAX cfg <= 32 -> M < 2 ^ ATTR_INDEX_MAX cfg ->
  exists A w',
    dispatch_attributes cfg objectID M M w = Ok A w'
    /\ let bits := scanned (new_events w w') in
       bits = set_bits M
       /\ List.length bits = popcount M
       /\ StronglySorted N.lt bits
       /\ NoDup bits
       /\ (forall k, In k bits <-> N.testbit M k = true)
       /\ handler_calls (new_events w w')
          = map (pair objectID) (filter (has_handler cfg objectID) bits)
       /\ NoDup (handler_calls (new_events w w')).
Proof.
  intros Hattr HM.
  assert (H32 : M < 2 ^ 32).
  { eapply N.lt_le_trans; [exact HM |]. apply N.pow_le_mono_r; lia. }
  destruct (dispatch_ok cfg objectID Hattr M HM M w H32)
    as (A & o & t & Hrun & Hscan & _ & Hcalls & _ & _).
  eexists A, _. split; [exact Hrun |]. cbn zeta.
  rewrite (new_events_app w (mkWorld o (engine w) (env w) (trace w ++ t)) t eq_refl).
  rewrite Hscan, Hcalls.
  split; [reflexivity |]. split; [unfold popcount; reflexivity |].
  split; [apply set_bits_sorted |].
  split; [apply sorted_NoDup, set_bits_sorted |].
  split; [intros k; now apply set_bits_In |].
  split; [reflexivity |]. apply handler_cells_NoDup.
Qed.

(** C9: the loop takes from [asynchronous] the whole mask a handler
    returns, while [attributes] loses the scanned bit only.  One pass with
    a handler [h] goes on with [asynchronous & ~h(thiz)] and
    [attributes & ~(1 << bit)]; so in a whole report every set bit of [M]
    is still scanned, every bit that any handler returned is kept out of
    what is merged into [mAttributesMask], and when nothing is left the
    engine is not told. *)
Theorem handler_result_applied_whole (cfg : Config) (dbg : bool) (self : pthread_t)
    (M : unsigned) (file : option string) (line : Z) (w : World) :
  headers_ok cfg -> tame_handlers cfg -> reportable cfg dbg self M w ->
  (forall objectID p a h w0,
      ctz (Npos p) < ATTR_INDEX_MAX cfg ->
      handlerTable cfg objectID (ctz (Npos p)) = Some h ->
      dispatch_attributes cfg objectID (Npos p) a w0
      = dispatch_attributes cfg objectID (clear_bit (Npos p) (ctz (Npos p)))
          (N.land a (unot (fst (h (object w0)))))
          (mkWorld (snd (h (object w0))) (engine w0) (env w0)
             (trace w0 ++ [EvScan objectID (ctz (Npos p));
                           EvHandler objectID (ctz (Npos p)) (fst (h (object w0)))])))
  /\ exists w',
       unlock_exclusive_attributes_body cfg dbg self M file line w = Ok tt w'
       /\ let R := handled (new_events w w') in
          scanned (new_events w w') = set_bits M
          /\ mAttributesMask (object w')
             = N.lor (mAttributesMask (object w)) (N.land M (unot R))
          /\ (forall k, N.testbit R k = true ->
                N.testbit (mAttributesMask (object w')) k
                = N.testbit (mAttributesMask (object w)) k)
          /\ (N.land M (unot R) = 0 ->
              engine w' = engine w /\ notifications (new_events w w') = []).
Proof.
  intros Hcfg Htame Hcall. split.
  - intros objectID p a h w0 Hbit Hh.
    rewrite dispatch_attributes_equation_2. unfold bind.
    now rewrite (handle_bit_run cfg _ _ _ _ Hbit), Hh.
  - destruct (report_outcome cfg dbg self M file line w Hcfg Htame Hcall)
      as (row & t & w' & Hrun & _ & Hnew & _ & Hscan & _ & Hev & Hmask & _ & _ & _ & Heng & _).
    exists w'. split; [exact Hrun |]. cbn zeta.
    destruct (closing_events_read (notified (object w) (N.land M (unot (handled t))))
                (instance_bit (object w))) as (Hc1 & Hc2 & _ & Hc4).
    assert (HH : handled (new_events w w') = handled t).
    { rewrite Hnew, handled_app, Hc1. apply N.lor_0_r. }
    rewrite HH. split; [| split; [exact Hmask | split]].
    + rewrite Hnew, scanned_app, Hc2, app_nil_r. exact Hscan.
    + intros k Hk. rewrite Hmask, N.lor_spec, N.land_spec, unot_spec, Hk.
      cbn [negb]. now rewrite andb_false_r, andb_false_r, orb_false_r.
    + intros H0. rewrite Heng, Hnew, notifications_app, Hc4, (notifications_loop t Hev).
      unfold notified, first_update. rewrite H0. cbn [N.eqb negb andb]. now split.
Qed.

(** ** Categories *)

Lemma usub_exact (a b : N) : b <= a -> a < 2 ^ 32 -> usub a b = a - b.
Proof.
  intros Hle Ha. unfold usub. change (2 ^ 32)%Z with 4294967296%Z.
  change (2 ^ 32) with 4294967296 in Ha.
  rewrite Z.mod_small by lia. lia.
Qed.

Lemma stray_category_is_fatal (cfg : Config) (dbg : bool) (self : pthread_t)
    (M : unsigned) (file : option string) (line : Z) (w : World) :
  valid_category cfg (mObjectID (object w)) = false ->
  unlock_exclusive_attributes_body cfg dbg self M file line w = Fatal w.
Proof.
  intros H. apply orb_false_iff in H as [HA HB].
  rewrite body_after_dispatch.
  assert (Hcat : contiguous_objectID cfg (mObjectID (object w)) w = Fatal w).
  { now rewrite contiguous_result, HA, HB. }
  assert (Hrest : (o <- get_object ;;
                   objectID <- contiguous_objectID cfg (mObjectID o) ;;
                   asynchronous <- dispatch_attributes cfg objectID M M ;;
                   after_dispatch cfg dbg file line asynchronous) w = Fatal w).
  { rewrite (bind_Ok get_object _ w w (object w) eq_refl). now apply bind_Fatal. }
  destruct dbg.
  - destruct (assert_owned_result self w) as [E | E].
    + now rewrite (bind_Ok _ _ _ _ _ E).
    + now apply bind_Fatal.
  - now rewrite (bind_Ok (ret tt) _ w w tt eq_refl).
Qed.

(** C3: [contiguous_objectID] leaves an XA object ID as it is, takes
    [SL_OBJECTID_ENGINE - XA_OBJECTID_CAMERADEVICE - 1] off an SL object ID,
    so that [SL_OBJECTID_ENGINE] lands right after
    [XA_OBJECTID_CAMERADEVICE] and the SL range follows on without a gap,
    and stops with a failed assertion on every other ID; the report of an
    object of such a class stops there, before any table cell is looked at. *)
Theorem categories_made_contiguous (cfg : Config) (objectID : unsigned) (w : World) :
  headers_ok cfg ->
  (in_range_A cfg objectID = true ->
   contiguous_objectID cfg objectID w = Ok objectID w)
  /\ (in_range_B cfg objectID = true ->
      contiguous_objectID cfg objectID w
      = Ok (objectID - (SL_OBJECTID_ENGINE cfg - XA_OBJECTID_CAMERADEVICE cfg - 1)) w
      /\ objectID - (SL_OBJECTID_ENGINE cfg - XA_OBJECTID_CAMERADEVICE cfg - 1)
         = XA_OBJECTID_CAMERADEVICE cfg + 1 + (objectID - SL_OBJECTID_ENGINE cfg)
      /\ objectID - SL_OBJECTID_ENGINE cfg
         <= SL_OBJECTID_METADATAEXTRACTOR cfg - SL_OBJECTID_ENGINE cfg)
  /\ (valid_category cfg objectID = false ->
      contiguous_objectID cfg objectID w = Fatal w
      /\ forall dbg self M file line,
           mObjectID (object w) = objectID ->
           unlock_exclusive_attributes_body cfg dbg self M file line w = Fatal w).
Proof.
  intros (H1 & H2 & H3 & H4 & _). split; [| split].
  - intros HA. now rewrite contiguous_result, HA.
  - intros HB. pose proof HB as HB'. unfold in_range_B in HB'.
    apply andb_true_iff in HB' as [Hlo Hhi].
    apply N.leb_le in Hlo, Hhi.
    assert (HA : in_range_A cfg objectID = false).
    { unfold in_range_A. apply andb_false_iff. right. apply N.leb_gt. lia. }
    change (2 ^ 32) with 4294967296 in H4.
    rewrite contiguous_result, HA, HB.
    rewrite (usub_exact (SL_OBJECTID_ENGINE cfg) (XA_OBJECTID_CAMERADEVICE cfg))
      by (change (2 ^ 32) with 4294967296; lia).
    rewrite (usub_exact _ 1) by (change (2 ^ 32) with 4294967296; lia).
    rewrite usub_exact by (change (2 ^ 32) with 4294967296; lia).
    split; [reflexivity |]. lia.
  - intros Hv. split.
    + apply orb_false_iff in Hv as [HA HB]. now rewrite contiguous_result, HA, HB.
    + intros dbg self M file line E. apply stray_category_is_fatal. now rewrite E.
Qed.

(** ** The empty report *)

Lemma assert_then_ret (b : bool) (w : World) :
  (assert b ;; ret tt) w = assert b w.
Proof. unfold bind, assert, ret. now destruct b. Qed.

Lemma after_dispatch_0 (cfg : Config) (dbg : bool) (file : option string)
    (line : Z) (w : World) :
  after_dispatch cfg dbg file line 0 w
  = ((if dbg then clear_owner file line else ret tt) ;;
     ok <- pthread_mutex_unlock ;;
     assert (0 =? ok)%Z) w.
Proof.
  unfold after_dispatch.
  rewrite (bind_Ok (merge_asynchronous 0) _ w w 0 eq_refl).
  unfold bind.
  destruct ((if dbg then clear_owner file line else ret tt) w) as [[] w1 | w1 | w1];
    [| reflexivity | reflexivity].
  destruct (pthread_mutex_unlock w1) as [ok w2 | w2 | w2]; [| reflexivity | reflexivity].
  exact (assert_then_ret (0 =? ok)%Z w2).
Qed.

(** C10, as amended: on an object whose class ID lies in one of the two
    ranges, the report of the empty mask is the plain unlock of the same
    build: the same result in the same world, whatever the primitives
    return. *)
Theorem empty_report_is_unlock (cfg : Config) (dbg : bool) (self : pthread_t)
    (file : option string) (line : Z) (w : World) :
  valid_category cfg (mObjectID (object w)) = true ->
  unlock_exclusive_attributes_body cfg dbg self 0 file line w
  = unlock_of dbg self file line w.
Proof.
  intros Hcat. destruct (contiguous_valid cfg _ Hcat) as (row & Hrow).
  rewrite body_after_dispatch.
  assert (Hrest : forall w0, object w0 = object w ->
            (o <- get_object ;;
             objectID <- contiguous_objectID cfg (mObjectID o) ;;
             asynchronous <- dispatch_attributes cfg objectID 0 0 ;;
             after_dispatch cfg dbg file line asynchronous) w0
            = ((if dbg then clear_owner file line else ret tt) ;;
               ok <- pthread_mutex_unlock ;;
               assert (0 =? ok)%Z) w0).
  { intros w0 E. rewrite (bind_Ok get_object _ w0 w0 (object w0) eq_refl), E.
    rewrite (bind_Ok _ _ _ _ _ (Hrow w0)).
    rewrite dispatch_attributes_equation_1.
    rewrite (bind_Ok (ret 0) _ w0 w0 0 eq_refl).
    apply after_dispatch_0. }
  destruct dbg; unfold unlock_of.
  - unfold object_unlock_exclusive_.
    destruct (assert_owned_result self w) as [E | E].
    + rewrite !(bind_Ok _ _ _ _ _ E). now apply Hrest.
    + now rewrite !(bind_Fatal _ _ _ _ E).
  - rewrite (bind_Ok (ret tt) _ w w tt eq_refl). rewrite (Hrest w eq_refl).
    now rewrite (bind_Ok (ret tt) _ w w tt eq_refl).
Qed.

(** C10, as stated, fails: on an object whose class ID is in neither
    range, the report of the empty mask stops at the failed assertion with
    the mutex still locked, where the plain unlock unlocks it. *)
Lemma empty_report_is_not_unlock_on_stray :
  object_unlock_exclusive_attributes_ sample_config 7%Z 0
    (Some "stop.c"%string) 10%Z stray_world
  = Fatal stray_world
  /\ object_unlock_exclusive_ 7%Z (Some "stop.c"%string) 10%Z stray_world
     = Ok tt (mkWorld (mkIObject 0 0%Z (Some "stop.c"%string) 10%Z 0 3)
                (mkIEngine 0) [] [EvMutexUnlock 0]).
Proof. split; reflexivity. Qed.

(** ** The condition variable *)

Lemma cond_wait_run (self : pthread_t) (file : option string) (line : Z)
    (w : World) :
  owned_by self (object w) ->
  object_cond_wait_ self file line w
  = match env w with
    | [] =>
        Ok tt (mkWorld (set_debug (set_debug (object w) 0%Z file line) self file line)
                 (engine w) []
                 (trace w ++ [EvCondWait (set_debug (object w) 0%Z file line) 0]))
    | s :: rest =>
        if (0 =? ret_code s)%Z
        then Ok tt (mkWorld
                      (set_debug (interfere s (set_debug (object w) 0%Z file line))
                         self file line)
                      (engine w) rest
                      (trace w ++ [EvCondWait (set_debug (object w) 0%Z file line)
                                     (ret_code s)]))
        else Fatal (mkWorld (interfere s (set_debug (object w) 0%Z file line))
                      (engine w) rest
                      (trace w ++ [EvCondWait (set_debug (object w) 0%Z file line)
                                     (ret_code s)]))
    end.
Proof.
  intros Hown. unfold object_cond_wait_.
  rewrite (bind_Ok _ _ _ _ _ (assert_owned_ok self w Hown)).
  rewrite (bind_Ok (clear_owner file line) _ w
             (set_object w (set_debug (object w) 0%Z file line)) tt eq_refl).
  unfold pthread_cond_wait, bind, get_object, environment, emit, ret, assert,
    put_object, add_event, set_object, set_env.
  cbn [object engine env trace].
  destruct (env w) as [| s rest]; [reflexivity |].
  cbn [object engine env trace]. now destruct (0 =? ret_code s)%Z.
Qed.

(** C8: a debug-build wait by the thread that holds the lock suspends with
    the owner cleared (the object the other threads find has a zeroed
    [mOwner], and the wait site as its file and line); when the wait
    returns, whatever the other threads did meanwhile, the owner is the
    calling thread again and file and line are the wait site.  A wait that
    reports failure stops at the assertion. *)
Theorem cond_wait_clears_and_restores_owner (self : pthread_t)
    (file : option string) (line : Z) (w : World) :
  owned_by self (object w) ->
  exists suspended r w',
    trace w' = trace w ++ [EvCondWait suspended r]
    /\ suspended = set_debug (object w) 0%Z file line
    /\ mOwner suspended = 0%Z
    /\ ((r = 0%Z
         /\ object_cond_wait_ self file line w = Ok tt w'
         /\ mOwner (object w') = self
         /\ mFile (object w') = file
         /\ mLine (object w') = line)
        \/ (r <> 0%Z /\ object_cond_wait_ self file line w = Fatal w')).
Proof.
  intros Hown. rewrite (cond_wait_run self file line w Hown).
  exists (set_debug (object w) 0%Z file line).
  destruct (env w) as [| s rest].
  - exists 0%Z. eexists (mkWorld _ _ _ _). cbn [trace object].
    split; [reflexivity |]. split; [reflexivity |]. split; [reflexivity |].
    left. repeat split.
  - exists (ret_code s). destruct (Z.eqb_spec 0 (ret_code s)) as [E | E].
    + eexists (mkWorld _ _ _ _). cbn [trace object].
      split; [reflexivity |]. split; [reflexivity |]. split; [reflexivity |].
      left. repeat split. now symmetry.
    + eexists (mkWorld _ _ _ _). cbn [trace object].
      split; [reflexivity |]. split; [reflexivity |]. split; [reflexivity |].
      right. split; [congruence | reflexivity].
Qed.

(** ** Taking the lock *)

Lemma env_keeps_tail {T : Type} (f : IObject -> T) (s : EnvStep) (l : list EnvStep) :
  env_keeps f (s :: l) -> (forall o, f (interfere s o) = f o) /\ env_keeps f l.
Proof. intros H. now inversion H. Qed.

Lemma environment_keeps {T : Type} (f : IObject -> T) (w : World) :
  env_keeps f (env w) ->
  exists r w',
    environment w = Ok r w'
    /\ f (object w') = f (object w)
    /\ env_keeps f (env w')
    /\ trace w' = trace w
    /\ engine w' = engine w.
Proof.
  intros H. unfold environment. destruct (env w) as [| s rest] eqn:E.
  - exists 0%Z, w. rewrite E. repeat split. constructor.
  - apply env_keeps_tail in H as [Hs Hrest].
    eexists (ret_code s), _. split; [reflexivity |]. cbn. repeat split; auto.
Qed.

Lemma trylock_keeps {T : Type} (f : IObject -> T) (w : World) :
  env_keeps f (env w) ->
  exists r w',
    pthread_mutex_trylock w = Ok r w'
    /\ f (object w') = f (object w)
    /\ env_keeps f (env w')
    /\ trace w' = trace w ++ [EvMutexTrylock r]
    /\ engine w' = engine w.
Proof.
  intros H. destruct (environment_keeps f w H) as (r & w1 & Hrun & Hf & Henv & Ht & He).
  exists r, (add_event w1 (EvMutexTrylock r)). unfold pthread_mutex_trylock.
  rewrite (bind_Ok _ _ _ _ _ Hrun). split; [reflexivity |].
  cbn. rewrite Ht. repeat split; assumption.
Qed.

Lemma lock_keeps {T : Type} (f : IObject -> T) (w : World) :
  env_keeps f (env w) ->
  (exists r w',
      pthread_mutex_lock w = Ok r w'
      /\ f (object w') = f (object w)
      /\ env_keeps f (env w')
      /\ trace w' = trace w ++ [EvMutexLock r]
      /\ engine w' = engine w)
  \/ pthread_mutex_lock w = Blocked (add_event w EvMutexLockBlocked).
Proof.
  intros H. unfold pthread_mutex_lock.
  destruct (wait_for_mutex w) as [[] w0 | w0 | w0] eqn:Ewait.
  - assert (E0 : w0 = w).
    { unfold wait_for_mutex in Ewait. destruct (env w) as [| s l]; [congruence |].
      destruct (returns s); congruence. }
    subst w0. left.
    destruct (environment_keeps f w H) as (r & w1 & Hrun & Hf & Henv & Ht & He).
    exists r, (add_event w1 (EvMutexLock r)).
    rewrite (bind_Ok _ _ _ _ _ Ewait), (bind_Ok _ _ _ _ _ Hrun). split; [reflexivity |].
    cbn. rewrite Ht. repeat split; assumption.
  - exfalso. unfold wait_for_mutex in Ewait. destruct (env w) as [| s l]; [discriminate |].
    destruct (returns s); discriminate.
  - right. rewrite (bind_Blocked _ _ _ _ Ewait). f_equal.
    unfold wait_for_mutex in Ewait. destruct (env w) as [| s l]; [discriminate |].
    destruct (returns s); congruence.
Qed.

(** *** How far a run has come *)

Lemma interfered_app (l1 l2 : list EnvStep) (o : IObject) :
  interfered (l1 ++ l2) o = interfered l2 (interfered l1 o).
Proof. apply fold_left_app. Qed.

Lemma interfered_keeps {T : Type} (f : IObject -> T) (l : list EnvStep) :
  env_keeps f l -> forall o, f (interfered l o) = f o.
Proof.
  induction 1 as [| s l Hs _ IH]; intros o; [reflexivity |].
  change (interfered (s :: l) o) with (interfered l (interfere s o)).
  now rewrite IH.
Qed.

Lemma reached_refl (w : World) : reached w [] [] w.
Proof. unfold reached. cbn. now rewrite app_nil_r. Qed.

Lemma reached_trans (w w1 w2 : World) (u1 u2 : list EnvStep) (t1 t2 : list Event) :
  reached w u1 t1 w1 -> reached w1 u2 t2 w2 -> reached w (u1 ++ u2) (t1 ++ t2) w2.
Proof.
  intros (E1 & O1 & G1 & T1) (E2 & O2 & G2 & T2). unfold reached.
  rewrite E1, E2, O2, O1, G2, G1, T2, T1, interfered_app, !app_assoc. repeat split.
Qed.

Lemma reached_event (w : World) (e : Event) : reached w [] [e] (add_event w e).
Proof. unfold reached. cbn. repeat split. Qed.

Lemma reached_keeps {T : Type} (f : IObject -> T) (w w' : World)
    (used : list EnvStep) (t : list Event) :
  env_keeps f (env w) -> reached w used t w' -> f (object w') = f (object w).
Proof.
  intros H (E & O & _ & _). rewrite O. apply interfered_keeps.
  unfold env_keeps in H. rewrite E in H. now apply Forall_app in H.
Qed.

Lemma reached_new_events (w w' : World) (used : list EnvStep) (t : list Event) :
  reached w used t w' -> new_events w w' = t.
Proof. intros (_ & _ & _ & Ht). now apply new_events_app. Qed.

Lemma environment_run (w : World) :
  exists r used w', environment w = Ok r w' /\ reached w used [] w'.
Proof.
  unfold environment, reached. destruct w as [o e l t]. cbn [env object engine trace].
  destruct l as [| s rest].
  - exists 0%Z, [], (mkWorld o e [] t). cbn. now rewrite app_nil_r.
  - exists (ret_code s), [s], (mkWorld (interfere s o) e rest t).
    cbn. now rewrite app_nil_r.
Qed.

Lemma trylock_run (w : World) :
  exists r used w',
    pthread_mutex_trylock w = Ok r w' /\ reached w used [EvMutexTrylock r] w'.
Proof.
  destruct (environment_run w) as (r & used & w1 & Hrun & Hreach).
  exists r, used, (add_event w1 (EvMutexTrylock r)). unfold pthread_mutex_trylock.
  rewrite (bind_Ok _ _ _ _ _ Hrun). split; [reflexivity |].
  rewrite <- (app_nil_r used).
  exact (reached_trans _ _ _ _ _ _ _ Hreach (reached_event w1 _)).
Qed.

Lemma lock_run (w : World) :
  (exists r used w',
      pthread_mutex_lock w = Ok r w' /\ reached w used [EvMutexLock r] w')
  \/ pthread_mutex_lock w = Blocked (add_event w EvMutexLockBlocked).
Proof.
  destruct (lock_keeps (fun _ => tt) w) as [(r & w' & Hrun & _) | Hblocked];
    [apply Forall_forall; reflexivity | | now right].
  left. unfold pthread_mutex_lock in Hrun.
  destruct (wait_for_mutex w) as [[] w0 | w0 | w0] eqn:Ewait;
    [| rewrite (bind_Fatal _ _ _ _ Ewait) in Hrun; discriminate
     | rewrite (bind_Blocked _ _ _ _ Ewait) in Hrun; discriminate].
  assert (E0 : w0 = w).
  { unfold wait_for_mutex in Ewait. destruct (env w) as [| s l]; [congruence |].
    destruct (returns s); congruence. }
  subst w0. clear Hrun.
  destruct (environment_run w) as (r1 & used & w1 & Hrun1 & Hreach).
  exists r1, used, (add_event w1 (EvMutexLock r1)). unfold pthread_mutex_lock.
  rewrite (bind_Ok _ _ _ _ _ Ewait), (bind_Ok _ _ _ _ _ Hrun1). split; [reflexivity |].
  rewrite <- (app_nil_r used).
  exact (reached_trans _ _ _ _ _ _ _ Hreach (reached_event w1 _)).
Qed.

(** *** The debug lock, whatever the environment *)

Lemma lock_after_acquisition (self : pthread_t) (file : option string) (line : Z) :
  object_lock_exclusive_ self file line
  = (ok <- pthread_mutex_trylock ;;
     (if negb (0 =? ok)%Z then lock_backoff backoffs file line else ret tt) ;;
     after_acquisition self file line).
Proof. reflexivity. Qed.

Lemma after_acquisition_run (self : pthread_t) (file : option string) (line : Z)
    (w : World) :
  after_acquisition self file line w
  = if (0 =? mOwner (object w))%Z
    then Ok tt (set_object w (set_debug (object w) self file line))
    else Fatal (add_event w (EvLogE (misuse self file line (object w)))).
Proof.
  unfold after_acquisition, misuse, pthread_equal.
  rewrite (bind_Ok get_object _ w w (object w) eq_refl).
  destruct (0 =? mOwner (object w))%Z; cbn [negb]; [reflexivity |].
  apply bind_Fatal. unfold bind, SL_LOGE, emit, assert.
  now destruct (self =? mOwner (object w))%Z.
Qed.

(** The backoff loop: a [trylock] succeeds after fewer failures than there
    are sleeps left, or they all fail and the loop warns and calls
    [pthread_mutex_lock]. *)
Lemma lock_backoff_run (file : option string) (line : Z) (bs : list Z) :
  bs <> [] ->
  forall w, exists cs used t w',
    reached w used t w'
    /\ Forall (fun c => c <> 0%Z) cs
    /\ (((List.length cs < List.length bs)%nat
         /\ t = retries bs (cs ++ [0%Z])
         /\ lock_backoff bs file line w = Ok tt w')
        \/ (List.length cs = List.length bs
            /\ exists o6 u6 r6 e,
                 env w = u6 ++ r6
                 /\ o6 = interfered u6 (object w)
                 /\ t = retries bs cs
                        ++ [EvLogW (was_locked_by file line
                                      (mOwner o6) (mFile o6) (mLine o6)); e]
                 /\ lock_ends e (lock_backoff bs file line w) (Ok tt w') w')).
Proof.
  induction bs as [| b rest IH]; intros Hne w; [congruence |].
  pose proof (reached_event w (EvUsleep b)) as R0.
  destruct (trylock_run (add_event w (EvUsleep b))) as (r & u1 & w1 & Hrun1 & R1).
  pose proof (reached_trans _ _ _ _ _ _ _ R0 R1) as R01. cbn [app] in R01.
  assert (Hstep : lock_backoff (b :: rest) file line w
                  = (if (0 =? r)%Z then ret tt
                     else match rest with
                          | [] =>
                              o <- get_object ;;
                              SL_LOGW (was_locked_by file line
                                         (mOwner o) (mFile o) (mLine o)) ;;
                              ok <- pthread_mutex_lock ;;
                              assert (0 =? ok)%Z
                          | _ :: _ => lock_backoff rest file line
                          end) w1).
  { cbn [lock_backoff].
    rewrite (bind_Ok (usleep b) _ w (add_event w (EvUsleep b)) tt eq_refl).
    now rewrite (bind_Ok _ _ _ _ _ Hrun1). }
  rewrite Hstep. clear Hstep.
  destruct (Z.eqb_spec 0 r) as [<- | Hr].
  - exists [], u1, [EvUsleep b; EvMutexTrylock 0], w1.
    split; [exact R01 |]. split; [constructor |]. left.
    split; [cbn; lia |]. split; reflexivity.
  - destruct rest as [| b' rest'].
    + rewrite (bind_Ok get_object _ w1 w1 (object w1) eq_refl).
      set (msg := was_locked_by _ _ _ _ _).
      rewrite (bind_Ok (SL_LOGW msg) _ w1 (add_event w1 (EvLogW msg)) tt eq_refl).
      pose proof (reached_trans _ _ _ _ _ _ _ R01 (reached_event w1 (EvLogW msg))) as R2.
      rewrite app_nil_r in R2. cbn [app] in R2.
      destruct R01 as (Henv1 & Hobj1 & _).
      destruct (lock_run (add_event w1 (EvLogW msg)))
        as [(r2 & u2 & w2 & Hrun2 & R3) | Hblocked].
      * rewrite (bind_Ok _ _ _ _ _ Hrun2).
        pose proof (reached_trans _ _ _ _ _ _ _ R2 R3) as R. cbn [app] in R.
        exists [r], (u1 ++ u2), [EvUsleep b; EvMutexTrylock r; EvLogW msg; EvMutexLock r2], w2.
        split; [exact R |]. split; [now repeat constructor |]. right.
        split; [reflexivity |].
        exists (object w1), u1, (env w1), (EvMutexLock r2).
        split; [exact Henv1 |]. split; [exact Hobj1 |]. split; [reflexivity |].
        unfold lock_ends, assert. destruct (Z.eqb_spec 0 r2) as [<- | Hr2].
        -- left. now split.
        -- right. left. exists r2. repeat split. congruence.
      * rewrite (bind_Blocked _ _ _ _ Hblocked).
        pose proof (reached_trans _ _ _ _ _ _ _ R2
                      (reached_event (add_event w1 (EvLogW msg)) EvMutexLockBlocked)) as R.
        rewrite app_nil_r in R. cbn [app] in R.
        exists [r], u1, [EvUsleep b; EvMutexTrylock r; EvLogW msg; EvMutexLockBlocked],
          (add_event (add_event w1 (EvLogW msg)) EvMutexLockBlocked).
        split; [exact R |]. split; [now repeat constructor |]. right.
        split; [reflexivity |].
        exists (object w1), u1, (env w1), EvMutexLockBlocked.
        split; [exact Henv1 |]. split; [exact Hobj1 |]. split; [reflexivity |].
        right. right. now split.
    + destruct (IH ltac:(discriminate) w1)
        as (cs & u2 & t2 & w2 & R2 & Hcs
            & [(Hlen & Ht & Hrun) | (Hlen & o6 & u6 & r6 & e & Henv & Ho6 & Ht & Hend)]).
      * exists (r :: cs), (u1 ++ u2), ([EvUsleep b; EvMutexTrylock r] ++ t2), w2.
        split; [exact (reached_trans _ _ _ _ _ _ _ R01 R2) |].
        split; [constructor; [congruence | exact Hcs] |]. left.
        split; [cbn [List.length] in *; lia |]. split; [| exact Hrun].
        rewrite Ht. reflexivity.
      * exists (r :: cs), (u1 ++ u2), ([EvUsleep b; EvMutexTrylock r] ++ t2), w2.
        split; [exact (reached_trans _ _ _ _ _ _ _ R01 R2) |].
        split; [constructor; [congruence | exact Hcs] |]. right.
        split; [cbn [List.length] in *; lia |].
        destruct R01 as (Henv1 & Hobj1 & _).
        exists o6, (u1 ++ u6), r6, e.
        split; [now rewrite Henv1, Henv, app_assoc |].
        split; [now rewrite Ho6, Hobj1, interfered_app |].
        split; [rewrite Ht; reflexivity | exact Hend].
Qed.

(** The debug lock up to the check of the owner: the mutex is acquired by
    one of the six [trylock] calls, or they all fail and the call warns and
    enters [pthread_mutex_lock], which grants the mutex, fails, or does not
    return. *)
Lemma debug_lock_run (self : pthread_t) (file : option string) (line : Z)
    (w : World) :
  exists cs used t w1,
    reached w used t w1
    /\ Forall (fun c => c <> 0%Z) cs
    /\ (((List.length cs <= 5)%nat
         /\ t = attempts (cs ++ [0%Z])
         /\ object_lock_exclusive_ self file line w
            = after_acquisition self file line w1)
        \/ (List.length cs = 6%nat
            /\ exists o6 u6 r6 e,
                 env w = u6 ++ r6
                 /\ o6 = interfered u6 (object w)
                 /\ t = attempts cs
                        ++ [EvLogW (was_locked_by file line
                                      (mOwner o6) (mFile o6) (mLine o6)); e]
                 /\ lock_ends e (object_lock_exclusive_ self file line w)
                      (after_acquisition self file line w1) w1)).
Proof.
  rewrite lock_after_acquisition.
  destruct (trylock_run w) as (r & u0 & w0 & Hrun0 & R0).
  rewrite (bind_Ok _ _ _ _ _ Hrun0).
  destruct (Z.eqb_spec 0 r) as [<- | Hr]; cbn [negb].
  - exists [], u0, [EvMutexTrylock 0], w0.
    split; [exact R0 |]. split; [constructor |]. left.
    split; [cbn; lia |]. split; [reflexivity |].
    now rewrite (bind_Ok (ret tt) _ w0 w0 tt eq_refl).
  - destruct (lock_backoff_run file line backoffs ltac:(discriminate) w0)
      as (cs & u1 & t1 & w1 & R1 & Hcs
          & [(Hlen & Ht & Hrun) | (Hlen & o6 & u6 & r6 & e & Henv & Ho6 & Ht & Hend)]).
    + exists (r :: cs), (u0 ++ u1), ([EvMutexTrylock r] ++ t1), w1.
      split; [exact (reached_trans _ _ _ _ _ _ _ R0 R1) |].
      split; [constructor; [congruence | exact Hcs] |]. left.
      cbn [List.length backoffs] in Hlen.
      split; [cbn [List.length]; lia |]. split; [rewrite Ht; reflexivity |].
      now rewrite (bind_Ok _ _ _ _ _ Hrun).
    + exists (r :: cs), (u0 ++ u1), ([EvMutexTrylock r] ++ t1), w1.
      split; [exact (reached_trans _ _ _ _ _ _ _ R0 R1) |].
      split; [constructor; [congruence | exact Hcs] |]. right.
      cbn [List.length backoffs] in Hlen.
      split; [cbn [List.length]; lia |].
      destruct R0 as (Henv0 & Hobj0 & _).
      exists o6, (u0 ++ u6), r6, e.
      split; [now rewrite Henv0, Henv, app_assoc |].
      split; [now rewrite Ho6, Hobj0, interfered_app |].
      split; [rewrite Ht; reflexivity |].
      destruct Hend as [(He & Hres) | [(c & Hc & He & Hres) | (He & Hres)]].
      * left. split; [exact He |]. now rewrite (bind_Ok _ _ _ _ _ Hres).
      * right. left. exists c. repeat split; [exact Hc | exact He |].
        now apply bind_Fatal.
      * right. right. split; [exact He |]. now apply bind_Blocked.
Qed.

(** C7, as amended: in the debug build a lock attempt on an object whose
    recorded owner is not zeroed is never granted, and it is detected
    whenever the call acquires the mutex, at once after the acquisition:
    when one of the six [trylock] calls or the final [pthread_mutex_lock]
    returns 0, the next thing the call does is to log the error, which says
    "recursively locked" when the recorded owner is the calling thread and
    "left unlocked in unexpected state" when it is another thread, and it
    stops at [assert(false)].  Nothing is detected while the mutex is not
    acquired: after six failed [trylock] calls the call warns and enters
    [pthread_mutex_lock]; when that returns an error the call stops at
    [assert(0 == ok)], and when it does not return the call stays in it. *)
Theorem recursive_lock_is_never_granted (self : pthread_t) (file : option string)
    (line : Z) (w : World) :
  mOwner (object w) <> 0%Z ->
  env_keeps mOwner (env w) ->
  exists cs w',
    Forall (fun c => c <> 0%Z) cs
    /\ mOwner (object w') = mOwner (object w)
    /\ (((List.length cs <= 5)%nat
         /\ object_lock_exclusive_ self file line w = Fatal w'
         /\ new_events w w'
            = attempts (cs ++ [0%Z]) ++ [EvLogE (misuse self file line (object w'))])
        \/ (List.length cs = 6%nat
            /\ exists ofile oline e,
                 new_events w w'
                 = attempts cs
                   ++ EvLogW (was_locked_by file line (mOwner (object w)) ofile oline)
                   :: e
                 /\ ((e = [EvMutexLock 0; EvLogE (misuse self file line (object w'))]
                      /\ object_lock_exclusive_ self file line w = Fatal w')
                     \/ (exists c, c <> 0%Z /\ e = [EvMutexLock c]
                                   /\ object_lock_exclusive_ self file line w = Fatal w')
                     \/ (e = [EvMutexLockBlocked]
                         /\ object_lock_exclusive_ self file line w = Blocked w')))).
Proof.
  intros Hown Henv.
  destruct (debug_lock_run self file line w)
    as (cs & used & t & w1 & R & Hcs
        & [(Hlen & Ht & Hrun) | (Hlen & o6 & u6 & r6 & e & Henv6 & Ho6 & Ht & Hend)]).
  - pose proof (reached_keeps mOwner _ _ _ _ Henv R) as Hown1.
    rewrite after_acquisition_run in Hrun.
    replace (0 =? mOwner (object w1))%Z with false in Hrun
      by (symmetry; apply Z.eqb_neq; congruence).
    exists cs, (add_event w1 (EvLogE (misuse self file line (object w1)))).
    split; [exact Hcs |]. split; [exact Hown1 |]. left.
    split; [exact Hlen |]. split; [exact Hrun |].
    apply new_events_app. destruct R as (_ & _ & _ & Htr).
    cbn [trace add_event object]. now rewrite Htr, Ht, app_assoc.
  - assert (Hown6 : mOwner o6 = mOwner (object w)).
    { rewrite Ho6. apply interfered_keeps. unfold env_keeps in Henv.
      rewrite Henv6 in Henv. now apply Forall_app in Henv. }
    pose proof (reached_keeps mOwner _ _ _ _ Henv R) as Hown1.
    destruct R as (_ & _ & _ & Htr).
    destruct Hend as [(He & Hres) | [(c & Hc & He & Hres) | (He & Hres)]].
    + rewrite after_acquisition_run in Hres.
      replace (0 =? mOwner (object w1))%Z with false in Hres
        by (symmetry; apply Z.eqb_neq; congruence).
      exists cs, (add_event w1 (EvLogE (misuse self file line (object w1)))).
      split; [exact Hcs |]. split; [exact Hown1 |]. right.
      split; [exact Hlen |].
      exists (mFile o6), (mLine o6),
        [EvMutexLock 0; EvLogE (misuse self file line (object w1))].
      split.
      * apply new_events_app. cbn [trace add_event object].
        rewrite Htr, Ht, He, Hown6, <- !app_assoc. reflexivity.
      * left. split; [reflexivity | exact Hres].
    + exists cs, w1. split; [exact Hcs |]. split; [exact Hown1 |]. right.
      split; [exact Hlen |]. exists (mFile o6), (mLine o6), [EvMutexLock c].
      split.
      * apply new_events_app. rewrite Htr, Ht, He, Hown6. reflexivity.
      * right. left. exists c. now repeat split.
    + exists cs, w1. split; [exact Hcs |]. split; [exact Hown1 |]. right.
      split; [exact Hlen |]. exists (mFile o6), (mLine o6), [EvMutexLockBlocked].
      split.
      * apply new_events_app. rewrite Htr, Ht, He, Hown6. reflexivity.
      * right. right. now split.
Qed.

(** ** Masks only grow *)

Lemma grows_refl (a : N) : grows a a.
Proof. now intros k. Qed.

Lemma grows_trans (a b c : N) : grows a b -> grows b c -> grows a c.
Proof. intros H1 H2 k Hk. now apply H2, H1. Qed.

Lemma grows_lor (a b : N) : grows a (N.lor a b).
Proof. intros k Hk. now rewrite N.lor_spec, Hk. Qed.

Lemma grows_is_lor (a b : N) : grows a b -> b = N.lor a b.
Proof.
  intros H. apply N.bits_inj. intros k. rewrite N.lor_spec.
  destruct (N.testbit a k) eqn:E; [| reflexivity]. now rewrite (H k E).
Qed.

Create HintDb steady.

Lemma steady_ret {A : Type} (a : A) : steady (ret a).
Proof. intros w H. repeat split; [apply grows_refl | apply grows_refl | exact H]. Qed.

Lemma steady_bind {A B : Type} (m : M A) (k : A -> M B) :
  steady m -> (forall a, steady (k a)) -> steady (bind m k).
Proof.
  intros Hm Hk w H. specialize (Hm w H). unfold bind.
  destruct (m w) as [a w1 | w1 | w1]; cbn [world_of] in Hm |- *;
    [| exact Hm | exact Hm].
  destruct Hm as (H1 & H2 & H3). destruct (Hk a w1 H3) as (H4 & H5 & H6).
  repeat split; [eapply grows_trans | eapply grows_trans |]; eassumption.
Qed.

Lemma steady_if {A : Type} (b : bool) (m1 m2 : M A) :
  steady m1 -> steady m2 -> steady (if b then m1 else m2).
Proof. now destruct b. Qed.

Lemma steady_emit (e : Event) : steady (emit e).
Proof. intros w H. repeat split; [apply grows_refl | apply grows_refl | exact H]. Qed.

Lemma steady_assert (b : bool) : steady (assert b).
Proof.
  intros w H. unfold assert.
  destruct b; repeat split; try apply grows_refl; exact H.
Qed.

Lemma steady_get_object : steady get_object.
Proof. intros w H. repeat split; [apply grows_refl | apply grows_refl | exact H]. Qed.

Lemma steady_get_engine : steady get_engine.
Proof. intros w H. repeat split; [apply grows_refl | apply grows_refl | exact H]. Qed.

Lemma steady_environment : steady environment.
Proof.
  intros w H. unfold environment. destruct (env w) as [| s rest] eqn:E.
  - cbn [world_of]. rewrite E. repeat split; try apply grows_refl. exact H.
  - apply env_keeps_tail in H as [Hs Hrest]. cbn.
    repeat split; [| apply grows_refl | exact Hrest].
    rewrite Hs. apply grows_refl.
Qed.

(** A write to the object that clears no pending bit, and what follows it. *)
Lemma steady_update_object {A : Type} (g : IObject -> IObject) (k : IObject -> M A) :
  (forall o, grows (mAttributesMask o) (mAttributesMask (g o))) ->
  (forall o, steady (k o)) ->
  steady (o <- get_object ;; put_object (g o) ;; k o).
Proof.
  intros Hg Hk w H.
  destruct (Hk (object w) (set_object w (g (object w))) H) as (H1 & H2 & H3).
  repeat split; [| exact H2 | exact H3].
  eapply grows_trans; [apply Hg | exact H1].
Qed.

Lemma steady_set_debug (owner : pthread_t) (file : option string) (line : Z) :
  steady (o <- get_object ;; put_object (set_debug o owner file line)).
Proof.
  intros w H. repeat split; [apply grows_refl | apply grows_refl | exact H].
Qed.

(** A write to the engine that clears no bit, and what follows it. *)
Lemma steady_update_engine {A : Type} (g : IEngine -> IEngine) (k : IEngine -> M A) :
  (forall e, grows (mChangedMask e) (mChangedMask (g e))) ->
  (forall e, steady (k e)) ->
  steady (e <- get_engine ;; put_engine (g e) ;; k e).
Proof.
  intros Hg Hk w H.
  destruct (Hk (engine w) (set_engine w (g (engine w))) H) as (H1 & H2 & H3).
  repeat split; [exact H1 | | exact H3].
  eapply grows_trans; [apply Hg | exact H2].
Qed.

#[local] Hint Resolve steady_ret steady_emit steady_assert steady_get_object
  steady_get_engine steady_environment steady_set_debug : steady.

Ltac steady_steps :=
  repeat first
    [ solve [auto with steady]
    | apply steady_bind; [| intros ?]
    | apply steady_if ].

Lemma steady_trylock : steady pthread_mutex_trylock.
Proof. unfold pthread_mutex_trylock. steady_steps. Qed.

Lemma steady_wait_for_mutex : steady wait_for_mutex.
Proof.
  intros w H. unfold wait_for_mutex.
  destruct (env w) as [| s rest] eqn:E; [| destruct (returns s)];
    cbn [world_of add_event object engine env]; rewrite ?E;
    (repeat split; [apply grows_refl | apply grows_refl | exact H]).
Qed.

Lemma steady_lock : steady pthread_mutex_lock.
Proof.
  unfold pthread_mutex_lock. apply steady_bind; [apply steady_wait_for_mutex | intros _].
  steady_steps.
Qed.

Lemma steady_unlock : steady pthread_mutex_unlock.
Proof. unfold pthread_mutex_unlock. steady_steps. Qed.

Lemma steady_cond_wait : steady pthread_cond_wait.
Proof. unfold pthread_cond_wait. steady_steps. Qed.

Lemma steady_cond_signal : steady pthread_cond_signal.
Proof. unfold pthread_cond_signal. steady_steps. Qed.

Lemma steady_cond_broadcast : steady pthread_cond_broadcast.
Proof. unfold pthread_cond_broadcast. steady_steps. Qed.

Lemma steady_assert_owned (self : pthread_t) : steady (assert_owned self).
Proof. unfold assert_owned. steady_steps. Qed.

Lemma steady_clear_owner (file : option string) (line : Z) :
  steady (clear_owner file line).
Proof. unfold clear_owner. auto with steady. Qed.

#[local] Hint Resolve steady_trylock steady_lock steady_unlock steady_cond_wait
  steady_cond_signal steady_cond_broadcast steady_assert_owned
  steady_clear_owner : steady.

Lemma steady_lock_backoff (file : option string) (line : Z) (bs : list Z) :
  steady (lock_backoff bs file line).
Proof.
  induction bs as [| b rest IH]; cbn [lock_backoff]; [auto with steady |].
  unfold usleep, SL_LOGW.
  apply steady_bind; [auto with steady | intros _].
  apply steady_bind; [auto with steady | intros ok].
  apply steady_if; [auto with steady |].
  destruct rest as [| b' rest']; [steady_steps | exact IH].
Qed.

Lemma steady_object_lock_exclusive_ (self : pthread_t) (file : option string)
    (line : Z) : steady (object_lock_exclusive_ self file line).
Proof.
  unfold object_lock_exclusive_, SL_LOGE.
  apply steady_bind; [auto with steady | intros ok].
  apply steady_bind; [apply steady_if; [apply steady_lock_backoff | auto with steady] |].
  intros _. steady_steps.
Qed.

Section Steady.

Variable cfg : Config.
Hypothesis handlers_steady : handlers_keep cfg mAttributesMask.

Lemma steady_handle_bit (objectID bit a : unsigned) :
  steady (handle_bit cfg objectID bit a).
Proof.
  unfold handle_bit.
  apply steady_bind; [auto with steady | intros _].
  apply steady_bind; [auto with steady | intros _].
  destruct (handlerTable cfg objectID bit) as [h |] eqn:Eh; [| auto with steady].
  apply steady_bind; [| auto with steady].
  unfold call_handler.
  apply (steady_update_object (fun o => snd (h o))
           (fun o => emit (EvHandler objectID bit (fst (h o))) ;; ret (fst (h o)))).
  - intros o. rewrite (handlers_steady objectID bit h o Eh). apply grows_refl.
  - intros o. steady_steps.
Qed.

Lemma steady_dispatch (objectID : unsigned) :
  forall attributes a, steady (dispatch_attributes cfg objectID attributes a).
Proof.
  intros attributes.
  induction attributes as [attributes IH] using (well_founded_induction N.lt_wf_0).
  intros a. destruct attributes as [| p].
  - rewrite dispatch_attributes_equation_1. auto with steady.
  - rewrite dispatch_attributes_equation_2.
    apply steady_bind; [apply steady_handle_bit | intros a'].
    apply IH. cbn [ctz]. apply clear_bit_ctz_lt.
Qed.

Lemma steady_merge (A : unsigned) : steady (merge_asynchronous A).
Proof.
  intros w H. rewrite merge_run. cbn.
  repeat split; [apply grows_lor | apply grows_refl | exact H].
Qed.

Lemma steady_report_to_engine (R : unsigned) : steady (report_to_engine cfg R).
Proof.
  unfold report_to_engine, interface_lock_exclusive, interface_unlock_exclusive.
  apply steady_if; [| auto with steady].
  apply steady_bind; [auto with steady | intros o].
  apply steady_if; [| auto with steady].
  apply steady_bind; [auto with steady | intros _].
  apply steady_bind; [auto with steady | intros _].
  apply (steady_update_engine
           (fun e => mkIEngine (N.lor (mChangedMask e)
                                  (u32 (N.shiftl 1 (usub (mInstanceID o) 1)))))
           (fun _ => emit (EvEngineChanged (u32 (N.shiftl 1 (usub (mInstanceID o) 1)))) ;;
                     emit EvEngineUnlock)).
  - intros e. apply grows_lor.
  - intros e. steady_steps.
Qed.

Lemma steady_body (dbg : bool) (self : pthread_t) (M : unsigned)
    (file : option string) (line : Z) :
  steady (unlock_exclusive_attributes_body cfg dbg self M file line).
Proof.
  unfold unlock_exclusive_attributes_body.
  apply steady_bind; [apply steady_if; auto with steady | intros _].
  apply steady_bind; [auto with steady | intros o].
  apply steady_bind.
  { unfold contiguous_objectID. steady_steps. }
  intros objectID.
  apply steady_bind; [apply steady_dispatch | intros A].
  apply steady_bind; [apply steady_merge | intros R].
  apply steady_bind; [apply steady_if; auto with steady | intros _].
  apply steady_bind; [auto with steady | intros ok].
  apply steady_bind; [auto with steady | intros _].
  apply steady_report_to_engine.
Qed.

Lemma steady_run (c : Call) : steady (run cfg c).
Proof.
  destruct c; cbn [run].
  - apply steady_object_lock_exclusive_.
  - unfold object_lock_exclusive. steady_steps.
  - unfold object_unlock_exclusive_. steady_steps.
  - unfold object_unlock_exclusive. steady_steps.
  - apply steady_body.
  - apply steady_body.
  - unfold object_cond_wait_. steady_steps.
  - unfold object_cond_wait. steady_steps.
  - unfold object_cond_signal. steady_steps.
  - unfold object_cond_broadcast. steady_steps.
Qed.

End Steady.

(** C6: no entry point of [locks.c] clears a bit of the object's
    [mAttributesMask] or of the engine's [mChangedMask]: however the call
    ends, each mask holds every bit it held before, that is, it is its old
    value OR'd with something.  (The handlers and the other threads are
    taken not to write [mAttributesMask] themselves.) *)
Theorem masks_only_grow (cfg : Config) (c : Call) (w : World) :
  handlers_keep cfg mAttributesMask ->
  env_keeps mAttributesMask (env w) ->
  let w' := world_of (run cfg c w) in
  grows (mAttributesMask (object w)) (mAttributesMask (object w'))
  /\ grows (mChangedMask (engine w)) (mChangedMask (engine w'))
  /\ mAttributesMask (object w')
     = N.lor (mAttributesMask (object w)) (mAttributesMask (object w'))
  /\ mChangedMask (engine w')
     = N.lor (mChangedMask (engine w)) (mChangedMask (engine w')).
Proof.
  intros Hh He. destruct (steady_run cfg Hh c w He) as (H1 & H2 & _).
  cbn zeta. split; [exact H1 |]. split; [exact H2 |].
  split; now apply grows_is_lor.
Qed.

(** ** Two reports in a row *)

Lemma calm_tl (l : list EnvStep) : calm l -> calm (tl l).
Proof. destruct l as [| s l]; [trivial | apply calm_tail]. Qed.

(** Taking the lock again once it has been released, uncontended. *)
Lemma lock_calm (dbg : bool) (self : pthread_t) (file : option string) (line : Z)
    (w : World) :
  calm (env w) ->
  (dbg = true -> mOwner (object w) = 0%Z) ->
  lock_of dbg self file line w
  = Ok tt (mkWorld (if dbg then set_debug (object w) self file line else object w)
             (engine w) (tl (env w))
             (trace w ++ [if dbg then EvMutexTrylock 0 else EvMutexLock 0])).
Proof.
  intros Hcalm Hown. destruct dbg; cbn [lock_of].
  - specialize (Hown eq_refl). unfold object_lock_exclusive_, pthread_mutex_trylock.
    unfold bind at 1 2. rewrite (environment_calm w Hcalm).
    unfold emit, ret, bind, get_object, put_object, add_event, set_env, set_object.
    cbn [object engine env trace Z.eqb negb]. now rewrite Hown.
  - unfold object_lock_exclusive, pthread_mutex_lock.
    unfold bind at 1 2. rewrite (wait_calm w Hcalm).
    unfold bind at 1. rewrite (environment_calm w Hcalm). reflexivity.
Qed.

Lemma handled_new_events (t : list Event) (report : bool) (bit : unsigned) :
  handled (t ++ closing_events report bit) = handled t.
Proof.
  rewrite handled_app. destruct (closing_events_read report bit) as (-> & _).
  apply N.lor_0_r.
Qed.

Lemma notifications_new_events (t : list Event) (report : bool) (bit : unsigned) :
  forallb loop_event t = true ->
  notifications (t ++ closing_events report bit) = if report then [bit] else [].
Proof.
  intros Hev. rewrite notifications_app, (notifications_loop t Hev).
  now destruct (closing_events_read report bit) as (_ & _ & _ & ->).
Qed.

(** C2: a report that finds attributes pending already does not tell the
    engine, whatever it merges.  So of two reports in a row with non-empty
    residual masks [A1] and [A2], on an object with an instance slot and
    nothing pending, only the first tells the engine: the engine's mask
    receives the bit of the instance once, and the object ends with
    [A1 | A2] pending. *)
Theorem second_report_is_coalesced (cfg : Config) (dbg : bool) (self : pthread_t)
    (M1 M2 : unsigned) (f1 f2 f3 : option string) (l1 l2 l3 : Z) (w : World) :
  headers_ok cfg -> tame_handlers cfg ->
  reportable cfg dbg self M1 w ->
  M2 < 2 ^ ATTR_INDEX_MAX cfg ->
  f2 <> None -> l2 <> 0%Z ->
  exists w1 w2 w3,
    unlock_exclusive_attributes_body cfg dbg self M1 f1 l1 w = Ok tt w1
    /\ lock_of dbg self f2 l2 w1 = Ok tt w2
    /\ unlock_exclusive_attributes_body cfg dbg self M2 f3 l3 w2 = Ok tt w3
    /\ (mAttributesMask (object w) <> 0 ->
        engine w1 = engine w /\ notifications (new_events w w1) = [])
    /\ let A1 := N.land M1 (unot (handled (new_events w w1))) in
       let A2 := N.land M2 (unot (handled (new_events w2 w3))) in
       (mAttributesMask (object w) = 0 -> mInstanceID (object w) <> 0 ->
        A1 <> 0 -> A2 <> 0 ->
        notifications (new_events w w3) = [instance_bit (object w)]
        /\ mChangedMask (engine w3)
           = N.lor (mChangedMask (engine w)) (instance_bit (object w))
        /\ mAttributesMask (object w3) = N.lor A1 A2).
Proof.
  intros Hcfg Htame Hcall HM2 Hf2 Hl2.
  destruct (report_outcome cfg dbg self M1 f1 l1 w Hcfg Htame Hcall)
    as (row & t1 & w1 & Hrun1 & _ & Hnew1 & Htr1 & _ & _ & Hev1 & Hmask1 & Hobj1
        & Hid1 & Hdbg1 & Heng1 & Henv1).
  destruct Hcall as (Hown & Hcat & HM1 & Hid & Hcalm).
  assert (Hcalm1 : calm (env w1)) by (rewrite Henv1; now apply calm_tl).
  assert (Hfree : dbg = true -> mOwner (object w1) = 0%Z) by (intros E; now apply Hdbg1).
  pose proof (lock_calm dbg self f2 l2 w1 Hcalm1 Hfree) as Hlock.
  set (w2 := mkWorld _ _ _ _) in Hlock.
  assert (Hcall2 : reportable cfg dbg self M2 w2).
  { unfold reportable, w2. cbn [object env].
    split; [| split; [| split; [exact HM2 | split; [| now apply calm_tl]]]].
    - intros ->. repeat split; assumption.
    - rewrite <- Hcat, <- Hobj1. now destruct dbg.
    - replace (mInstanceID (if dbg then set_debug (object w1) self f2 l2 else object w1))
        with (mInstanceID (object w1)) by now destruct dbg.
      now rewrite Hid1. }
  destruct (report_outcome cfg dbg self M2 f3 l3 w2 Hcfg Htame Hcall2)
    as (row2 & t2 & w3 & Hrun2 & _ & Hnew2 & Htr2 & _ & _ & Hev2 & Hmask2 & _
        & _ & _ & Heng2 & _).
  exists w1, w2, w3. split; [exact Hrun1 |]. split; [exact Hlock |].
  split; [exact Hrun2 |].
  assert (Hmask_w2 : mAttributesMask (object w2) = mAttributesMask (object w1))
    by (unfold w2; now destruct dbg).
  split.
  - intros Hpending. rewrite Heng1, Hnew1, (notifications_new_events _ _ _ Hev1).
    unfold notified, first_update.
    apply N.eqb_neq in Hpending. rewrite Hpending, andb_false_r. now split.
  - cbn zeta. rewrite Hnew1, Hnew2, !handled_new_events.
    intros Hclean Hslot HA1 HA2.
    assert (Hn1 : notified (object w) (N.land M1 (unot (handled t1))) = true).
    { unfold notified, first_update. rewrite Hclean.
      apply N.eqb_neq in HA1, Hslot. now rewrite HA1, Hslot. }
    assert (Hm1 : mAttributesMask (object w1) = N.land M1 (unot (handled t1))).
    { now rewrite Hmask1, Hclean, N.lor_0_l. }
    assert (Hn2 : notified (object w2) (N.land M2 (unot (handled t2))) = false).
    { unfold notified, first_update. rewrite Hmask_w2, Hm1.
      apply N.eqb_neq in HA1. now rewrite HA1, andb_false_r. }
    rewrite Hn1 in Hnew1, Heng1. rewrite Hn2 in Hnew2, Heng2.
    split; [| split].
    + assert (Htrace : trace w3
                = trace w ++ new_events w w1
                    ++ [if dbg then EvMutexTrylock 0 else EvMutexLock 0]
                    ++ new_events w2 w3).
      { rewrite Htr2. unfold w2 at 1. cbn [trace]. rewrite Htr1 at 1.
        now rewrite <- !app_assoc. }
      rewrite (new_events_app w w3 _ Htrace), Hnew1, Hnew2.
      rewrite notifications_app, (notifications_new_events _ _ _ Hev1).
      rewrite notifications_app, (notifications_new_events _ _ _ Hev2).
      now destruct dbg.
    + rewrite Heng2. unfold w2. cbn [engine]. now rewrite Heng1.
    + now rewrite Hmask2, Hmask_w2, Hm1.
Qed.

(** ** The statements at the sample data *)

Ltac sample_headers :=
  unfold headers_ok; cbn; repeat split; lia.

Ltac sample_tame :=
  unfold tame_handlers, handlers_keep; cbn [handlerTable sample_config wide_config];
  unfold sample_table, wide_table; repeat split;
  (intros objectID bit handler o H;
   (destruct (_ && _) in H; [injection H as <-; reflexivity | discriminate])).

Ltac sample_call :=
  unfold reportable, owned_by; cbn; repeat split;
  first [lia | discriminate | reflexivity | constructor].

(** At the sample: of bits 2 and 5 the handler takes bit 2 and bit 5 is
    merged. *)
Lemma report_partitions_mask_sample :
  headers_ok sample_config
  /\ tame_handlers sample_config
  /\ reportable sample_config true 7%Z 36 sample_world
  /\ exists w',
       unlock_exclusive_attributes_body sample_config true 7%Z 36
         (Some "play.c"%string) 57%Z sample_world = Ok tt w'
       /\ handled (new_events sample_world w') = 4
       /\ mAttributesMask (object w') = 32
       /\ N.lor (N.land 36 4) (N.land 36 (unot 4)) = 36
       /\ N.land (N.land 36 4) (N.land 36 (unot 4)) = 0.
Proof.
  split; [sample_headers |]. split; [sample_tame |]. split; [sample_call |].
  destruct (report_partitions_mask sample_config true 7%Z 36 (Some "play.c"%string) 57%Z
              sample_world) as (w' & Hrun & Hmask & Hunion & Hdisjoint);
    [sample_headers | sample_tame | sample_call |].
  exists w'. split; [exact Hrun |].
  vm_compute in Hrun. injection Hrun as E. subst w'.
  split; [reflexivity |]. split; [exact Hmask |].
  split; [exact Hunion | exact Hdisjoint].
Defined.

(** At the sample: bits 2 and 5, then bit 1.  The engine receives the bit
    of slot 3 once, and bits 1 and 5 end up pending. *)
Lemma second_report_is_coalesced_sample :
  headers_ok sample_config
  /\ tame_handlers sample_config
  /\ reportable sample_config true 7%Z 36 sample_world
  /\ 2 < 2 ^ ATTR_INDEX_MAX sample_config
  /\ exists w1 w2 w3,
       unlock_exclusive_attributes_body sample_config true 7%Z 36
         (Some "play.c"%string) 57%Z sample_world = Ok tt w1
       /\ lock_of true 7%Z (Some "play.c"%string) 60%Z w1 = Ok tt w2
       /\ unlock_exclusive_attributes_body sample_config true 7%Z 2
            (Some "play.c"%string) 63%Z w2 = Ok tt w3
       /\ notifications (new_events sample_world w3) = [4]
       /\ mChangedMask (engine w3) = 4
       /\ mAttributesMask (object w3) = 34.
Proof.
  split; [sample_headers |]. split; [sample_tame |]. split; [sample_call |].
  split; [cbn; lia |].
  destruct (second_report_is_coalesced sample_config true 7%Z 36 2
              (Some "play.c"%string) (Some "play.c"%string) (Some "play.c"%string)
              57%Z 60%Z 63%Z sample_world)
    as (w1 & w2 & w3 & H1 & H2 & H3 & _ & Hmain);
    [sample_headers | sample_tame | sample_call | cbn; lia | discriminate | discriminate |].
  exists w1, w2, w3. split; [exact H1 |]. split; [exact H2 |]. split; [exact H3 |].
  vm_compute in H1. injection H1 as E1. subst w1.
  vm_compute in H2. injection H2 as E2. subst w2.
  vm_compute in H3. injection H3 as E3. subst w3.
  cbn zeta in Hmain.
  destruct Hmain as (Hn & He & Hm);
    [reflexivity | discriminate | vm_compute; discriminate | vm_compute; discriminate |].
  split; [exact Hn |]. split; [exact He | exact Hm].
Defined.

(** At the sample: the audio player's class ID 0x1004. *)
Lemma categories_made_contiguous_sample :
  headers_ok sample_config
  /\ (in_range_A sample_config 4100 = true ->
      contiguous_objectID sample_config 4100 sample_world = Ok 4100 sample_world)
  /\ (in_range_B sample_config 4100 = true ->
      contiguous_objectID sample_config 4100 sample_world
      = Ok (4100 - (SL_OBJECTID_ENGINE sample_config
                    - XA_OBJECTID_CAMERADEVICE sample_config - 1)) sample_world
      /\ 4100 - (SL_OBJECTID_ENGINE sample_config
                 - XA_OBJECTID_CAMERADEVICE sample_config - 1)
         = XA_OBJECTID_CAMERADEVICE sample_config + 1
           + (4100 - SL_OBJECTID_ENGINE sample_config)
      /\ 4100 - SL_OBJECTID_ENGINE sample_config
         <= SL_OBJECTID_METADATAEXTRACTOR sample_config - SL_OBJECTID_ENGINE sample_config)
  /\ (valid_category sample_config 4100 = false ->
      contiguous_objectID sample_config 4100 sample_world = Fatal sample_world
      /\ forall dbg self M file line,
           mObjectID (object sample_world) = 4100 ->
           unlock_exclusive_attributes_body sample_config dbg self M file line sample_world
           = Fatal sample_world).
Proof.
  split; [sample_headers |].
  apply (categories_made_contiguous sample_config 4100 sample_world). sample_headers.
Defined.

(** At the sample: the unlock, then the store of the bit of slot 3 under
    the engine's lock. *)
Lemma engine_told_after_unlock_sample :
  headers_ok sample_config
  /\ tame_handlers sample_config
  /\ reportable sample_config true 7%Z 36 sample_world
  /\ exists t w',
       unlock_exclusive_attributes_body sample_config true 7%Z 36
         (Some "play.c"%string) 57%Z sample_world = Ok tt w'
       /\ forallb loop_event t = true
       /\ new_events sample_world w'
          = t ++ [EvMutexUnlock 0; EvEngineLock; EvEngineChanged 4; EvEngineUnlock]
       /\ mChangedMask (engine w') = 4.
Proof.
  split; [sample_headers |]. split; [sample_tame |]. split; [sample_call |].
  destruct (engine_told_after_unlock sample_config true 7%Z 36 (Some "play.c"%string) 57%Z
              sample_world) as (t & w' & Hrun & Hev & Hend);
    [sample_headers | sample_tame | sample_call |].
  exists t, w'. split; [exact Hrun |]. split; [exact Hev |].
  vm_compute in Hrun. injection Hrun as E. subst w'.
  cbn zeta in Hend.
  destruct (negb (N.land 36 (unot (handled t)) =? 0)
            && (mAttributesMask (object sample_world) =? 0)
            && negb (mInstanceID (object sample_world) =? 0)).
  - destruct Hend as (Hnew & Heng & _). split; [exact Hnew | reflexivity].
  - destruct Hend as (_ & Heng). discriminate Heng.
Defined.

(** At the sample: the mask of bits 2 and 5 in the audio player's row. *)
Lemma dispatch_runs_once_per_set_bit_sample :
  ATTR_INDEX_MAX sample_config <= 32
  /\ 36 < 2 ^ ATTR_INDEX_MAX sample_config
  /\ exists A w',
       dispatch_attributes sample_config 13 36 36 sample_world = Ok A w'
       /\ let bits := scanned (new_events sample_world w') in
          bits = set_bits 36
          /\ List.length bits = popcount 36
          /\ StronglySorted N.lt bits
          /\ NoDup bits
          /\ (forall k, In k bits <-> N.testbit 36 k = true)
          /\ handler_calls (new_events sample_world w')
             = map (pair 13) (filter (has_handler sample_config 13) bits)
          /\ NoDup (handler_calls (new_events sample_world w')).
Proof.
  split; [cbn; lia |]. split; [cbn; lia |].
  apply (dispatch_runs_once_per_set_bit sample_config 13 36 sample_world); cbn; lia.
Defined.

(** At the sample: the report of bits 2 and 5. *)
Lemma masks_only_grow_sample :
  handlers_keep sample_config mAttributesMask
  /\ env_keeps mAttributesMask (env sample_world)
  /\ let w' := world_of (run sample_config
                           (unlock_exclusive_attributes_ 7%Z 36 (Some "play.c"%string) 57%Z)
                           sample_world) in
     grows (mAttributesMask (object sample_world)) (mAttributesMask (object w'))
     /\ grows (mChangedMask (engine sample_world)) (mChangedMask (engine w'))
     /\ mAttributesMask (object w')
        = N.lor (mAttributesMask (object sample_world)) (mAttributesMask (object w'))
     /\ mChangedMask (engine w')
        = N.lor (mChangedMask (engine sample_world)) (mChangedMask (engine w')).
Proof.
  assert (Hh : handlers_keep sample_config mAttributesMask).
  { unfold handlers_keep; cbn [handlerTable sample_config]; unfold sample_table.
    intros objectID bit handler o H.
    destruct (_ && _) in H; [injection H as <-; reflexivity | discriminate]. }
  split; [exact Hh |]. split; [constructor |].
  apply (masks_only_grow sample_config
           (unlock_exclusive_attributes_ 7%Z 36 (Some "play.c"%string) 57%Z) sample_world);
    [exact Hh | constructor].
Defined.

(** At the sample: thread 7 holds the lock and asks for it again, on a
    mutex that is granted to it at the seventh attempt. *)
Lemma recursive_lock_is_never_granted_sample :
  mOwner (object contended_world) <> 0%Z
  /\ env_keeps mOwner (env contended_world)
  /\ exists cs w',
       Forall (fun c => c <> 0%Z) cs
       /\ mOwner (object w') = mOwner (object contended_world)
       /\ (((List.length cs <= 5)%nat
            /\ object_lock_exclusive_ 7%Z (Some "play.c"%string) 70%Z contended_world
               = Fatal w'
            /\ new_events contended_world w'
               = attempts (cs ++ [0%Z])
                 ++ [EvLogE (misuse 7%Z (Some "play.c"%string) 70%Z (object w'))])
           \/ (List.length cs = 6%nat
               /\ exists ofile oline e,
                    new_events contended_world w'
                    = attempts cs
                      ++ EvLogW (was_locked_by (Some "play.c"%string) 70%Z
                                   (mOwner (object contended_world)) ofile oline)
                      :: e
                    /\ ((e = [EvMutexLock 0;
                              EvLogE (misuse 7%Z (Some "play.c"%string) 70%Z (object w'))]
                         /\ object_lock_exclusive_ 7%Z (Some "play.c"%string) 70%Z
                              contended_world = Fatal w')
                        \/ (exists c, c <> 0%Z /\ e = [EvMutexLock c]
                                      /\ object_lock_exclusive_ 7%Z (Some "play.c"%string)
                                           70%Z contended_world = Fatal w')
                        \/ (e = [EvMutexLockBlocked]
                            /\ object_lock_exclusive_ 7%Z (Some "play.c"%string) 70%Z
                                 contended_world = Blocked w')))).
Proof.
  assert (Ho : mOwner (object contended_world) <> 0%Z) by (cbn; discriminate).
  assert (He : env_keeps mOwner (env contended_world)).
  { unfold env_keeps. cbn. repeat constructor. }
  split; [exact Ho |]. split; [exact He |].
  exact (recursive_lock_is_never_granted 7%Z (Some "play.c"%string) 70%Z
           contended_world Ho He).
Defined.

(** The claim as it was stated fails where the mutex is never acquired:
    thread 7 holds a mutex of the default type and asks for it again.  The
    six [trylock] calls fail, the call warns and enters
    [pthread_mutex_lock], and stays there: no error is logged and no
    assertion fails. *)
Lemma recursive_lock_can_block :
  mOwner (object deadlocked_world) = 7%Z
  /\ object_lock_exclusive_ 7%Z (Some "play.c"%string) 70%Z deadlocked_world
     = Blocked
         (mkWorld sample_object (mkIEngine 0) [stuck]
            [EvMutexTrylock 16;
             EvUsleep 1; EvMutexTrylock 16; EvUsleep 10000; EvMutexTrylock 16;
             EvUsleep 20000; EvMutexTrylock 16; EvUsleep 30000; EvMutexTrylock 16;
             EvUsleep 40000; EvMutexTrylock 16;
             EvLogW (was_locked_by (Some "play.c"%string) 70%Z 7%Z
                       (Some "play.c"%string) 42%Z);
             EvMutexLockBlocked])
  /\ errors (trace (world_of (object_lock_exclusive_ 7%Z (Some "play.c"%string) 70%Z
                                deadlocked_world))) = 0%nat.
Proof. split; [reflexivity |]. split; reflexivity. Qed.

(** At the sample: while thread 7 waits, another thread takes the object,
    empties its mask and releases it; on return thread 7 owns it again. *)
Lemma cond_wait_clears_and_restores_owner_sample :
  owned_by 7%Z (object waiting_world)
  /\ exists suspended w',
       object_cond_wait_ 7%Z (Some "wait.c"%string) 21%Z waiting_world = Ok tt w'
       /\ trace w' = trace waiting_world ++ [EvCondWait suspended 0]
       /\ mOwner suspended = 0%Z
       /\ mOwner (object w') = 7%Z
       /\ mFile (object w') = Some "wait.c"%string
       /\ mLine (object w') = 21%Z.
Proof.
  assert (Ho : owned_by 7%Z (object waiting_world)).
  { unfold owned_by. cbn. repeat split; discriminate. }
  split; [exact Ho |].
  destruct (cond_wait_clears_and_restores_owner 7%Z (Some "wait.c"%string) 21%Z
              waiting_world Ho)
    as (suspended & r & w' & Ht & _ & Hs & [(Hr & Hrun & H1 & H2 & H3) | (Hr & Hrun)]).
  - subst r. exists suspended, w'. repeat split; assumption.
  - exfalso. vm_compute in Hrun. discriminate Hrun.
Defined.

(** At the sample with the handler of bit 0 that returns bits 0 and 1: bit
    1 is scanned, but neither bit is merged and the engine is not told. *)
Lemma handler_result_applied_whole_sample :
  headers_ok wide_config
  /\ tame_handlers wide_config
  /\ reportable wide_config true 7%Z 3 sample_world
  /\ exists w',
       unlock_exclusive_attributes_body wide_config true 7%Z 3
         (Some "play.c"%string) 57%Z sample_world = Ok tt w'
       /\ handled (new_events sample_world w') = 3
       /\ scanned (new_events sample_world w') = [0; 1]
       /\ mAttributesMask (object w') = 0
       /\ engine w' = engine sample_world
       /\ notifications (new_events sample_world w') = [].
Proof.
  split; [sample_headers |]. split; [sample_tame |]. split; [sample_call |].
  destruct (handler_result_applied_whole wide_config true 7%Z 3 (Some "play.c"%string) 57%Z
              sample_world) as (_ & w' & Hrun & Hscan & Hmask & _ & Hnone);
    [sample_headers | sample_tame | sample_call |].
  exists w'. split; [exact Hrun |].
  vm_compute in Hrun. injection Hrun as E. subst w'.
  destruct Hnone as (Heng & Hnot); [reflexivity |].
  split; [reflexivity |]. split; [exact Hscan |]. split; [exact Hmask |].
  split; [exact Heng | exact Hnot].
Defined.

(** At the sample: the audio player, whose class ID is in the SL range. *)
Lemma empty_report_is_unlock_sample :
  valid_category sample_config (mObjectID (object sample_world)) = true
  /\ unlock_exclusive_attributes_body sample_config true 7%Z 0
       (Some "play.c"%string) 57%Z sample_world
     = unlock_of true 7%Z (Some "play.c"%string) 57%Z sample_world.
Proof.
  split; [reflexivity |].
  apply (empty_report_is_unlock sample_config true 7%Z (Some "play.c"%string) 57%Z
           sample_world).
  reflexivity.
Defined.

(** ** The sample runs, evaluated *)

(** The report of bits 2 and 5 by the audio player: its handler takes bit 2,
    bit 5 is left pending, and the engine is told once, after the unlock,
    with the bit of instance slot 3. *)
Example sample_report :
  object_unlock_exclusive_attributes_ sample_config 7%Z 36
    (Some "play.c"%string) 57%Z sample_world
  = Ok tt
      (mkWorld (mkIObject 4100 0%Z (Some "play.c"%string) 57%Z 32 3)
         (mkIEngine 4) []
         [EvScan 13 2; EvHandler 13 2 4; EvScan 13 5; EvMutexUnlock 0;
          EvEngineLock; EvEngineChanged 4; EvEngineUnlock]).
Proof. reflexivity. Qed.

(** The report of bit 1 that follows: bits 1 and 5 are pending and the
    engine is not told again. *)
Example sample_second_report :
  (object_unlock_exclusive_attributes_ sample_config 7%Z 36 (Some "play.c"%string) 57%Z ;;
   object_lock_exclusive_ 7%Z (Some "play.c"%string) 60%Z ;;
   object_unlock_exclusive_attributes_ sample_config 7%Z 2 (Some "play.c"%string) 63%Z)
    sample_world
  = Ok tt
      (mkWorld (mkIObject 4100 0%Z (Some "play.c"%string) 63%Z 34 3)
         (mkIEngine 4) []
         [EvScan 13 2; EvHandler 13 2 4; EvScan 13 5; EvMutexUnlock 0;
          EvEngineLock; EvEngineChanged 4; EvEngineUnlock;
          EvMutexTrylock 0; EvScan 13 1; EvMutexUnlock 0]).
Proof. reflexivity. Qed.

(** A handler for bit 0 that returns bits 0 and 1: bit 1 is scanned all the
    same, nothing is left pending and the engine is not told. *)
Example wide_report :
  object_unlock_exclusive_attributes_ wide_config 7%Z 3
    (Some "play.c"%string) 57%Z sample_world
  = Ok tt
      (mkWorld (mkIObject 4100 0%Z (Some "play.c"%string) 57%Z 0 3)
         (mkIEngine 0) []
         [EvScan 13 0; EvHandler 13 0 3; EvScan 13 1; EvMutexUnlock 0]).
Proof. reflexivity. Qed.

(** A mask with a bit that is no attribute index stops the report at the
    assertion of the loop. *)
Example stray_bit_report :
  object_unlock_exclusive_attributes_ sample_config 7%Z 256
    (Some "play.c"%string) 57%Z sample_world
  = Fatal (mkWorld sample_object (mkIEngine 0) [] [EvScan 13 8]).
Proof. reflexivity. Qed.

(** The thread that holds the lock asks for it again: five backoffs, the
    warning, and once the mutex is granted the error and the failed
    assertion. *)
Example contended_recursive_lock :
  object_lock_exclusive_ 7%Z (Some "play.c"%string) 70%Z contended_world
  = Fatal
      (mkWorld sample_object (mkIEngine 0) []
         [EvMutexTrylock 16;
          EvUsleep 1; EvMutexTrylock 16; EvUsleep 10000; EvMutexTrylock 16;
          EvUsleep 20000; EvMutexTrylock 16; EvUsleep 30000; EvMutexTrylock 16;
          EvUsleep 40000; EvMutexTrylock 16;
          EvLogW (was_locked_by (Some "play.c"%string) 70%Z 7%Z
                    (Some "play.c"%string) 42%Z);
          EvMutexLock 0;
          EvLogE (was_recursively_locked_by (Some "play.c"%string) 70%Z 7%Z
                    (Some "play.c"%string) 42%Z)]).
Proof. reflexivity. Qed.

(** The wait during which another thread took, emptied and released the
    object. *)
Example sample_wait :
  object_cond_wait_ 7%Z (Some "wait.c"%string) 21%Z waiting_world
  = Ok tt
      (mkWorld (mkIObject 4100 7%Z (Some "wait.c"%string) 21%Z 0 3)
         (mkIEngine 0) []
         [EvCondWait (mkIObject 4100 0%Z (Some "wait.c"%string) 21%Z 0 3) 0]).
Proof. reflexivity. Qed.

(** * Further properties *)

(** ** Calls by a thread that does not hold the lock *)

Lemma assert_owned_Ok (self : pthread_t) (w w' : World) :
  assert_owned self w = Ok tt w' -> owned_by self (object w).
Proof.
  unfold assert_owned, bind, get_object, assert, pthread_equal, owned_by.
  destruct (Z.eqb_spec self (mOwner (object w))) as [E | E]; [| discriminate].
  destruct (mFile (object w)) as [f |]; [| discriminate].
  destruct (Z.eqb_spec 0 (mLine (object w))) as [El | El]; [discriminate |].
  intros _. repeat split; congruence.
Qed.

Lemma assert_owned_Fatal (self : pthread_t) (w : World) :
  ~ owned_by self (object w) -> assert_owned self w = Fatal w.
Proof.
  intros H. destruct (assert_owned_result self w) as [E | E]; [| exact E].
  exfalso. apply H. now apply (assert_owned_Ok self w w).
Qed.

(** X1: In the debug build, unlocking, reporting or waiting on an object whose
    debug record does not name the calling thread (another owner, no owner,
    or no recorded site) stops at the first assertion, before anything is
    done: no handler has run, nothing is merged, and the mutex has not been
    touched. *)
Theorem unowned_call_is_fatal (cfg : Config) (self : pthread_t) (M : unsigned)
    (file : option string) (line : Z) (w : World) :
  ~ owned_by self (object w) ->
  object_unlock_exclusive_ self file line w = Fatal w
  /\ object_unlock_exclusive_attributes_ cfg self M file line w = Fatal w
  /\ object_cond_wait_ self file line w = Fatal w.
Proof.
  intros H. pose proof (assert_owned_Fatal self w H) as E.
  split; [| split].
  - unfold object_unlock_exclusive_. now apply bind_Fatal.
  - unfold object_unlock_exclusive_attributes_. rewrite body_after_dispatch.
    now apply bind_Fatal.
  - unfold object_cond_wait_. now apply bind_Fatal.
Qed.

Lemma unlock_keeps {T : Type} (f : IObject -> T) (w : World) :
  env_keeps f (env w) ->
  exists r w',
    pthread_mutex_unlock w = Ok r w'
    /\ f (object w') = f (object w)
    /\ env_keeps f (env w')
    /\ trace w' = trace w ++ [EvMutexUnlock r]
    /\ engine w' = engine w.
Proof.
  intros H. destruct (environment_keeps f w H) as (r & w1 & Hrun & Hf & Henv & Ht & He).
  exists r, (add_event w1 (EvMutexUnlock r)). unfold pthread_mutex_unlock.
  rewrite (bind_Ok _ _ _ _ _ Hrun). split; [reflexivity |].
  cbn. rewrite Ht. repeat split; assumption.
Qed.

(** X2: In the debug build a second unlock by the thread that has just unlocked
    the object stops at the assertion, and does not unlock the mutex
    again. *)
Theorem double_unlock_is_fatal (self : pthread_t) (f1 f2 : option string)
    (l1 l2 : Z) (w w1 : World) :
  self <> 0%Z ->
  env_keeps mOwner (env w) ->
  object_unlock_exclusive_ self f1 l1 w = Ok tt w1 ->
  object_unlock_exclusive_ self f2 l2 w1 = Fatal w1
  /\ unlocks (new_events w w1) = 1%nat.
Proof.
  intros Hself Henv Hrun.
  assert (Hown : owned_by self (object w)).
  { unfold object_unlock_exclusive_ in Hrun.
    destruct (assert_owned_result self w) as [E | E].
    - now apply (assert_owned_Ok self w w).
    - rewrite (bind_Fatal _ _ _ _ E) in Hrun. discriminate. }
  unfold object_unlock_exclusive_ in Hrun.
  rewrite (bind_Ok _ _ _ _ _ (assert_owned_ok self w Hown)) in Hrun.
  rewrite (bind_Ok (clear_owner f1 l1) _ w
             (set_object w (set_debug (object w) 0%Z f1 l1)) tt eq_refl) in Hrun.
  destruct (unlock_keeps mOwner (set_object w (set_debug (object w) 0%Z f1 l1)) Henv)
    as (r & w2 & Hun & Hown2 & _ & Ht & _).
  rewrite (bind_Ok _ _ _ _ _ Hun) in Hrun. unfold assert in Hrun.
  destruct (0 =? r)%Z; [| discriminate]. injection Hrun as <-.
  cbn [object set_object set_debug mOwner] in Hown2. cbn [trace set_object] in Ht.
  split.
  - unfold object_unlock_exclusive_. apply bind_Fatal, assert_owned_Fatal.
    intros (Ho & _). congruence.
  - rewrite (new_events_app w w2 _ Ht). reflexivity.
Qed.

(** ** Lock, unlock, lock again *)

Lemma set_debug_twice (o : IObject) (a b : pthread_t) (f g : option string)
    (l m : Z) :
  set_debug (set_debug o a f l) b g m = set_debug o b g m.
Proof. reflexivity. Qed.

Lemma unlock_debug_calm (self : pthread_t) (file : option string) (line : Z)
    (w : World) :
  owned_by self (object w) -> calm (env w) ->
  object_unlock_exclusive_ self file line w
  = Ok tt (mkWorld (set_debug (object w) 0%Z file line) (engine w) (tl (env w))
             (trace w ++ [EvMutexUnlock 0])).
Proof.
  intros Hown Hcalm. unfold object_unlock_exclusive_.
  rewrite (bind_Ok _ _ _ _ _ (assert_owned_ok self w Hown)).
  rewrite (bind_Ok (clear_owner file line) _ w
             (set_object w (set_debug (object w) 0%Z file line)) tt eq_refl).
  rewrite (bind_Ok _ _ _ _ _
             (unlock_calm (set_object w (set_debug (object w) 0%Z file line)) Hcalm)).
  reflexivity.
Qed.

(** X3: In the debug build, on an object nobody holds and with the primitives
    succeeding: a lock from a real call site followed by an unlock returns,
    having made one [trylock] and one [unlock]; it leaves the object unowned,
    with the unlock site recorded and everything else as it was; and the next
    lock, by any thread, is granted. *)
Theorem lock_unlock_lock (self other : pthread_t) (f1 f2 f3 : option string)
    (l1 l2 l3 : Z) (w : World) :
  mOwner (object w) = 0%Z -> calm (env w) -> f1 <> None -> l1 <> 0%Z ->
  exists w1 w2,
    (object_lock_exclusive_ self f1 l1 ;; object_unlock_exclusive_ self f2 l2) w
    = Ok tt w1
    /\ object w1 = set_debug (object w) 0%Z f2 l2
    /\ engine w1 = engine w
    /\ new_events w w1 = [EvMutexTrylock 0; EvMutexUnlock 0]
    /\ object_lock_exclusive_ other f3 l3 w1 = Ok tt w2
    /\ object w2 = set_debug (object w) other f3 l3.
Proof.
  intros Hfree Hcalm Hf Hl.
  pose proof (lock_calm true self f1 l1 w Hcalm (fun _ => Hfree)) as Hlock.
  cbn [lock_of] in Hlock. set (wl := mkWorld _ _ _ _) in Hlock.
  assert (Hown : owned_by self (object wl)) by (repeat split; assumption).
  assert (Hcalm1 : calm (env wl)) by (now apply calm_tl).
  pose proof (unlock_debug_calm self f2 l2 wl Hown Hcalm1) as Hunlock.
  set (w1 := mkWorld _ _ _ _) in Hunlock.
  assert (Hcalm2 : calm (env w1)) by (now apply calm_tl).
  pose proof (lock_calm true other f3 l3 w1 Hcalm2 (fun _ => eq_refl)) as Hlock2.
  cbn [lock_of] in Hlock2.
  eexists w1, _. split; [now rewrite (bind_Ok _ _ _ _ _ Hlock) |].
  split; [reflexivity |]. split; [reflexivity |].
  split; [apply new_events_app; unfold w1, wl; cbn [trace]; now rewrite <- app_assoc |].
  split; [exact Hlock2 | reflexivity].
Qed.

(** ** The backoff of the debug lock *)

Lemma env_keeps_unit (l : list EnvStep) : env_keeps (fun _ : IObject => tt) l.
Proof. apply Forall_forall. reflexivity. Qed.

Lemma slept_app (t1 t2 : list Event) : slept (t1 ++ t2) = (slept t1 + slept t2)%Z.
Proof.
  induction t1 as [| e t1 IH]; [reflexivity |].
  destruct e; cbn [app slept]; try exact IH. rewrite IH. lia.
Qed.

Lemma trylocks_app (t1 t2 : list Event) :
  trylocks (t1 ++ t2) = (trylocks t1 + trylocks t2)%nat.
Proof.
  induction t1 as [| e t1 IH]; [reflexivity |].
  destruct e; cbn [app trylocks]; try exact IH. now rewrite IH.
Qed.

Lemma blocking_locks_app (t1 t2 : list Event) :
  blocking_locks (t1 ++ t2) = (blocking_locks t1 + blocking_locks t2)%nat.
Proof.
  induction t1 as [| e t1 IH]; [reflexivity |].
  destruct e; cbn [app blocking_locks]; try exact IH; now rewrite IH.
Qed.

Lemma warnings_app (t1 t2 : list Event) :
  warnings (t1 ++ t2) = (warnings t1 + warnings t2)%nat.
Proof.
  induction t1 as [| e t1 IH]; [reflexivity |].
  destruct e; cbn [app warnings]; try exact IH. now rewrite IH.
Qed.

Lemma world_of_bind {A B : Type} (m : M A) (k : A -> M B) (w : World) :
  world_of (bind m k w)
  = match m w with
    | Ok a w1 => world_of (k a w1)
    | Fatal w1 => w1
    | Blocked w1 => w1
    end.
Proof. unfold bind. now destruct (m w). Qed.

(** What the backoff loop does, whatever the primitives return: at most one
    [trylock] per backoff, each after its sleep; the blocking lock only after
    the warning, and both only when every [trylock] has failed. *)
Lemma lock_backoff_trace (file : option string) (line : Z) (bs : list Z) :
  Forall (fun b => 0 <= b)%Z bs ->
  forall w, exists t,
    trace (world_of (lock_backoff bs file line w)) = trace w ++ t
    /\ (trylocks t <= List.length bs)%nat
    /\ (0 <= slept t <= fold_right Z.add 0 bs)%Z
    /\ blocking_locks t = warnings t
    /\ (warnings t <= 1)%nat
    /\ (warnings t = 1%nat ->
        trylocks t = List.length bs /\ slept t = fold_right Z.add 0%Z bs).
Proof.
  induction 1 as [| b rest Hb Hrest IH]; intros w.
  - exists []. cbn. rewrite app_nil_r. repeat split; lia.
  - assert (Hsum : (0 <= fold_right Z.add 0 rest)%Z).
    { clear IH. induction Hrest as [| x l Hx _ IHl]; cbn; lia. }
    cbn [lock_backoff]. rewrite world_of_bind.
    change (usleep b w) with (Ok tt (add_event w (EvUsleep b))). cbn match.
    rewrite world_of_bind.
    destruct (trylock_keeps (fun _ => tt) (add_event w (EvUsleep b)) (env_keeps_unit _))
      as (r & w1 & Hrun & _ & _ & Ht1 & _).
    rewrite Hrun. cbn [trace add_event] in Ht1. rewrite <- app_assoc in Ht1.
    destruct (0 =? r)%Z.
    + exists [EvUsleep b; EvMutexTrylock r]. cbn [world_of ret].
      split; [exact Ht1 |]. cbn. repeat split; lia.
    + destruct rest as [| b' rest'].
      * rewrite world_of_bind. cbn [get_object]. rewrite world_of_bind.
        set (msg := was_locked_by _ _ _ _ _).
        change (SL_LOGW msg w1) with (Ok tt (add_event w1 (EvLogW msg))). cbn match.
        rewrite world_of_bind.
        destruct (lock_keeps (fun _ => tt) (add_event w1 (EvLogW msg)) (env_keeps_unit _))
          as [(r2 & w2 & Hrun2 & _ & _ & Ht2 & _) | Hblocked].
        -- rewrite Hrun2. cbn [trace add_event] in Ht2.
           rewrite Ht1, <- app_assoc in Ht2.
           exists [EvUsleep b; EvMutexTrylock r; EvLogW msg; EvMutexLock r2].
           split.
           { unfold assert.
             destruct (0 =? r2)%Z; cbn [world_of]; rewrite Ht2, <- !app_assoc;
               reflexivity. }
           cbn. repeat split; lia.
        -- rewrite Hblocked.
           exists [EvUsleep b; EvMutexTrylock r; EvLogW msg; EvMutexLockBlocked].
           split; [cbn [trace add_event]; rewrite Ht1, <- !app_assoc; reflexivity |].
           cbn. repeat split; lia.
      * destruct (IH w1) as (t & Ht & Htry & Hslept & Hlock & Hwarn & Hall).
        exists (EvUsleep b :: EvMutexTrylock r :: t). split.
        { rewrite Ht, Ht1, <- app_assoc. reflexivity. }
        cbn [trylocks slept blocking_locks warnings List.length fold_right] in *.
        repeat split; lia.
Qed.

(** X4: The debug lock is bounded, whatever the primitives return and whatever
    the other threads do: it makes at most six [trylock] calls and sleeps at
    most 100001 microseconds in all (the "up to 100 ms" of the source); it
    falls back on the blocking [pthread_mutex_lock] at most once, exactly
    when it has logged the contention warning, and then all six [trylock]
    calls and all five sleeps have been made. *)
Theorem debug_lock_backoff_is_bounded (self : pthread_t) (file : option string)
    (line : Z) (w : World) :
  let t := new_events w (world_of (object_lock_exclusive_ self file line w)) in
  (trylocks t <= 6)%nat
  /\ (0 <= slept t <= 100001)%Z
  /\ blocking_locks t = warnings t
  /\ (warnings t <= 1)%nat
  /\ (warnings t = 1%nat -> trylocks t = 6%nat /\ slept t = 100001%Z).
Proof.
  assert (Hcheck : forall w1,
            exists e, trace (world_of
                        ((o <- get_object ;;
                          (if negb (0 =? mOwner o)%Z then
                             (if pthread_equal self (mOwner o) then
                                SL_LOGE (was_recursively_locked_by file line
                                           (mOwner o) (mFile o) (mLine o))
                              else
                                SL_LOGE (was_left_unlocked_in_unexpected_state_by file line
                                           (mOwner o) (mFile o) (mLine o))) ;;
                             assert false
                           else ret tt) ;;
                          o <- get_object ;;
                          put_object (set_debug o self file line)) w1))
                      = trace w1 ++ e
                      /\ trylocks e = 0%nat /\ slept e = 0%Z
                      /\ blocking_locks e = 0%nat /\ warnings e = 0%nat).
  { intros w1. unfold bind, get_object, SL_LOGE, emit, assert, ret, put_object.
    destruct (negb (0 =? mOwner (object w1))%Z).
    - destruct (pthread_equal self (mOwner (object w1))); cbn [world_of trace add_event];
        eexists [_]; repeat split.
    - exists []. cbn. rewrite app_nil_r. repeat split. }
  cbn zeta. unfold object_lock_exclusive_. rewrite world_of_bind.
  destruct (trylock_keeps (fun _ => tt) w (env_keeps_unit _))
    as (r & w0 & Hrun & _ & _ & Ht0 & _).
  rewrite Hrun. destruct (0 =? r)%Z; cbn [negb].
  - rewrite world_of_bind. cbn [ret]. destruct (Hcheck w0) as (e & He & H1 & H2 & H3 & H4).
    rewrite (new_events_app w _ ([EvMutexTrylock r] ++ e));
      [| rewrite He, Ht0, <- app_assoc; reflexivity].
    rewrite trylocks_app, slept_app, blocking_locks_app, warnings_app, H1, H2, H3, H4.
    cbn. repeat split; lia.
  - rewrite world_of_bind.
    assert (Hbs : Forall (fun b => 0 <= b)%Z backoffs).
    { unfold backoffs. repeat constructor; lia. }
    destruct (lock_backoff_trace file line backoffs Hbs w0)
      as (t & Ht & Htry & Hslept & Hlock & Hwarn & Hall).
    cbn [List.length backoffs fold_right] in Htry, Hslept, Hall.
    assert (Hsum : (1 + (10000 + (20000 + (30000 + (40000 + 0)))) = 100001)%Z) by lia.
    destruct (lock_backoff backoffs file line w0) as [[] w1 | w1 | w1];
      cbn [world_of] in Ht.
    + destruct (Hcheck w1) as (e & He & H1 & H2 & H3 & H4).
      rewrite (new_events_app w _ ([EvMutexTrylock r] ++ t ++ e));
        [| rewrite He, Ht, Ht0, <- !app_assoc; reflexivity].
      rewrite !trylocks_app, !slept_app, !blocking_locks_app, !warnings_app,
        H1, H2, H3, H4.
      cbn [trylocks slept blocking_locks warnings]. repeat split; lia.
    + rewrite (new_events_app w _ ([EvMutexTrylock r] ++ t));
        [| rewrite Ht, Ht0, <- !app_assoc; reflexivity].
      rewrite !trylocks_app, !slept_app, !blocking_locks_app, !warnings_app.
      cbn [trylocks slept blocking_locks warnings]. repeat split; lia.
    + rewrite (new_events_app w _ ([EvMutexTrylock r] ++ t));
        [| rewrite Ht, Ht0, <- !app_assoc; reflexivity].
      rewrite !trylocks_app, !slept_app, !blocking_locks_app, !warnings_app.
      cbn [trylocks slept blocking_locks warnings]. repeat split; lia.
Qed.

(** ** When the debug lock returns *)

(** X5: Whenever the debug lock returns, whatever the environment: the
    mutex was acquired, by one of the six [trylock] calls or by the
    [pthread_mutex_lock] that follows the warning, and nothing else was
    called; the object as the call found it once it had the mutex, with
    all that the other threads did to it during the calls made, had a
    zeroed owner; the object returned is that object with the calling thread
    and the call site as its debug record, and the engine is untouched. *)
Theorem debug_lock_returns_owned (self : pthread_t) (file : option string)
    (line : Z) (w w' : World) :
  object_lock_exclusive_ self file line w = Ok tt w' ->
  exists used cs,
    env w = used ++ env w'
    /\ mOwner (interfered used (object w)) = 0%Z
    /\ object w' = set_debug (interfered used (object w)) self file line
    /\ engine w' = engine w
    /\ Forall (fun c => c <> 0%Z) cs
    /\ (((List.length cs <= 5)%nat /\ new_events w w' = attempts (cs ++ [0%Z]))
        \/ (List.length cs = 6%nat
            /\ exists m, new_events w w' = attempts cs ++ [EvLogW m; EvMutexLock 0])).
Proof.
  intros Hret.
  assert (Hgranted : forall w1 used t,
            reached w used t w1 ->
            after_acquisition self file line w1 = Ok tt w' ->
            env w = used ++ env w'
            /\ mOwner (interfered used (object w)) = 0%Z
            /\ object w' = set_debug (interfered used (object w)) self file line
            /\ engine w' = engine w
            /\ new_events w w' = t).
  { intros w1 used t (Henv & Hobj & Heng & Htr) Hrun.
    rewrite after_acquisition_run in Hrun.
    destruct (Z.eqb_spec 0 (mOwner (object w1))) as [E | E]; [| discriminate].
    injection Hrun as <-. cbn [set_object env object engine]. rewrite <- Hobj.
    split; [exact Henv |]. split; [now symmetry |]. split; [reflexivity |].
    split; [exact Heng |]. now apply new_events_app. }
  destruct (debug_lock_run self file line w)
    as (cs & used & t & w1 & R & Hcs
        & [(Hlen & Ht & Hrun) | (Hlen & o6 & u6 & r6 & e & _ & _ & Ht & Hend)]).
  - rewrite Hrun in Hret.
    destruct (Hgranted w1 used t R Hret) as (H1 & H2 & H3 & H4 & H5).
    exists used, cs. do 4 (split; [assumption |]). split; [exact Hcs |].
    left. split; [exact Hlen |]. now rewrite H5.
  - destruct Hend as [(He & Hres) | [(c & _ & _ & Hres) | (_ & Hres)]];
      [| congruence | congruence].
    rewrite Hres in Hret.
    destruct (Hgranted w1 used t R Hret) as (H1 & H2 & H3 & H4 & H5).
    exists used, cs. do 4 (split; [assumption |]). split; [exact Hcs |].
    right. split; [exact Hlen |]. eexists. rewrite H5, Ht, He. reflexivity.
Qed.

(** ** A lock released within the backoffs *)

Lemma trylock_step (s : EnvStep) (rest : list EnvStep) (w : World) :
  env w = s :: rest ->
  pthread_mutex_trylock w
  = Ok (ret_code s)
      (mkWorld (interfere s (object w)) (engine w) rest
         (trace w ++ [EvMutexTrylock (ret_code s)])).
Proof.
  intros E. unfold pthread_mutex_trylock, bind, environment. rewrite E. reflexivity.
Qed.

Lemma lock_backoff_granted (file : option string) (line : Z) (s : EnvStep)
    (rest : list EnvStep) (fails : list EnvStep) :
  ret_code s = 0%Z ->
  Forall (fun x => ret_code x <> 0%Z) fails ->
  forall bs w,
    (List.length fails < List.length bs)%nat ->
    env w = fails ++ s :: rest ->
    exists t,
      lock_backoff bs file line w
      = Ok tt (mkWorld (interfered (fails ++ [s]) (object w)) (engine w) rest
                 (trace w ++ t))
      /\ trylocks t = S (List.length fails)
      /\ slept t = fold_right Z.add 0%Z (firstn (S (List.length fails)) bs)
      /\ blocking_locks t = 0%nat
      /\ warnings t = 0%nat.
Proof.
  intros Hs. induction 1 as [| x fails Hx Hfails IH]; intros bs w Hlen Henv.
  - destruct bs as [| b bs]; [cbn in Hlen; lia |]. cbn [app] in Henv.
    cbn [lock_backoff].
    rewrite (bind_Ok (usleep b) _ w (add_event w (EvUsleep b)) tt eq_refl).
    rewrite (bind_Ok _ _ _ _ _ (trylock_step s rest (add_event w (EvUsleep b)) Henv)).
    rewrite Hs. cbn [Z.eqb]. exists [EvUsleep b; EvMutexTrylock 0].
    cbn [object engine trace add_event]. rewrite <- app_assoc.
    split; [reflexivity |]. cbn. repeat split; lia.
  - destruct bs as [| b bs]; [cbn in Hlen; lia |].
    cbn [app] in Henv. cbn [lock_backoff].
    rewrite (bind_Ok (usleep b) _ w (add_event w (EvUsleep b)) tt eq_refl).
    rewrite (bind_Ok _ _ _ _ _
               (trylock_step x (fails ++ s :: rest) (add_event w (EvUsleep b)) Henv)).
    replace (0 =? ret_code x)%Z with false by (symmetry; apply Z.eqb_neq; congruence).
    destruct bs as [| b' bs]; [cbn in Hlen; lia |].
    set (w1 := mkWorld (interfere x _) _ _ _).
    destruct (IH (b' :: bs) w1) as (t & Hrun & H1 & H2 & H3 & H4);
      [cbn in Hlen |- *; lia | reflexivity |].
    exists (EvUsleep b :: EvMutexTrylock (ret_code x) :: t).
    rewrite Hrun. unfold w1. cbn [object engine trace add_event].
    rewrite <- !app_assoc. split; [reflexivity |].
    cbn [trylocks slept blocking_locks warnings List.length].
    rewrite H1, H2, H3, H4. cbn [firstn fold_right]. repeat split.
Qed.

(** X6: A contended debug lock that meets the mutex free at one of its six
    [trylock] calls (the first [k <= 5] fail, the next returns 0), with the
    owner field zeroed by then as the releasing thread leaves it: the lock
    returns with the caller recorded as owner of the object as the other
    threads left it; it has made [k + 1] [trylock] calls, slept the first
    [k] backoffs, logged no warning and never called the blocking
    [pthread_mutex_lock]. *)
Theorem lock_granted_within_backoffs (self : pthread_t) (file : option string)
    (line : Z) (fails : list EnvStep) (s : EnvStep) (rest : list EnvStep)
    (w : World) :
  env w = fails ++ s :: rest ->
  Forall (fun x => ret_code x <> 0%Z) fails ->
  (List.length fails <= 5)%nat ->
  ret_code s = 0%Z ->
  mOwner (interfered (fails ++ [s]) (object w)) = 0%Z ->
  exists w',
    object_lock_exclusive_ self file line w = Ok tt w'
    /\ object w' = set_debug (interfered (fails ++ [s]) (object w)) self file line
    /\ env w' = rest
    /\ engine w' = engine w
    /\ trylocks (new_events w w') = S (List.length fails)
    /\ slept (new_events w w')
       = fold_right Z.add 0%Z (firstn (List.length fails) backoffs)
    /\ warnings (new_events w w') = 0%nat
    /\ blocking_locks (new_events w w') = 0%nat.
Proof.
  intros Henv Hfails Hlen Hs Hown. unfold object_lock_exclusive_.
  assert (Hacq : exists t,
            (ok <- pthread_mutex_trylock ;;
             (if negb (0 =? ok)%Z then lock_backoff backoffs file line else ret tt)) w
            = Ok tt (mkWorld (interfered (fails ++ [s]) (object w)) (engine w) rest
                       (trace w ++ t))
            /\ trylocks t = S (List.length fails)
            /\ slept t = fold_right Z.add 0%Z (firstn (List.length fails) backoffs)
            /\ blocking_locks t = 0%nat
            /\ warnings t = 0%nat).
  { destruct fails as [| x fails].
    - cbn [app] in Henv. rewrite (bind_Ok _ _ _ _ _ (trylock_step s rest w Henv)).
      rewrite Hs. cbn [Z.eqb negb]. exists [EvMutexTrylock 0].
      split; [reflexivity |]. repeat split.
    - cbn [app] in Henv.
      rewrite (bind_Ok _ _ _ _ _ (trylock_step x (fails ++ s :: rest) w Henv)).
      inversion Hfails as [| ? ? Hx Hfails']; subst.
      replace (0 =? ret_code x)%Z with false by (symmetry; apply Z.eqb_neq; congruence).
      cbn [negb]. set (w1 := mkWorld _ _ _ _).
      destruct (lock_backoff_granted file line s rest fails Hs Hfails' backoffs w1)
        as (t & Hrun & H1 & H2 & H3 & H4);
        [cbn in Hlen |- *; lia | reflexivity |].
      exists (EvMutexTrylock (ret_code x) :: t). rewrite Hrun. unfold w1.
      cbn [object engine trace]. rewrite <- app_assoc.
      split; [reflexivity |].
      cbn [trylocks slept blocking_locks warnings List.length].
      rewrite H1, H2, H3, H4. repeat split. }
  destruct Hacq as (t & Hacq & H1 & H2 & H3 & H4).
  set (m := ok <- pthread_mutex_trylock ;; _) in Hacq.
  set (w1 := mkWorld _ _ _ _) in Hacq.
  exists (set_object w1 (set_debug (object w1) self file line)). split.
  - unfold m, bind in Hacq. unfold bind.
    destruct (pthread_mutex_trylock w) as [ok w0 | w0 | w0];
      [| discriminate | discriminate].
    destruct ((if negb (0 =? ok)%Z then lock_backoff backoffs file line else ret tt) w0)
      as [[] w2 | w2 | w2]; [| discriminate | discriminate].
    injection Hacq as ->. unfold get_object, ret, put_object.
    unfold w1 at 1. cbn [object]. rewrite Hown. reflexivity.
  - assert (Hn : new_events w (set_object w1 (set_debug (object w1) self file line)) = t)
      by (apply new_events_app; reflexivity).
    rewrite Hn. unfold w1. cbn [object engine env set_object].
    repeat split; assumption.
Qed.

(** ** A mask with a bit that is no attribute *)

Lemma unlocks_loop (t : list Event) : forallb loop_event t = true -> unlocks t = 0%nat.
Proof.
  induction t as [| e t IH]; [reflexivity |].
  cbn [forallb]. intros H. apply andb_true_iff in H as [He Ht].
  destruct e; try discriminate; cbn [unlocks]; now apply IH.
Qed.

Lemma unlocks_app (t1 t2 : list Event) :
  unlocks (t1 ++ t2) = (unlocks t1 + unlocks t2)%nat.
Proof.
  induction t1 as [| e t1 IH]; [reflexivity |].
  destruct e; cbn [app unlocks]; try exact IH. now rewrite IH.
Qed.

Section Stray.

Variable cfg : Config.

Lemma handle_bit_stray (objectID bit a : unsigned) (w : World) :
  ATTR_INDEX_MAX cfg <= bit ->
  handle_bit cfg objectID bit a w
  = Fatal (mkWorld (object w) (engine w) (env w) (trace w ++ [EvScan objectID bit])).
Proof.
  intros Hb. unfold handle_bit, bind, emit, assert.
  apply N.ltb_ge in Hb. now rewrite Hb.
Qed.

(** The loop on a mask with a set bit at or above [ATTR_INDEX_MAX]: it
    stops at the assertion when it reaches the lowest such bit, having run
    its body for the set bits up to that one. *)
Lemma dispatch_stray (objectID : unsigned) :
  forall attributes, attributes < 2 ^ 32 ->
  (exists k, ATTR_INDEX_MAX cfg <= k /\ N.testbit attributes k = true) ->
  forall a w, exists b o t,
    dispatch_attributes cfg objectID attributes a w
    = Fatal (mkWorld o (engine w) (env w) (trace w ++ t))
    /\ ATTR_INDEX_MAX cfg <= b
    /\ N.testbit attributes b = true
    /\ (forall k, ATTR_INDEX_MAX cfg <= k -> k < b -> N.testbit attributes k = false)
    /\ scanned t = filter (fun k => k <=? b) (set_bits attributes)
    /\ forallb loop_event t = true
    /\ (forall (T : Type) (f : IObject -> T), handlers_keep cfg f -> f o = f (object w)).
Proof.
  intros attributes.
  induction attributes as [attributes IH] using (well_founded_induction N.lt_wf_0).
  intros H32 (k0 & Hk0 & Hbit0) a w.
  destruct attributes as [| p]; [rewrite N.bits_0 in Hbit0; discriminate |].
  rewrite dispatch_attributes_equation_2. cbn [ctz].
  pose proof (clear_bit_ctz_lt p) as Hlt.
  pose proof (set_bits_step p H32) as Hsb.
  destruct (N.le_gt_cases (ATTR_INDEX_MAX cfg) (ctz_pos p)) as [Hstray | Hattr].
  - exists (ctz_pos p), (object w), [EvScan objectID (ctz_pos p)].
    rewrite (bind_Fatal _ _ _ _ (handle_bit_stray _ _ _ _ Hstray)).
    split; [reflexivity |]. split; [exact Hstray |]. split; [apply ctz_pos_set |].
    split; [intros k _ Hk; now apply ctz_pos_lowest |].
    rewrite Hsb, filter_head, N.leb_refl, filter_none.
    + repeat split.
    + intros k Hk. apply set_bits_In in Hk; [| eapply N.le_lt_trans; [apply clear_bit_le | exact H32]].
      rewrite (clear_bit_spec _ _ _ H32) in Hk. apply andb_true_iff in Hk as [Hk Hne].
      apply negb_true_iff, N.eqb_neq in Hne. apply N.leb_gt.
      destruct (N.lt_ge_cases k (ctz_pos p)) as [Hlow | Hge]; [| lia].
      rewrite (ctz_pos_lowest p k Hlow) in Hk. discriminate.
  - assert (Hstill : exists k, ATTR_INDEX_MAX cfg <= k
                               /\ N.testbit (clear_bit (Npos p) (ctz_pos p)) k = true).
    { exists k0. split; [exact Hk0 |]. rewrite (clear_bit_spec _ _ _ H32), Hbit0.
      replace (k0 =? ctz_pos p) with false; [reflexivity |].
      symmetry. apply N.eqb_neq. lia. }
    assert (H32' : clear_bit (Npos p) (ctz_pos p) < 2 ^ 32)
      by (eapply N.le_lt_trans; [apply clear_bit_le | exact H32]).
    unfold bind. rewrite (handle_bit_run cfg _ _ _ _ Hattr).
    destruct (handlerTable cfg objectID (ctz_pos p)) as [h |] eqn:Eh.
    + set (r := fst (h (object w))). set (o1 := snd (h (object w))).
      destruct (IH _ Hlt H32' Hstill (N.land a (unot r))
                  (mkWorld o1 (engine w) (env w)
                     (trace w ++ [EvScan objectID (ctz_pos p);
                                  EvHandler objectID (ctz_pos p) r])))
        as (b & o & t & Hrun & Hb & Hbit & Hlow & Hscan & Hev & Hkeep).
      rewrite world_eta_app in Hrun.
      exists b, o, (EvScan objectID (ctz_pos p) :: EvHandler objectID (ctz_pos p) r :: t).
      split; [exact Hrun |]. split; [exact Hb |].
      rewrite (clear_bit_spec _ _ _ H32) in Hbit. apply andb_true_iff in Hbit as [Hbit _].
      split; [exact Hbit |]. split.
      { intros k Hk Hkb. specialize (Hlow k Hk Hkb).
        rewrite (clear_bit_spec _ _ _ H32) in Hlow.
        replace (k =? ctz_pos p) with false in Hlow by (symmetry; apply N.eqb_neq; lia).
        now rewrite andb_true_r in Hlow. }
      rewrite scanned_scan, scanned_handler, Hscan, Hsb, filter_head.
      replace (ctz_pos p <=? b) with true by (symmetry; apply N.leb_le; lia).
      split; [reflexivity |]. split; [exact Hev |].
      intros T f Hf. rewrite (Hkeep T f Hf). unfold o1. now apply (Hf objectID (ctz_pos p)).
    + destruct (IH _ Hlt H32' Hstill a
                  (mkWorld (object w) (engine w) (env w)
                     (trace w ++ [EvScan objectID (ctz_pos p)])))
        as (b & o & t & Hrun & Hb & Hbit & Hlow & Hscan & Hev & Hkeep).
      rewrite world_eta_app in Hrun.
      exists b, o, (EvScan objectID (ctz_pos p) :: t).
      split; [exact Hrun |]. split; [exact Hb |].
      rewrite (clear_bit_spec _ _ _ H32) in Hbit. apply andb_true_iff in Hbit as [Hbit _].
      split; [exact Hbit |]. split.
      { intros k Hk Hkb. specialize (Hlow k Hk Hkb).
        rewrite (clear_bit_spec _ _ _ H32) in Hlow.
        replace (k =? ctz_pos p) with false in Hlow by (symmetry; apply N.eqb_neq; lia).
        now rewrite andb_true_r in Hlow. }
      rewrite scanned_scan, Hscan, Hsb, filter_head.
      replace (ctz_pos p <=? b) with true by (symmetry; apply N.leb_le; lia).
      split; [reflexivity |]. split; [exact Hev |]. exact Hkeep.
Qed.

End Stray.

(** X7: A report whose mask has a set bit at or above [ATTR_INDEX_MAX] stops at
    the assertion of the loop when the scan reaches the lowest such bit [b]:
    the body has run for the set bits up to [b], lowest first, and no
    further; the mutex is still locked (no primitive has been called), the
    engine is untouched, and the object holds what the handlers that ran
    left of it, with nothing merged. *)
Theorem stray_bit_stops_report (cfg : Config) (dbg : bool) (self : pthread_t)
    (M : unsigned) (file : option string) (line : Z) (w : World) :
  (dbg = true -> owned_by self (object w)) ->
  valid_category cfg (mObjectID (object w)) = true ->
  M < 2 ^ 32 ->
  (exists k, ATTR_INDEX_MAX cfg <= k /\ N.testbit M k = true) ->
  exists b w',
    unlock_exclusive_attributes_body cfg dbg self M file line w = Fatal w'
    /\ ATTR_INDEX_MAX cfg <= b
    /\ N.testbit M b = true
    /\ (forall k, ATTR_INDEX_MAX cfg <= k -> k < b -> N.testbit M k = false)
    /\ scanned (new_events w w') = filter (fun k => k <=? b) (set_bits M)
    /\ unlocks (new_events w w') = 0%nat
    /\ engine w' = engine w
    /\ env w' = env w
    /\ (forall (T : Type) (f : IObject -> T),
          handlers_keep cfg f -> f (object w') = f (object w)).
Proof.
  intros Hown Hcat H32 Hstray.
  destruct (contiguous_valid cfg _ Hcat) as (row & Hrow).
  destruct (dispatch_stray cfg row M H32 Hstray M w)
    as (b & o & t & Hrun & Hb & Hbit & Hlow & Hscan & Hev & Hkeep).
  exists b, (mkWorld o (engine w) (env w) (trace w ++ t)). split.
  - rewrite body_after_dispatch.
    assert (Hpre : (if dbg then assert_owned self else ret tt) w = Ok tt w).
    { destruct dbg; [apply assert_owned_ok; now apply Hown | reflexivity]. }
    rewrite (bind_Ok _ _ _ _ _ Hpre).
    rewrite (bind_Ok get_object _ w w (object w) eq_refl).
    rewrite (bind_Ok _ _ _ _ _ (Hrow w)).
    now apply bind_Fatal.
  - rewrite (new_events_app w (mkWorld o (engine w) (env w) (trace w ++ t)) t eq_refl).
    split; [exact Hb |]. split; [exact Hbit |]. split; [exact Hlow |].
    split; [exact Hscan |]. split; [now apply unlocks_loop |].
    split; [reflexivity |]. split; [reflexivity |]. exact Hkeep.
Qed.

(** ** An instance slot beyond [MAX_INSTANCE] *)

Lemma report_crowded (cfg : Config) (R : unsigned) (w : World) :
  MAX_INSTANCE cfg < mInstanceID (object w) ->
  mInstanceID (object w) < 2 ^ 32 ->
  report_to_engine cfg R w = if R =? 0 then Ok tt w else Fatal w.
Proof.
  intros Hid H32. unfold report_to_engine, ATTR_NONE.
  rewrite (N.eqb_sym 0 R).
  destruct (N.eqb_spec R 0) as [-> | HR]; cbn [negb]; [reflexivity |].
  unfold bind at 1. unfold get_object.
  rewrite (N.eqb_sym 0 (mInstanceID (object w))).
  destruct (N.eqb_spec (mInstanceID (object w)) 0) as [E | E]; [lia |]. cbn [negb].
  rewrite usub_exact by lia.
  apply bind_Fatal. unfold assert.
  replace (mInstanceID (object w) - 1 <? MAX_INSTANCE cfg) with false; [reflexivity |].
  symmetry. apply N.ltb_ge. lia.
Qed.

Lemma first_update_residual (o : IObject) (A : unsigned) :
  ((if first_update o A then A else 0) =? 0) = negb (first_update o A).
Proof.
  unfold first_update.
  destruct (N.eqb_spec A 0) as [-> | HA]; cbn [negb andb]; [reflexivity |].
  destruct (mAttributesMask o =? 0); cbn [negb]; [now apply N.eqb_neq | reflexivity].
Qed.

(** X8: On an object whose instance slot is greater than [MAX_INSTANCE], the
    report runs the loop, merges the residual mask and unlocks the mutex as
    on any other object, and never touches the engine.  It returns when it
    has nothing to tell the engine; when it has (residual mask not empty,
    nothing pending before), it stops at [assert(MAX_INSTANCE > id)], after
    the merge and the unlock. *)
Theorem slot_beyond_max_instance (cfg : Config) (dbg : bool) (self : pthread_t)
    (M : unsigned) (file : option string) (line : Z) (w : World) :
  ATTR_INDEX_MAX cfg <= 32 ->
  tame_handlers cfg ->
  (dbg = true -> owned_by self (object w)) ->
  valid_category cfg (mObjectID (object w)) = true ->
  M < 2 ^ ATTR_INDEX_MAX cfg ->
  calm (env w) ->
  MAX_INSTANCE cfg < mInstanceID (object w) ->
  mInstanceID (object w) < 2 ^ 32 ->
  exists t w',
    forallb loop_event t = true
    /\ scanned t = set_bits M
    /\ new_events w w' = t ++ [EvMutexUnlock 0]
    /\ engine w' = engine w
    /\ mAttributesMask (object w')
       = N.lor (mAttributesMask (object w)) (N.land M (unot (handled t)))
    /\ (dbg = true -> mOwner (object w') = 0%Z)
    /\ unlock_exclusive_attributes_body cfg dbg self M file line w
       = if first_update (object w) (N.land M (unot (handled t)))
         then Fatal w' else Ok tt w'.
Proof.
  intros Hattr (_ & Hkmask & Hkid) Hown Hcat HM Hcalm Hid Hid32.
  destruct (contiguous_valid cfg _ Hcat) as (row & Hrow).
  assert (H32 : M < 2 ^ 32).
  { eapply N.lt_le_trans; [exact HM |]. apply N.pow_le_mono_r; lia. }
  destruct (dispatch_ok cfg row Hattr M HM M w H32)
    as (A & o1 & t & Hrun & Hscan & HA & _ & Hev & Hkeep).
  pose proof (Hkeep _ mAttributesMask Hkmask) as Hmask.
  pose proof (Hkeep _ mInstanceID Hkid) as Hslot.
  set (o2 := set_mAttributesMask o1 (N.lor (mAttributesMask o1) A)).
  set (o3 := if dbg then set_debug o2 0%Z file line else o2).
  exists t, (mkWorld o3 (engine w) (tl (env w)) (trace w ++ t ++ [EvMutexUnlock 0])).
  rewrite <- HA.
  split; [exact Hev |]. split; [exact Hscan |].
  split; [now apply new_events_app |].
  split; [reflexivity |].
  split; [unfold o3, o2; rewrite <- Hmask; now destruct dbg |].
  split; [intros ->; reflexivity |].
  rewrite body_after_dispatch.
  assert (Hpre : (if dbg then assert_owned self else ret tt) w = Ok tt w).
  { destruct dbg; [apply assert_owned_ok; now apply Hown | reflexivity]. }
  rewrite (bind_Ok _ _ _ _ _ Hpre).
  rewrite (bind_Ok get_object _ w w (object w) eq_refl).
  rewrite (bind_Ok _ _ _ _ _ (Hrow w)).
  rewrite (bind_Ok _ _ _ _ _ Hrun).
  set (w1 := mkWorld o1 (engine w) (env w) (trace w ++ t)).
  unfold after_dispatch.
  rewrite (bind_Ok _ _ _ _ _ (merge_run A w1)).
  change (object w1) with o1. fold o2.
  set (R := if first_update o1 A then A else 0).
  assert (Hclear : (if dbg then clear_owner file line else ret tt) (set_object w1 o2)
                   = Ok tt (set_object w1 o3)).
  { unfold o3. now destruct dbg. }
  rewrite (bind_Ok _ _ _ _ _ Hclear).
  rewrite (bind_Ok _ _ _ _ _ (unlock_calm (set_object w1 o3) Hcalm)).
  rewrite (bind_Ok (assert (0 =? 0)%Z) _ _ _ tt eq_refl).
  cbn [set_object w1 object engine env trace].
  rewrite <- app_assoc.
  rewrite report_crowded; cbn [object].
  - unfold R. rewrite first_update_residual.
    replace (first_update (object w) A) with (first_update o1 A)
      by (unfold first_update; now rewrite Hmask).
    now destruct (first_update o1 A).
  - replace (mInstanceID o3) with (mInstanceID (object w)); [exact Hid |].
    rewrite <- Hslot. unfold o3, o2. now destruct dbg.
  - replace (mInstanceID o3) with (mInstanceID (object w)); [exact Hid32 |].
    rewrite <- Hslot. unfold o3, o2. now destruct dbg.
Qed.

(** ** The engine knows of every object with attributes pending *)

(** X9: A report that meets its assertions keeps the invariant that the engine
    has the bit of every object with attributes pending: once the report
    has returned, if the object has a nonzero [mAttributesMask] and an
    instance slot, bit [mInstanceID - 1] of the engine's [mChangedMask] is
    set, provided this held before the call.  It is what allows the report
    to skip the engine when the mask was already nonzero. *)
Theorem report_keeps_engine_informed (cfg : Config) (dbg : bool) (self : pthread_t)
    (M : unsigned) (file : option string) (line : Z) (w : World) :
  headers_ok cfg -> tame_handlers cfg -> reportable cfg dbg self M w ->
  flagged w ->
  exists w',
    unlock_exclusive_attributes_body cfg dbg self M file line w = Ok tt w'
    /\ flagged w'.
Proof.
  intros Hh Ht Hr Hflag.
  destruct (report_outcome cfg dbg self M file line w Hh Ht Hr)
    as (row & t & w' & Hrun & _ & _ & _ & _ & _ & _ & Hmask & _ & Hid & _ & Heng & _).
  exists w'. split; [exact Hrun |].
  unfold flagged. rewrite Hmask, Hid, Heng. intros Hpending Hslot.
  set (A := N.land M (unot (handled t))) in *.
  unfold notified, first_update, instance_bit.
  destruct (N.eqb_spec (mAttributesMask (object w)) 0) as [E0 | E0].
  - rewrite E0, N.lor_0_l in Hpending.
    apply N.eqb_neq in Hpending, Hslot. rewrite Hpending, Hslot. cbn [negb andb mChangedMask].
    rewrite N.lor_spec, N.shiftl_1_l, N.pow2_bits_true. apply orb_true_r.
  - rewrite andb_false_r. cbn [andb]. now apply Hflag.
Qed.

(** ** The two builds *)

Lemma handle_bit_env (cfg : Config) (objectID bit a : unsigned) (w : World) :
  env (world_of (handle_bit cfg objectID bit a w)) = env w.
Proof.
  unfold handle_bit, bind, emit, assert.
  destruct (bit <? ATTR_INDEX_MAX cfg); [| reflexivity].
  destruct (handlerTable cfg objectID bit); reflexivity.
Qed.

(** The loop calls no primitive. *)
Lemma dispatch_env (cfg : Config) (objectID : unsigned) :
  forall attributes a w,
    env (world_of (dispatch_attributes cfg objectID attributes a w)) = env w.
Proof.
  intros attributes.
  induction attributes as [attributes IH] using (well_founded_induction N.lt_wf_0).
  intros a w. destruct attributes as [| p].
  - now rewrite dispatch_attributes_equation_1.
  - rewrite dispatch_attributes_equation_2, world_of_bind. cbn [ctz].
    pose proof (handle_bit_env cfg objectID (ctz_pos p) a w) as Hstep.
    destruct (handle_bit cfg objectID (ctz_pos p) a w) as [a' w1 | w1 | w1];
      cbn [world_of] in Hstep; [| exact Hstep | exact Hstep].
    rewrite (IH _ (clear_bit_ctz_lt p)). exact Hstep.
Qed.

Lemma unlock_undisturbed (l : list EnvStep) :
  undisturbed l ->
  exists r, forall o e t,
    pthread_mutex_unlock (mkWorld o e l t)
    = Ok r (mkWorld o e (tl l) (t ++ [EvMutexUnlock r])).
Proof.
  intros H. destruct l as [| s l].
  - exists 0%Z. reflexivity.
  - exists (ret_code s). intros o e t. inversion H as [| ? ? Hs _]; subst.
    unfold pthread_mutex_unlock, bind, environment, emit, ret, add_event, set_env,
      set_object. cbn [env object engine trace tl]. now rewrite Hs.
Qed.

Lemma same_but_debug_set (o : IObject) (owner : pthread_t) (file : option string)
    (line : Z) (e : IEngine) (l : list EnvStep) (t : list Event) :
  same_but_debug (mkWorld (set_debug o owner file line) e l t) (mkWorld o e l t).
Proof. unfold same_but_debug. cbn. repeat split. Qed.

(** What follows [pthread_mutex_unlock] reads the instance slot of the
    object and nothing else of it. *)
Lemma report_reads_slot (cfg : Config) (R : unsigned) (o : IObject) (e : IEngine)
    (l : list EnvStep) (t : list Event) :
  exists (ok : bool) e' t',
    forall o', mInstanceID o' = mInstanceID o ->
      report_to_engine cfg R (mkWorld o' e l t)
      = if ok then Ok tt (mkWorld o' e' l t') else Fatal (mkWorld o' e l t).
Proof.
  unfold report_to_engine.
  destruct (negb (ATTR_NONE =? R)); [| exists true, e, t; reflexivity].
  destruct (negb (0 =? mInstanceID o)) eqn:E.
  - destruct (usub (mInstanceID o) 1 <? MAX_INSTANCE cfg) eqn:E2.
    + exists true,
        (mkIEngine (N.lor (mChangedMask e) (u32 (N.shiftl 1 (usub (mInstanceID o) 1))))),
        (((t ++ [EvEngineLock])
            ++ [EvEngineChanged (u32 (N.shiftl 1 (usub (mInstanceID o) 1)))])
           ++ [EvEngineUnlock]).
      intros o' Ho'.
      unfold bind at 1. unfold get_object. cbn [object]. rewrite Ho', E.
      unfold bind at 1. unfold assert. rewrite E2. reflexivity.
    + exists false, e, t. intros o' Ho'.
      unfold bind at 1. unfold get_object. cbn [object]. rewrite Ho', E.
      unfold bind at 1. unfold assert. rewrite E2. reflexivity.
  - exists true, e, t. intros o' Ho'.
    unfold bind at 1. unfold get_object. cbn [object]. rewrite Ho', E. reflexivity.
Qed.

Lemma closing_agrees (cfg : Config) (R : unsigned) (r : Z) (o : IObject)
    (owner : pthread_t) (file : option string) (line : Z) (e : IEngine)
    (l : list EnvStep) (t : list Event) :
  let k := (assert (0 =? r)%Z ;; report_to_engine cfg R) in
  is_Ok (k (mkWorld (set_debug o owner file line) e l t)) = is_Ok (k (mkWorld o e l t))
  /\ same_but_debug (world_of (k (mkWorld (set_debug o owner file line) e l t)))
       (world_of (k (mkWorld o e l t))).
Proof.
  intros k. unfold k, bind, assert.
  destruct (0 =? r)%Z; [| split; [reflexivity | apply same_but_debug_set]].
  destruct (report_reads_slot cfg R o e l t) as (ok & e' & t' & Hshape).
  rewrite (Hshape o eq_refl), (Hshape (set_debug o owner file line) eq_refl).
  destruct ok; (split; [reflexivity | apply same_but_debug_set]).
Qed.

Lemma after_unlock_agrees (cfg : Config) (R : unsigned) (o : IObject)
    (file : option string) (line : Z) (w : World) :
  undisturbed (env w) ->
  let d := (clear_owner file line ;; ok <- pthread_mutex_unlock ;;
            assert (0 =? ok)%Z ;; report_to_engine cfg R) (set_object w o) in
  let r := (ok <- pthread_mutex_unlock ;;
            assert (0 =? ok)%Z ;; report_to_engine cfg R) (set_object w o) in
  is_Ok d = is_Ok r /\ same_but_debug (world_of d) (world_of r).
Proof.
  intros Henv d r. destruct (unlock_undisturbed _ Henv) as (ok & Hunlock).
  unfold d, r.
  rewrite (bind_Ok (clear_owner file line) _ (set_object w o)
             (mkWorld (set_debug o 0%Z file line) (engine w) (env w) (trace w)) tt eq_refl).
  change (set_object w o) with (mkWorld o (engine w) (env w) (trace w)).
  rewrite (bind_Ok _ _ _ _ _ (Hunlock (set_debug o 0%Z file line) (engine w) (trace w))).
  rewrite (bind_Ok _ _ _ _ _ (Hunlock o (engine w) (trace w))).
  apply closing_agrees.
Qed.

Lemma same_but_debug_refl (w : World) : same_but_debug w w.
Proof. unfold same_but_debug. repeat split. Qed.

(** X10: The checks and the debug record are all that the debug build adds to an
    unlock or a report by the owner of the lock: as long as no other thread
    writes to the object meanwhile, [object_unlock_exclusive_attributes_]
    and [object_unlock_exclusive_attributes] both return or both stop, with
    the same handlers called, the same mask merged, the same word to the
    engine, the same calls of the primitives; the two objects differ in
    [mOwner], [mFile] and [mLine] at most.  Likewise for
    [object_unlock_exclusive_] and [object_unlock_exclusive]. *)
Theorem debug_build_adds_only_the_record (cfg : Config) (self : pthread_t)
    (M : unsigned) (file : option string) (line : Z) (w : World) :
  owned_by self (object w) ->
  undisturbed (env w) ->
  (is_Ok (object_unlock_exclusive_attributes_ cfg self M file line w)
   = is_Ok (object_unlock_exclusive_attributes cfg M w)
   /\ same_but_debug
        (world_of (object_unlock_exclusive_attributes_ cfg self M file line w))
        (world_of (object_unlock_exclusive_attributes cfg M w)))
  /\ (is_Ok (object_unlock_exclusive_ self file line w)
      = is_Ok (object_unlock_exclusive w)
      /\ same_but_debug
           (world_of (object_unlock_exclusive_ self file line w))
           (world_of (object_unlock_exclusive w))).
Proof.
  intros Hown Henv. split.
  - unfold object_unlock_exclusive_attributes_, object_unlock_exclusive_attributes.
    rewrite !body_after_dispatch.
    rewrite (bind_Ok _ _ _ _ _ (assert_owned_ok self w Hown)).
    rewrite (bind_Ok (ret tt) _ w w tt eq_refl).
    rewrite !(bind_Ok get_object _ w w (object w) eq_refl).
    destruct (contiguous_objectID cfg (mObjectID (object w)) w)
      as [row w0 | w0 | w0] eqn:Ecat;
      [| rewrite !(bind_Fatal _ _ _ _ Ecat); split;
         [reflexivity | apply same_but_debug_refl]
       | rewrite !(bind_Blocked _ _ _ _ Ecat); split;
         [reflexivity | apply same_but_debug_refl]].
    assert (E0 : w0 = w).
    { rewrite contiguous_result in Ecat.
      destruct (in_range_A cfg _); [congruence |].
      destruct (in_range_B cfg _); congruence. }
    subst w0. rewrite !(bind_Ok _ _ _ _ _ Ecat).
    pose proof (dispatch_env cfg row M M w) as Hframe.
    destruct (dispatch_attributes cfg row M M w) as [A w1 | w1 | w1] eqn:Erun;
      [| rewrite !(bind_Fatal _ _ _ _ Erun); split;
         [reflexivity | apply same_but_debug_refl]
       | rewrite !(bind_Blocked _ _ _ _ Erun); split;
         [reflexivity | apply same_but_debug_refl]].
    rewrite !(bind_Ok _ _ _ _ _ Erun).
    cbn [world_of] in Hframe. rewrite <- Hframe in Henv.
    unfold after_dispatch.
    rewrite !(bind_Ok _ _ _ _ _ (merge_run A w1)).
    rewrite (bind_Ok (ret tt) _ _ _ tt eq_refl).
    now apply after_unlock_agrees.
  - unfold object_unlock_exclusive_, object_unlock_exclusive.
    rewrite (bind_Ok _ _ _ _ _ (assert_owned_ok self w Hown)).
    destruct (unlock_undisturbed _ Henv) as (ok & Hunlock).
    rewrite (bind_Ok (clear_owner file line) _ w
               (mkWorld (set_debug (object w) 0%Z file line) (engine w) (env w) (trace w))
               tt eq_refl).
    rewrite (bind_Ok _ _ _ _ _ (Hunlock _ (engine w) (trace w))).
    assert (Hplain : pthread_mutex_unlock w
                     = Ok ok (mkWorld (object w) (engine w) (tl (env w))
                                (trace w ++ [EvMutexUnlock ok]))).
    { rewrite <- (Hunlock (object w) (engine w) (trace w)). now destruct w. }
    rewrite (bind_Ok _ _ _ _ _ Hplain).
    unfold assert. destruct (0 =? ok)%Z; (split; [reflexivity | apply same_but_debug_set]).
Qed.

(** ** The return codes of the primitives *)

Lemma failures_app (t1 t2 : list Event) :
  failures (t1 ++ t2) = (failures t1 + failures t2)%nat.
Proof. unfold failures. now rewrite filter_app, length_app. Qed.

Lemma failures_one (e : Event) : failures [e] = if failure e then 1%nat else 0%nat.
Proof. unfold failures. cbn [filter]. now destruct (failure e). Qed.

Lemma stops_quiet {A : Type} (m : M A) :
  (forall w, trace (world_of (m w)) = trace w) -> stops_at_failure m.
Proof. intros H w. exists []. rewrite app_nil_r. split; [apply H | now left]. Qed.

Lemma stops_ret {A : Type} (a : A) : stops_at_failure (ret a).
Proof. now apply stops_quiet. Qed.

Lemma stops_get_object : stops_at_failure get_object.
Proof. now apply stops_quiet. Qed.

Lemma stops_put_object (o : IObject) : stops_at_failure (put_object o).
Proof. now apply stops_quiet. Qed.

Lemma stops_get_engine : stops_at_failure get_engine.
Proof. now apply stops_quiet. Qed.

Lemma stops_put_engine (e : IEngine) : stops_at_failure (put_engine e).
Proof. now apply stops_quiet. Qed.

Lemma stops_assert (b : bool) : stops_at_failure (assert b).
Proof. apply stops_quiet. intros w. unfold assert. now destruct b. Qed.

Lemma stops_emit (e : Event) : failure e = false -> stops_at_failure (emit e).
Proof.
  intros He w. exists [e]. split; [reflexivity |]. left. now rewrite failures_one, He.
Qed.

Lemma stops_bind {A B : Type} (m : M A) (k : A -> M B) :
  stops_at_failure m -> (forall a, stops_at_failure (k a)) -> stops_at_failure (bind m k).
Proof.
  intros Hm Hk w. destruct (Hm w) as (t1 & Ht1 & H1).
  unfold bind. destruct (m w) as [a w1 | w1 | w1]; cbn [world_of is_Ok] in *;
    [| exists t1; split; [exact Ht1 |]; destruct H1 as [H1 | H1]; [now left | now right]
     | exists t1; split; [exact Ht1 |]; destruct H1 as [H1 | H1]; [now left | now right]].
  - destruct H1 as [H1 | (H1 & _)]; [| discriminate].
    destruct (Hk a w1) as (t2 & Ht2 & H2).
    exists (t1 ++ t2). split; [now rewrite Ht2, Ht1, app_assoc |].
    destruct H2 as [H2 | (H2 & pre & e & -> & Hpre & He)].
    + left. rewrite failures_app. lia.
    + right. split; [exact H2 |]. exists (t1 ++ pre), e.
      split; [now rewrite app_assoc |]. split; [rewrite failures_app; lia | exact He].
Qed.

(** A primitive followed by code that stops at once on a nonzero code. *)
Lemma stops_checked {B : Type} (p : M Z) (k : Z -> M B) :
  reports_its_code p ->
  stops_at_failure (k 0%Z) ->
  (forall r w, r <> 0%Z -> k r w = Fatal w) ->
  stops_at_failure (bind p k).
Proof.
  intros Hp Hk Hstop w.
  destruct (Hp w) as [(r & w1 & e & Hrun & Ht & He) | (w1 & e & Hrun & Ht & He)];
    [| rewrite (bind_Blocked _ _ _ _ Hrun); exists [e]; split; [exact Ht |];
       left; now rewrite failures_one, He].
  rewrite (bind_Ok _ _ _ _ _ Hrun).
  destruct (Z.eqb_spec 0 r) as [<- | Hr]; cbn [negb] in He.
  - destruct (Hk w1) as (t2 & Ht2 & H2).
    exists ([e] ++ t2). split; [now rewrite Ht2, Ht, <- app_assoc |].
    destruct H2 as [H2 | (H2 & pre & e' & -> & Hpre & He')].
    + left. rewrite failures_app, failures_one, He. exact H2.
    + right. split; [exact H2 |]. exists ([e] ++ pre), e'.
      split; [now rewrite app_assoc |].
      split; [rewrite failures_app, failures_one, He; exact Hpre | exact He'].
  - rewrite (Hstop r w1) by congruence. exists [e]. split; [exact Ht |].
    right. split; [reflexivity |]. exists [], e. now repeat split.
Qed.

Lemma environment_trace (w : World) :
  exists r w1, environment w = Ok r w1 /\ trace w1 = trace w.
Proof.
  unfold environment. destruct (env w) as [| s rest]; eexists _, _; split; reflexivity.
Qed.

Lemma lock_reports : reports_its_code pthread_mutex_lock.
Proof.
  intros w.
  destruct (lock_keeps (fun _ => tt) w (env_keeps_unit _))
    as [(r & w1 & Hrun & _ & _ & Ht & _) | Hblocked].
  - left. exists r, w1, (EvMutexLock r). now repeat split.
  - right. exists (add_event w EvMutexLockBlocked), EvMutexLockBlocked.
    now repeat split.
Qed.

Lemma unlock_reports : reports_its_code pthread_mutex_unlock.
Proof.
  intros w. destruct (environment_trace w) as (r & w1 & Hrun & Ht).
  left. exists r, (add_event w1 (EvMutexUnlock r)), (EvMutexUnlock r).
  unfold pthread_mutex_unlock. rewrite (bind_Ok _ _ _ _ _ Hrun).
  split; [reflexivity |]. split; [cbn [trace add_event]; now rewrite Ht | reflexivity].
Qed.

Lemma cond_wait_reports : reports_its_code pthread_cond_wait.
Proof.
  intros w. destruct (environment_trace w) as (r & w1 & Hrun & Ht).
  left. exists r, (add_event w1 (EvCondWait (object w) r)), (EvCondWait (object w) r).
  unfold pthread_cond_wait.
  rewrite (bind_Ok get_object _ w w (object w) eq_refl).
  rewrite (bind_Ok _ _ _ _ _ Hrun).
  split; [reflexivity |]. split; [cbn [trace add_event]; now rewrite Ht | reflexivity].
Qed.

Lemma cond_signal_reports : reports_its_code pthread_cond_signal.
Proof.
  intros w. destruct (environment_trace w) as (r & w1 & Hrun & Ht).
  left. exists r, (add_event w1 (EvCondSignal r)), (EvCondSignal r).
  unfold pthread_cond_signal. rewrite (bind_Ok _ _ _ _ _ Hrun).
  split; [reflexivity |]. split; [cbn [trace add_event]; now rewrite Ht | reflexivity].
Qed.

Lemma cond_broadcast_reports : reports_its_code pthread_cond_broadcast.
Proof.
  intros w. destruct (environment_trace w) as (r & w1 & Hrun & Ht).
  left. exists r, (add_event w1 (EvCondBroadcast r)), (EvCondBroadcast r).
  unfold pthread_cond_broadcast. rewrite (bind_Ok _ _ _ _ _ Hrun).
  split; [reflexivity |]. split; [cbn [trace add_event]; now rewrite Ht | reflexivity].
Qed.

(** [pthread_mutex_trylock] may fail: its code is tested, not asserted. *)
Lemma stops_trylock : stops_at_failure pthread_mutex_trylock.
Proof.
  intros w. destruct (environment_trace w) as (r & w1 & Hrun & Ht).
  exists [EvMutexTrylock r]. unfold pthread_mutex_trylock.
  rewrite (bind_Ok _ _ _ _ _ Hrun).
  split; [unfold bind, emit, ret; cbn [world_of trace add_event]; now rewrite Ht | now left].
Qed.

Lemma assert_stops (r : Z) (w : World) : r <> 0%Z -> assert (0 =? r)%Z w = Fatal w.
Proof.
  intros H. unfold assert. destruct (Z.eqb_spec 0 r); [congruence | reflexivity].
Qed.

Create HintDb stops.
#[local] Hint Resolve stops_ret stops_get_object stops_put_object stops_get_engine
  stops_put_engine stops_assert stops_trylock lock_reports unlock_reports
  cond_wait_reports cond_signal_reports cond_broadcast_reports : stops.

(** [ok = primitive(...); assert(0 == ok);] and what may follow. *)
Lemma stops_asserted (p : M Z) :
  reports_its_code p -> stops_at_failure (ok <- p ;; assert (0 =? ok)%Z).
Proof.
  intros Hp. apply stops_checked; [exact Hp | apply stops_assert |].
  intros r w. apply assert_stops.
Qed.

Lemma stops_asserted_then {B : Type} (p : M Z) (k : M B) :
  reports_its_code p -> stops_at_failure k ->
  stops_at_failure (ok <- p ;; assert (0 =? ok)%Z ;; k).
Proof.
  intros Hp Hk. apply stops_checked; [exact Hp | |].
  - apply stops_bind; [apply stops_assert | intros _; exact Hk].
  - intros r w Hr. apply bind_Fatal. now apply assert_stops.
Qed.

Ltac stops_steps :=
  repeat first
    [ apply stops_asserted; solve [auto with stops]
    | apply stops_asserted_then; [solve [auto with stops] |]
    | apply stops_bind; [| intros]
    | apply stops_emit; reflexivity
    | solve [auto with stops]
    | match goal with
      | |- stops_at_failure (if ?b then _ else _) => destruct b
      | |- stops_at_failure (match ?x with _ => _ end) => destruct x
      end ].

Lemma stops_lock_backoff (file : option string) (line : Z) (bs : list Z) :
  stops_at_failure (lock_backoff bs file line).
Proof.
  induction bs as [| b rest IH]; cbn [lock_backoff]; [apply stops_ret |].
  unfold usleep, SL_LOGW. apply stops_bind; [apply stops_emit; reflexivity | intros _].
  apply stops_bind; [apply stops_trylock | intros ok].
  destruct (0 =? ok)%Z; [apply stops_ret |].
  destruct rest as [| b' rest']; [| exact IH].
  stops_steps.
Qed.

Lemma stops_handle_bit (cfg : Config) (objectID bit a : unsigned) :
  stops_at_failure (handle_bit cfg objectID bit a).
Proof. unfold handle_bit, call_handler. stops_steps. Qed.

Lemma stops_dispatch (cfg : Config) (objectID : unsigned) :
  forall attributes a, stops_at_failure (dispatch_attributes cfg objectID attributes a).
Proof.
  intros attributes.
  induction attributes as [attributes IH] using (well_founded_induction N.lt_wf_0).
  intros a. destruct attributes as [| p].
  - intros w. rewrite dispatch_attributes_equation_1. apply stops_ret.
  - assert (E : dispatch_attributes cfg objectID (N.pos p) a
                = (a' <- handle_bit cfg objectID (ctz (N.pos p)) a ;;
                   dispatch_attributes cfg objectID
                     (clear_bit (N.pos p) (ctz (N.pos p))) a')).
    { apply functional_extensionality. intros w.
      now rewrite dispatch_attributes_equation_2. }
    rewrite E. apply stops_bind; [apply stops_handle_bit | intros a'].
    apply IH. apply clear_bit_ctz_lt.
Qed.

Lemma stops_run (cfg : Config) (c : Call) : stops_at_failure (run cfg c).
Proof.
  destruct c; cbn [run].
  - unfold object_lock_exclusive_, SL_LOGE.
    apply stops_bind; [apply stops_trylock | intros ok].
    apply stops_bind;
      [destruct (negb (0 =? ok)%Z); [apply stops_lock_backoff | apply stops_ret] | intros _].
    stops_steps.
  - unfold object_lock_exclusive. stops_steps.
  - unfold object_unlock_exclusive_, assert_owned, clear_owner. stops_steps.
  - unfold object_unlock_exclusive. stops_steps.
  - unfold object_unlock_exclusive_attributes_, unlock_exclusive_attributes_body.
    apply stops_bind; [unfold assert_owned; stops_steps | intros _].
    apply stops_bind; [apply stops_get_object | intros o].
    apply stops_bind; [unfold contiguous_objectID; stops_steps | intros row].
    apply stops_bind; [apply stops_dispatch | intros A].
    apply stops_bind; [unfold merge_asynchronous; stops_steps | intros R].
    apply stops_bind; [unfold clear_owner; stops_steps | intros _].
    apply stops_asserted_then; [apply unlock_reports |].
    unfold report_to_engine, interface_lock_exclusive, interface_unlock_exclusive.
    stops_steps.
  - unfold object_unlock_exclusive_attributes, unlock_exclusive_attributes_body.
    apply stops_bind; [apply stops_ret | intros _].
    apply stops_bind; [apply stops_get_object | intros o].
    apply stops_bind; [unfold contiguous_objectID; stops_steps | intros row].
    apply stops_bind; [apply stops_dispatch | intros A].
    apply stops_bind; [unfold merge_asynchronous; stops_steps | intros R].
    apply stops_bind; [apply stops_ret | intros _].
    apply stops_asserted_then; [apply unlock_reports |].
    unfold report_to_engine, interface_lock_exclusive, interface_unlock_exclusive.
    stops_steps.
  - unfold object_cond_wait_, assert_owned, clear_owner. stops_steps.
  - unfold object_cond_wait. stops_steps.
  - unfold object_cond_signal. stops_steps.
  - unfold object_cond_broadcast. stops_steps.
Qed.

(** X11: Every return code of [pthread_mutex_lock], [pthread_mutex_unlock],
    [pthread_cond_wait], [pthread_cond_signal] and [pthread_cond_broadcast]
    is asserted to be zero at once, in each of the ten entry points: a call
    that returns has seen none of them fail, no call sees more than one
    fail, and a failure is the last thing the call did.  Only
    [pthread_mutex_trylock], of the debug lock, may fail and the call go
    on. *)
Theorem failed_primitive_stops_the_call (cfg : Config) (c : Call) (w : World) :
  let t := new_events w (world_of (run cfg c w)) in
  (is_Ok (run cfg c w) = true -> failures t = 0%nat)
  /\ (failures t <= 1)%nat
  /\ (failures t = 1%nat ->
      is_Ok (run cfg c w) = false
      /\ exists pre e, t = pre ++ [e] /\ failures pre = 0%nat /\ failure e = true).
Proof.
  destruct (stops_run cfg c w) as (t & Ht & H).
  rewrite (new_events_app w _ t Ht). cbn zeta.
  destruct H as [H | (Hstop & pre & e & -> & Hpre & He)].
  - rewrite H. split; [reflexivity |]. split; [lia |]. discriminate.
  - rewrite failures_app, failures_one, He, Hpre, Hstop. cbn [Nat.add].
    split; [discriminate |]. split; [lia |]. intros _. split; [reflexivity |].
    exists pre, e. now repeat split.
Qed.

(** ** A lock taken without a site *)

(** X12: The debug lock records whatever site it is given, also a null file or
    line 0; the unlock, the report and the wait of the same thread then stop
    at their opening assertions, with the mutex still locked. *)
Theorem lock_without_site_cannot_be_unlocked (cfg : Config) (self : pthread_t)
    (M : unsigned) (f1 f2 : option string) (l1 l2 : Z) (w : World) :
  mOwner (object w) = 0%Z -> calm (env w) ->
  f1 = None \/ l1 = 0%Z ->
  exists w1,
    object_lock_exclusive_ self f1 l1 w = Ok tt w1
    /\ object w1 = set_debug (object w) self f1 l1
    /\ object_unlock_exclusive_ self f2 l2 w1 = Fatal w1
    /\ object_unlock_exclusive_attributes_ cfg self M f2 l2 w1 = Fatal w1
    /\ object_cond_wait_ self f2 l2 w1 = Fatal w1.
Proof.
  intros Hfree Hcalm Hsite.
  pose proof (lock_calm true self f1 l1 w Hcalm (fun _ => Hfree)) as Hlock.
  cbn [lock_of] in Hlock. set (w1 := mkWorld _ _ _ _) in Hlock.
  assert (Hnot : ~ owned_by self (object w1)).
  { intros (_ & Hf & Hl). cbn in Hf, Hl. destruct Hsite; contradiction. }
  pose proof (assert_owned_Fatal self w1 Hnot) as E.
  exists w1. split; [exact Hlock |]. split; [reflexivity |]. split; [| split].
  - unfold object_unlock_exclusive_. now apply bind_Fatal.
  - unfold object_unlock_exclusive_attributes_. rewrite body_after_dispatch.
    now apply bind_Fatal.
  - unfold object_cond_wait_. now apply bind_Fatal.
Qed.

(** ** The further properties at the samples *)

(** Thread 7 on the object that thread 8 holds. *)
Lemma unowned_call_is_fatal_sample :
  ~ owned_by 7%Z (object held_world)
  /\ object_unlock_exclusive_ 7%Z (Some "play.c"%string) 57%Z held_world
     = Fatal held_world
  /\ object_unlock_exclusive_attributes_ sample_config 7%Z 36 (Some "play.c"%string) 57%Z
       held_world = Fatal held_world
  /\ object_cond_wait_ 7%Z (Some "play.c"%string) 57%Z held_world = Fatal held_world.
Proof.
  assert (H : ~ owned_by 7%Z (object held_world)) by (intros (E & _); discriminate E).
  split; [exact H |].
  exact (unowned_call_is_fatal sample_config 7%Z 36 (Some "play.c"%string) 57%Z
           held_world H).
Defined.

(** Thread 7 unlocks the sample object at line 57 and again at line 58. *)
Lemma double_unlock_is_fatal_sample :
  7%Z <> 0%Z
  /\ env_keeps mOwner (env sample_world)
  /\ exists w1,
       object_unlock_exclusive_ 7%Z (Some "play.c"%string) 57%Z sample_world = Ok tt w1
       /\ object_unlock_exclusive_ 7%Z (Some "play.c"%string) 58%Z w1 = Fatal w1
       /\ unlocks (new_events sample_world w1) = 1%nat.
Proof.
  assert (H7 : 7%Z <> 0%Z) by discriminate.
  assert (He : env_keeps mOwner (env sample_world)) by constructor.
  split; [exact H7 |]. split; [exact He |].
  eexists. split; [vm_compute; reflexivity |].
  apply (double_unlock_is_fatal 7%Z (Some "play.c"%string) (Some "play.c"%string)
           57%Z 58%Z sample_world _ H7 He).
  vm_compute. reflexivity.
Defined.

(** Thread 7 locks and unlocks the free object, then thread 8 locks it. *)
Lemma lock_unlock_lock_sample :
  mOwner (object free_world) = 0%Z
  /\ calm (env free_world)
  /\ Some "play.c"%string <> None
  /\ 40%Z <> 0%Z
  /\ exists w1 w2,
       (object_lock_exclusive_ 7%Z (Some "play.c"%string) 40%Z ;;
        object_unlock_exclusive_ 7%Z (Some "play.c"%string) 57%Z) free_world = Ok tt w1
       /\ object w1 = set_debug (object free_world) 0%Z (Some "play.c"%string) 57%Z
       /\ engine w1 = engine free_world
       /\ new_events free_world w1 = [EvMutexTrylock 0; EvMutexUnlock 0]
       /\ object_lock_exclusive_ 8%Z (Some "sync.c"%string) 5%Z w1 = Ok tt w2
       /\ object w2 = set_debug (object free_world) 8%Z (Some "sync.c"%string) 5%Z.
Proof.
  assert (Hc : calm (env free_world)) by constructor.
  assert (Hf : Some "play.c"%string <> None) by discriminate.
  assert (Hl : 40%Z <> 0%Z) by discriminate.
  split; [reflexivity |]. split; [exact Hc |]. split; [exact Hf |]. split; [exact Hl |].
  exact (lock_unlock_lock 7%Z 8%Z (Some "play.c"%string) (Some "play.c"%string)
           (Some "sync.c"%string) 40%Z 57%Z 5%Z free_world eq_refl Hc Hf Hl).
Defined.

(** Thread 7 asks for the object that thread 8 holds and lets go of during
    the second backoff. *)
Lemma debug_lock_returns_owned_sample :
  exists w' used cs,
    object_lock_exclusive_ 7%Z (Some "play.c"%string) 40%Z held_world = Ok tt w'
    /\ env held_world = used ++ env w'
    /\ mOwner (interfered used (object held_world)) = 0%Z
    /\ object w'
       = set_debug (interfered used (object held_world)) 7%Z (Some "play.c"%string) 40%Z
    /\ engine w' = engine held_world
    /\ Forall (fun c => c <> 0%Z) cs
    /\ (((List.length cs <= 5)%nat
         /\ new_events held_world w' = attempts (cs ++ [0%Z]))
        \/ (List.length cs = 6%nat
            /\ exists m,
                 new_events held_world w' = attempts cs ++ [EvLogW m; EvMutexLock 0])).
Proof.
  assert (Hrun : exists w',
             object_lock_exclusive_ 7%Z (Some "play.c"%string) 40%Z held_world = Ok tt w')
    by (eexists; vm_compute; reflexivity).
  destruct Hrun as (w' & Hrun).
  destruct (debug_lock_returns_owned 7%Z (Some "play.c"%string) 40%Z held_world w' Hrun)
    as (used & cs & H).
  exists w', used, cs. split; [exact Hrun | exact H].
Defined.

Lemma lock_granted_within_backoffs_sample :
  env held_world = [busy; busy] ++ released :: []
  /\ Forall (fun x => ret_code x <> 0%Z) [busy; busy]
  /\ (List.length [busy; busy] <= 5)%nat
  /\ ret_code released = 0%Z
  /\ mOwner (interfered ([busy; busy] ++ [released]) (object held_world)) = 0%Z
  /\ exists w',
       object_lock_exclusive_ 7%Z (Some "play.c"%string) 40%Z held_world = Ok tt w'
       /\ object w'
          = set_debug (interfered ([busy; busy] ++ [released]) (object held_world))
              7%Z (Some "play.c"%string) 40%Z
       /\ env w' = []
       /\ engine w' = engine held_world
       /\ trylocks (new_events held_world w') = 3%nat
       /\ slept (new_events held_world w')
          = fold_right Z.add 0%Z (firstn 2 backoffs)
       /\ warnings (new_events held_world w') = 0%nat
       /\ blocking_locks (new_events held_world w') = 0%nat.
Proof.
  assert (Hfails : Forall (fun x => ret_code x <> 0%Z) [busy; busy])
    by (repeat constructor; discriminate).
  assert (Hlen : (List.length [busy; busy] <= 5)%nat) by (cbn; lia).
  split; [reflexivity |]. split; [exact Hfails |]. split; [exact Hlen |].
  split; [reflexivity |]. split; [reflexivity |].
  exact (lock_granted_within_backoffs 7%Z (Some "play.c"%string) 40%Z [busy; busy]
           released [] held_world eq_refl Hfails Hlen eq_refl eq_refl).
Defined.

(** Bits 2, 8 and 10 on the sample object, where bits 0 to 7 are
    attributes: the scan stops at bit 8. *)
Lemma stray_bit_stops_report_sample :
  (true = true -> owned_by 7%Z (object sample_world))
  /\ valid_category sample_config (mObjectID (object sample_world)) = true
  /\ 1284 < 2 ^ 32
  /\ (exists k, ATTR_INDEX_MAX sample_config <= k /\ N.testbit 1284 k = true)
  /\ exists w',
       unlock_exclusive_attributes_body sample_config true 7%Z 1284
         (Some "play.c"%string) 57%Z sample_world = Fatal w'
       /\ scanned (new_events sample_world w') = [2; 8]
       /\ unlocks (new_events sample_world w') = 0%nat
       /\ engine w' = engine sample_world
       /\ mAttributesMask (object w') = 0.
Proof.
  assert (Hown : true = true -> owned_by 7%Z (object sample_world)).
  { intros _. split; [reflexivity |]. split; discriminate. }
  assert (Hstray : exists k, ATTR_INDEX_MAX sample_config <= k /\ N.testbit 1284 k = true).
  { exists 8. split; [cbn; lia | reflexivity]. }
  split; [exact Hown |]. split; [reflexivity |]. split; [reflexivity |].
  split; [exact Hstray |].
  destruct (stray_bit_stops_report sample_config true 7%Z 1284 (Some "play.c"%string)
              57%Z sample_world Hown eq_refl eq_refl Hstray)
    as (b & w' & Hrun & _ & _ & _ & _ & Hunlocks & Heng & _).
  exists w'. split; [exact Hrun |].
  vm_compute in Hrun. injection Hrun as E. subst w'.
  split; [reflexivity |]. split; [exact Hunlocks |]. split; [exact Heng | reflexivity].
Defined.

(** The audio player in slot 40 of 32 reports bits 2 and 5: bit 5 is merged
    and the mutex unlocked, then the call stops. *)
Lemma slot_beyond_max_instance_sample :
  ATTR_INDEX_MAX sample_config <= 32
  /\ tame_handlers sample_config
  /\ (true = true -> owned_by 7%Z (object crowded_world))
  /\ valid_category sample_config (mObjectID (object crowded_world)) = true
  /\ 36 < 2 ^ ATTR_INDEX_MAX sample_config
  /\ calm (env crowded_world)
  /\ MAX_INSTANCE sample_config < mInstanceID (object crowded_world)
  /\ mInstanceID (object crowded_world) < 2 ^ 32
  /\ exists t w',
       unlock_exclusive_attributes_body sample_config true 7%Z 36
         (Some "play.c"%string) 57%Z crowded_world = Fatal w'
       /\ new_events crowded_world w' = t ++ [EvMutexUnlock 0]
       /\ scanned t = set_bits 36
       /\ engine w' = engine crowded_world
       /\ mAttributesMask (object w') = 32.
Proof.
  assert (Hattr : ATTR_INDEX_MAX sample_config <= 32) by (cbn; lia).
  assert (Htame : tame_handlers sample_config) by sample_tame.
  assert (Hown : true = true -> owned_by 7%Z (object crowded_world)).
  { intros _. split; [reflexivity |]. split; discriminate. }
  assert (HM : 36 < 2 ^ ATTR_INDEX_MAX sample_config) by reflexivity.
  assert (Hcalm : calm (env crowded_world)) by constructor.
  assert (Hslot : MAX_INSTANCE sample_config < mInstanceID (object crowded_world))
    by reflexivity.
  assert (H32 : mInstanceID (object crowded_world) < 2 ^ 32) by reflexivity.
  split; [exact Hattr |]. split; [exact Htame |]. split; [exact Hown |].
  split; [reflexivity |]. split; [exact HM |]. split; [exact Hcalm |].
  split; [exact Hslot |]. split; [exact H32 |].
  destruct (slot_beyond_max_instance sample_config true 7%Z 36 (Some "play.c"%string)
              57%Z crowded_world Hattr Htame Hown eq_refl HM Hcalm Hslot H32)
    as (t & w' & _ & Hscan & Hnew & Heng & _ & _ & Hrun).
  exists t, w'.
  destruct (first_update (object crowded_world) (N.land 36 (unot (handled t))));
    [| exfalso; vm_compute in Hrun; discriminate Hrun].
  split; [exact Hrun |]. split; [exact Hnew |]. split; [exact Hscan |].
  split; [exact Heng |].
  vm_compute in Hrun. injection Hrun as E. subst w'. reflexivity.
Defined.

(** The sample report: nothing is pending before, bit 5 is pending after it
    and the engine has bit 2, that of slot 3. *)
Lemma report_keeps_engine_informed_sample :
  headers_ok sample_config
  /\ tame_handlers sample_config
  /\ reportable sample_config true 7%Z 36 sample_world
  /\ flagged sample_world
  /\ exists w',
       unlock_exclusive_attributes_body sample_config true 7%Z 36
         (Some "play.c"%string) 57%Z sample_world = Ok tt w'
       /\ flagged w'
       /\ mAttributesMask (object w') = 32
       /\ mInstanceID (object w') = 3
       /\ mChangedMask (engine w') = 4.
Proof.
  assert (Hflag : flagged sample_world) by (intros H; now contradiction H).
  split; [sample_headers |]. split; [sample_tame |]. split; [sample_call |].
  split; [exact Hflag |].
  destruct (report_keeps_engine_informed sample_config true 7%Z 36 (Some "play.c"%string)
              57%Z sample_world) as (w' & Hrun & Hflag');
    [sample_headers | sample_tame | sample_call | exact Hflag |].
  exists w'. split; [exact Hrun |]. split; [exact Hflag' |].
  vm_compute in Hrun. injection Hrun as E. subst w'.
  split; [reflexivity |]. split; reflexivity.
Defined.

(** The sample report in the two builds. *)
Lemma debug_build_adds_only_the_record_sample :
  owned_by 7%Z (object sample_world)
  /\ undisturbed (env sample_world)
  /\ (is_Ok (object_unlock_exclusive_attributes_ sample_config 7%Z 36
               (Some "play.c"%string) 57%Z sample_world)
      = is_Ok (object_unlock_exclusive_attributes sample_config 36 sample_world)
      /\ same_but_debug
           (world_of (object_unlock_exclusive_attributes_ sample_config 7%Z 36
                        (Some "play.c"%string) 57%Z sample_world))
           (world_of (object_unlock_exclusive_attributes sample_config 36 sample_world)))
  /\ (is_Ok (object_unlock_exclusive_ 7%Z (Some "play.c"%string) 57%Z sample_world)
      = is_Ok (object_unlock_exclusive sample_world)
      /\ same_but_debug
           (world_of (object_unlock_exclusive_ 7%Z (Some "play.c"%string) 57%Z
                        sample_world))
           (world_of (object_unlock_exclusive sample_world))).
Proof.
  assert (Hown : owned_by 7%Z (object sample_world)).
  { split; [reflexivity |]. split; discriminate. }
  assert (Henv : undisturbed (env sample_world)) by constructor.
  split; [exact Hown |]. split; [exact Henv |].
  exact (debug_build_adds_only_the_record sample_config 7%Z 36 (Some "play.c"%string)
           57%Z sample_world Hown Henv).
Defined.

(** Thread 7 locks the free object without a file name. *)
Lemma lock_without_site_cannot_be_unlocked_sample :
  mOwner (object free_world) = 0%Z
  /\ calm (env free_world)
  /\ (@None string = None \/ 40%Z = 0%Z)
  /\ exists w1,
       object_lock_exclusive_ 7%Z None 40%Z free_world = Ok tt w1
       /\ object w1 = set_debug (object free_world) 7%Z None 40%Z
       /\ object_unlock_exclusive_ 7%Z (Some "play.c"%string) 57%Z w1 = Fatal w1
       /\ object_unlock_exclusive_attributes_ sample_config 7%Z 36
            (Some "play.c"%string) 57%Z w1 = Fatal w1
       /\ object_cond_wait_ 7%Z (Some "play.c"%string) 57%Z w1 = Fatal w1.
Proof.
  assert (Hc : calm (env free_world)) by constructor.
  split; [reflexivity |]. split; [exact Hc |]. split; [now left |].
  exact (lock_without_site_cannot_be_unlocked sample_config 7%Z 36 None
           (Some "play.c"%string) 40%Z 57%Z free_world eq_refl Hc (or_introl eq_refl)).
Defined.
